(** * go-html-validate: template preprocessor, document builder and rules

    A shallow embedding of the parts of the linter that its specification
    makes claims about:

    - [parser]: the template preprocessor ([Process], [replaceTemplate]) and
      the document builder ([Node], [Document], [buildNodeTree], [Parse],
      [ParseFragment]), with the helpers of a node ([HasAttr], [GetAttr],
      [TextContent], [walk]);
    - [rules]: the valid-for rule ([ValidFor.Check]), the htmx
      attribute-grammar rule as [rules/htmx_attributes.go] has it
      ([HTMXAttributes.Check] and its validators) and, in [rules.later],
      the [Check] of its later state with [validateJSON] and
      [checkSubmitButtonInForm], the raw character-reference rule
      ([UnrecognizedCharRef.CheckRaw]) and the rank of a heading
      ([HeadingRank]).

    Go strings and byte slices are byte strings ([string], one [ascii] per
    byte), [int] is [Z] where it can be negative and [nat] where it is an
    index, a [map[string]bool] that only holds [true] is a [gset string] and
    the map from ids to nodes a [gmap].  The functions of Go's libraries
    that the code calls are modelled in the modules [strings], [regexp],
    [utf8] and [html] below.  Two limits of that model are fixed here once:

    - case mapping ([strings.ToLower], [strings.EqualFold]) is the ASCII one:
      bytes of 128 and above are left as they are.  It agrees with Go on
      every ASCII string.  The theorems that hold for all inputs never look
      inside these two functions; only the evaluations on sample inputs,
      which are ASCII, do;
    - white space ([strings.TrimSpace], [strings.Fields]) is Unicode white
      space, recognised by its UTF-8 encoding, as in Go. *)

From stdpp Require Import gmap strings list.
From Stdlib Require Import ZArith Lia Ascii.

Local Open Scope string_scope.
Local Open Scope Z_scope.
Local Open Scope list_scope.

(** Appending byte strings computes under [simpl] and [cbn]. *)
#[local] Arguments String.append !_ _ / : simpl nomatch.

(** ** Bytes *)

Definition byte_in (lo hi : N) (c : ascii) : bool :=
  ((lo <=? N_of_ascii c) && (N_of_ascii c <=? hi))%N.

Definition is_byte (n : N) (c : ascii) : bool := (N_of_ascii c =? n)%N.

Definition isUpperASCII (c : ascii) : bool := byte_in 65 90 c.
Definition isLowerASCII (c : ascii) : bool := byte_in 97 122 c.
Definition isDigit (c : ascii) : bool := byte_in 48 57 c.

Definition lowerByte (c : ascii) : ascii :=
  if isUpperASCII c then ascii_of_N (N_of_ascii c + 32) else c.

(** The line feed, as a one-byte string. *)
Definition LF : string := String (ascii_of_N 10) "".

(** [s[n:]] *)
Fixpoint drop_bytes (n : nat) (s : string) : string :=
  match n, s with
  | O, _ => s
  | S _, "" => ""
  | S n', String _ s' => drop_bytes n' s'
  end.

(** [s[lo:hi]] *)
Definition slice (s : string) (lo hi : nat) : string :=
  String.substring lo (hi - lo) s.

Fixpoint rev_string (s : string) : string :=
  match s with
  | "" => ""
  | String c s' => rev_string s' +:+ String c ""
  end.

(** ** Package [strings] (and the same functions of package [bytes]) *)

Module strings.

Fixpoint HasPrefix (s p : string) {struct p} : bool :=
  match p, s with
  | "", _ => true
  | String _ _, "" => false
  | String a p', String b s' => Ascii.eqb a b && HasPrefix s' p'
  end.

Definition HasSuffix (s suffix : string) : bool :=
  HasPrefix (rev_string s) (rev_string suffix).

Definition TrimPrefix (s p : string) : string :=
  if HasPrefix s p then drop_bytes (String.length p) s else s.

(** [Index] returns -1 when [sub] does not occur: here [None]. *)
Fixpoint Index_from (i : nat) (s sub : string) : option nat :=
  if HasPrefix s sub then Some i
  else match s with
       | "" => None
       | String _ s' => Index_from (S i) s' sub
       end.

Definition Index (s sub : string) : option nat := Index_from 0 s sub.

Definition Contains (s sub : string) : bool :=
  match Index s sub with Some _ => true | None => false end.

Definition ToLower (s : string) : string :=
  String.string_of_list_ascii (List.map lowerByte (String.list_ascii_of_string s)).

Definition EqualFold (s t : string) : bool := String.eqb (ToLower s) (ToLower t).

(** Width in bytes of the white-space character ([unicode.IsSpace]) that
    [s] starts with, 0 when it starts with none.  The characters are
    U+0009..U+000D, U+0020, U+0085, U+00A0, U+1680, U+2000..U+200A,
    U+2028, U+2029, U+202F, U+205F and U+3000. *)
Definition spaceWidth (s : string) : nat :=
  match s with
  | "" => O
  | String a r =>
      if byte_in 9 13 a || is_byte 32 a then 1%nat
      else match r with
           | "" => O
           | String b r' =>
               if is_byte 194 a && (is_byte 133 b || is_byte 160 b) then 2%nat
               else match r' with
                    | "" => O
                    | String c _ =>
                        if is_byte 225 a && is_byte 154 b && is_byte 128 c then 3%nat
                        else if is_byte 226 a && is_byte 128 b
                                && (byte_in 128 138 c || is_byte 168 c
                                    || is_byte 169 c || is_byte 175 c) then 3%nat
                        else if is_byte 226 a && is_byte 129 b && is_byte 159 c then 3%nat
                        else if is_byte 227 a && is_byte 128 b && is_byte 128 c then 3%nat
                        else O
                    end
           end
  end.

(** The same for the character that the reversed string [r] ends with:
    [r] is read back to front, so its first bytes are the last bytes of
    the encoding. *)
Definition spaceWidthRev (r : string) : nat :=
  match r with
  | "" => O
  | String c r1 =>
      if byte_in 9 13 c || is_byte 32 c then 1%nat
      else match r1 with
           | "" => O
           | String b r2 =>
               if spaceWidth (String b (String c "")) =? 2 then 2
               else match r2 with
                    | "" => O
                    | String a _ =>
                        if spaceWidth (String a (String b (String c ""))) =? 3 then 3 else O
                    end
           end%nat
  end.

Fixpoint trimLeft (fuel : nat) (s : string) : string :=
  match fuel with
  | O => s
  | S fuel' =>
      match spaceWidth s with
      | O => s
      | w => trimLeft fuel' (drop_bytes w s)
      end
  end.

Fixpoint trimRightRev (fuel : nat) (r : string) : string :=
  match fuel with
  | O => r
  | S fuel' =>
      match spaceWidthRev r with
      | O => r
      | w => trimRightRev fuel' (drop_bytes w r)
      end
  end.

Definition TrimSpace (s : string) : string :=
  let l := trimLeft (String.length s) s in
  rev_string (trimRightRev (String.length l) (rev_string l)).

(** [Fields]: the maximal runs of non-space characters.  [skip] counts the
    bytes still to pass of a multi-byte space, [cur] is the field being
    read, if any. *)
Fixpoint fields_from (s : string) (skip : nat) (cur : option string) : list string :=
  match s with
  | "" => match cur with Some f => [f] | None => [] end
  | String c s' =>
      match skip with
      | S k => fields_from s' k cur
      | O =>
          match spaceWidth s with
          | O => fields_from s' O (Some (default "" cur +:+ String c ""))
          | S k =>
              match cur with
              | Some f => f :: fields_from s' k None
              | None => fields_from s' k None
              end
          end
      end
  end.

Definition Fields (s : string) : list string := fields_from s O None.

(** [Split s sep] for a non-empty separator. *)
Fixpoint split_from (s sep : string) (skip : nat) (cur : string) : list string :=
  match s with
  | "" => [cur]
  | String c s' =>
      match skip with
      | S k => split_from s' sep k cur
      | O =>
          if HasPrefix s sep
          then cur :: split_from s' sep (String.length sep - 1) ""
          else split_from s' sep O (cur +:+ String c "")
      end
  end.

Definition Split (s sep : string) : list string := split_from s sep O "".

(** [SplitN s sep 2] for a non-empty separator: cut at the first one. *)
Definition SplitN2 (s sep : string) : list string :=
  match Index s sep with
  | None => [s]
  | Some i => [slice s 0 i; drop_bytes (i + String.length sep) s]
  end.

End strings.

(** ** Package [regexp]

    Go's [regexp] returns the leftmost match and, among the matches that
    start there, the one a backtracking matcher finds first.  [rmatch] is
    that backtracking matcher, in continuation-passing style: [k] receives
    the offset reached, the input left and the groups recorded so far, and
    a [None] from it makes the matcher try its next alternative.

    Go matches UTF-8 characters where this model matches bytes.  In the
    patterns of this repository every class holds all the characters
    outside ASCII or none of them, and what follows a repetition starts
    with an ASCII byte, which is never part of a longer UTF-8 sequence: both
    find the same match.  Repetition is only ever applied to a
    single-character class in those patterns, and so it is here. *)

Module regexp.

Inductive regex : Type :=
| Eps                                   (* the empty pattern *)
| Chr (p : ascii -> bool)               (* one character of a class *)
| Seq (r1 r2 : regex)                   (* r1 r2 *)
| Alt (r1 r2 : regex)                   (* r1|r2, r1 preferred *)
| Opt (r : regex)                       (* r?, one preferred *)
| Star (p : ascii -> bool)              (* [p]*, more preferred *)
| StarLazy (p : ascii -> bool)          (* [p]*?, fewer preferred *)
| Group (i : nat) (r : regex)           (* capturing group number i *)
| BeginText                             (* ^ without flag m *)
| EndText.                              (* $ without flag m *)

(** A literal string. *)
Fixpoint Lit (s : string) : regex :=
  match s with
  | "" => Eps
  | String c s' => Seq (Chr (Ascii.eqb c)) (Lit s')
  end.

(** [r1 r2 ... rn] *)
Definition seq (rs : list regex) : regex := foldr Seq Eps rs.

(** Perl classes: [\s] is [[\t\n\f\r ]], [\d] is [[0-9]]. *)
Definition perl_s (c : ascii) : bool :=
  is_byte 9 c || is_byte 10 c || is_byte 12 c || is_byte 13 c || is_byte 32 c.
Definition perl_d (c : ascii) : bool := isDigit c.
(** [.] under flag s. *)
Definition any (_ : ascii) : bool := true.

(** Offsets of the groups that took part in the match. *)
Definition groups := list (nat * (nat * nat)).

Fixpoint group (i : nat) (g : groups) : option (nat * nat) :=
  match g with
  | [] => None
  | (j, se) :: g' => if (i =? j)%nat then Some se else group i g'
  end.

Record Match := mkMatch { mstart : nat; mend : nat; mgroups : groups }.

Section Matcher.
Context {R : Type}.
Definition cont := nat -> string -> groups -> option R.

Fixpoint star (p : ascii -> bool) (pos : nat) (s : string) (g : groups) (k : cont)
  : option R :=
  match s with
  | String c s' =>
      if p c then
        match star p (S pos) s' g k with
        | Some x => Some x
        | None => k pos s g
        end
      else k pos s g
  | "" => k pos s g
  end.

Fixpoint starLazy (p : ascii -> bool) (pos : nat) (s : string) (g : groups) (k : cont)
  : option R :=
  match k pos s g with
  | Some x => Some x
  | None =>
      match s with
      | String c s' => if p c then starLazy p (S pos) s' g k else None
      | "" => None
      end
  end.

Fixpoint rmatch (r : regex) (pos : nat) (s : string) (g : groups) (k : cont)
  : option R :=
  match r with
  | Eps => k pos s g
  | Chr p =>
      match s with
      | String c s' => if p c then k (S pos) s' g else None
      | "" => None
      end
  | Seq r1 r2 => rmatch r1 pos s g (fun pos' s' g' => rmatch r2 pos' s' g' k)
  | Alt r1 r2 =>
      match rmatch r1 pos s g k with
      | Some x => Some x
      | None => rmatch r2 pos s g k
      end
  | Opt r1 =>
      match rmatch r1 pos s g k with
      | Some x => Some x
      | None => k pos s g
      end
  | Star p => star p pos s g k
  | StarLazy p => starLazy p pos s g k
  | Group i r1 => rmatch r1 pos s g (fun pos' s' g' => k pos' s' ((i, (pos, pos')) :: g'))
  | BeginText => if (pos =? 0)%nat then k pos s g else None
  | EndText => match s with "" => k pos s g | _ => None end
  end.
End Matcher.

(** A match that starts at offset [pos], where the input left is [s]. *)
Definition exec (re : regex) (pos : nat) (s : string) : option Match :=
  rmatch re pos s [] (fun e _ g => Some (mkMatch pos e g)).

(** The leftmost match at or after offset [pos]. *)
Fixpoint find (re : regex) (pos : nat) (s : string) : option Match :=
  match exec re pos s with
  | Some m => Some m
  | None =>
      match s with
      | "" => None
      | String _ s' => find re (S pos) s'
      end
  end.

Definition MatchString (re : regex) (s : string) : bool :=
  match find re 0 s with Some _ => true | None => false end.

(** The text of group [i] of match [m] in [src], empty when the group took
    no part in the match. *)
Definition submatch (src : string) (m : Match) (i : nat) : string :=
  match group i (mgroups m) with
  | Some (b, e) => slice src b e
  | None => ""
  end.

(** The loop of [Regexp.replaceAll].  After a match the search goes on at
    its end; after an empty match it moves on by one character (one byte
    here), and an empty match right after a match is not replaced. *)
Fixpoint replaceAll_loop (fuel : nat) (re : regex) (repl : Match -> string)
    (src : string) (lastMatchEnd searchPos : nat) : string :=
  match fuel with
  | O => drop_bytes lastMatchEnd src
  | S fuel' =>
      if (String.length src <? searchPos)%nat then drop_bytes lastMatchEnd src
      else
        match find re searchPos (drop_bytes searchPos src) with
        | None => drop_bytes lastMatchEnd src
        | Some a =>
            slice src lastMatchEnd (mstart a)
            +:+ (if (lastMatchEnd <? mend a)%nat || (mstart a =? 0)%nat
                 then repl a else "")
            +:+ replaceAll_loop fuel' re repl src (mend a)
                  (if (searchPos <? mend a)%nat then mend a else S searchPos)
        end
  end.

(** [re.ReplaceAll(src, []byte("$1"))]: the template is the text of
    group 1. *)
Definition ReplaceAll_group1 (re : regex) (src : string) : string :=
  replaceAll_loop (S (S (String.length src))) re (fun a => submatch src a 1) src 0 0.

(** [re.ReplaceAllFunc(src, f)] *)
Definition ReplaceAllFunc (re : regex) (src : string) (f : string -> string) : string :=
  replaceAll_loop (S (S (String.length src))) re
    (fun a => f (slice src (mstart a) (mend a))) src 0 0.

(** The loop of [Regexp.allMatches] with no limit on the number of
    matches ([n = -1]). *)
Fixpoint allMatches_loop (fuel : nat) (re : regex) (s : string)
    (pos : nat) (prevMatchEnd : option nat) : list Match :=
  match fuel with
  | O => []
  | S fuel' =>
      if (String.length s <? pos)%nat then []
      else
        match find re pos (drop_bytes pos s) with
        | None => []
        | Some a =>
            let empty := (mend a =? pos)%nat in
            let accept :=
              negb (empty && match prevMatchEnd with
                             | Some e => (mstart a =? e)%nat
                             | None => false
                             end) in
            let rest :=
              allMatches_loop fuel' re s (if empty then S pos else mend a)
                (Some (mend a)) in
            if accept then a :: rest else rest
        end
  end.

Definition FindAllStringSubmatchIndex (re : regex) (s : string) : list Match :=
  allMatches_loop (S (S (String.length s))) re s 0 None.

End regexp.

(** ** Packages [unicode/utf8] and [html] *)

Module utf8.

Definition byte_of (z : Z) : ascii := ascii_of_N (Z.to_N (Z.land z 255)).

(** [EncodeRune]: surrogates and values outside 0..0x10FFFF (negative
    ones too) are written as U+FFFD. *)
Definition EncodeRune (r : Z) : string :=
  if (0 <=? r) && (r <=? 127) then String (byte_of r) ""
  else if (0 <=? r) && (r <=? 2047) then
    String (byte_of (Z.lor 192 (Z.shiftr r 6)))
      (String (byte_of (Z.lor 128 (Z.land r 63))) "")
  else if ((0 <=? r) && (r <? 55296)) || ((57343 <? r) && (r <=? 65535)) then
    String (byte_of (Z.lor 224 (Z.shiftr r 12)))
      (String (byte_of (Z.lor 128 (Z.land (Z.shiftr r 6) 63)))
         (String (byte_of (Z.lor 128 (Z.land r 63))) ""))
  else if (65535 <? r) && (r <=? 1114111) then
    String (byte_of (Z.lor 240 (Z.shiftr r 18)))
      (String (byte_of (Z.lor 128 (Z.land (Z.shiftr r 12) 63)))
         (String (byte_of (Z.lor 128 (Z.land (Z.shiftr r 6) 63)))
            (String (byte_of (Z.lor 128 (Z.land r 63))) "")))
  else String (byte_of 239) (String (byte_of 191) (String (byte_of 189) "")).

End utf8.

(** Module [html] holds what the code uses of the two packages it imports
    under that name: the node type of [golang.org/x/net/html] and
    [UnescapeString] of the standard library. *)

Module html.

Inductive NodeType : Type :=
| ErrorNode | TextNode | DocumentNode | ElementNode
| CommentNode | DoctypeNode | RawNode.

Definition NodeType_eqb (a b : NodeType) : bool :=
  match a, b with
  | ErrorNode, ErrorNode | TextNode, TextNode | DocumentNode, DocumentNode
  | ElementNode, ElementNode | CommentNode, CommentNode
  | DoctypeNode, DoctypeNode | RawNode, RawNode => true
  | _, _ => false
  end.

Record Attribute : Type := mkAttribute { Namespace : string; Key : string; Val : string }.

(** A parsed node.  The chain [FirstChild], [NextSibling], ... is the list
    [Kids]; [DataAtom] and [Namespace] are not read by the code modelled
    here. *)
#[local] Unset Elimination Schemes.
Inductive Node : Type :=
  mkNode { Type_ : NodeType; Data : string; Attr : list Attribute; Kids : list Node }.
#[local] Set Elimination Schemes.

(** A [rune] is an [int32]: arithmetic wraps around. *)
Definition wrap32 (z : Z) : Z := (z + 2147483648) mod 4294967296 - 2147483648.

(** Windows-1252 replacements for the code points 0x80..0x9F. *)
Definition replacementTable : list Z :=
  [8364; 129; 8218; 402; 8222; 8230; 8224; 8225; 710; 8240; 352; 8249; 338; 141;
   381; 143; 144; 8216; 8217; 8220; 8221; 8226; 8211; 8212; 732; 8482; 353; 8250;
   339; 157; 382; 376].

Definition longestEntityWithoutSemicolon : nat := 6.

Section Entities.
(** The tables [entity] and [entity2] of the package, from the name of a
    character reference (with its semicolon, where it has one) to one or
    two code points; a Go map gives 0 for a name it does not hold. *)
Variable entity : string -> Z.
Variable entity2 : string -> Z * Z.

(** The digits of a numeric reference: [x] is the value read so far and
    [i] the index of the first byte of [s].  A semicolon that ends the
    digits is consumed. *)
Fixpoint numLoop (hex : bool) (s : string) (x : Z) (i : nat) : Z * nat :=
  match s with
  | "" => (x, i)
  | String c s' =>
      let v := Z.of_N (N_of_ascii c) in
      if hex && isDigit c then numLoop hex s' (wrap32 (16 * x + v - 48)) (S i)
      else if hex && byte_in 97 102 c then numLoop hex s' (wrap32 (16 * x + v - 97 + 10)) (S i)
      else if hex && byte_in 65 70 c then numLoop hex s' (wrap32 (16 * x + v - 65 + 10)) (S i)
      else if negb hex && isDigit c then numLoop hex s' (wrap32 (10 * x + v - 48)) (S i)
      else if is_byte 59 c then (x, S i)
      else (x, i)
  end.

(** The letters and digits of a named reference, and a semicolon after
    them. *)
Fixpoint nameLoop (s : string) (i : nat) : nat :=
  match s with
  | "" => i
  | String c s' =>
      if isLowerASCII c || isUpperASCII c || isDigit c then nameLoop s' (S i)
      else if is_byte 59 c then S i
      else i
  end.

(** [for j := maxLen; j > 1; j--]: the longest prefix of the name that is
    a reference without semicolon. *)
Fixpoint prefixLoop (entityName : string) (j : nat) : option (Z * nat) :=
  match j with
  | O => None
  | S j' =>
      if (1 <? j)%nat then
        if negb (entity (slice entityName 0 j) =? 0)
        then Some (entity (slice entityName 0 j), S j)
        else prefixLoop entityName j'
      else None
  end.

(** [unescapeEntity] on [s = b[src:]], which starts with an ampersand:
    the bytes written at [dst] and the number of bytes read.  ([attribute]
    is the constant [false].) *)
Definition unescapeEntity (s : string) : string * nat :=
  let amp := slice s 0 1 in
  if (String.length s <=? 1)%nat then (amp, 1%nat)
  else if strings.HasPrefix (drop_bytes 1 s) "#" then
    if (String.length s <=? 3)%nat then (amp, 1%nat)
    else
      let hex := strings.HasPrefix (drop_bytes 2 s) "x"
                 || strings.HasPrefix (drop_bytes 2 s) "X" in
      let i0 := if hex then 3%nat else 2%nat in
      let '(x, i) := numLoop hex (drop_bytes i0 s) 0 i0 in
      if (i <=? 3)%nat then (amp, 1%nat)
      else
        let x' :=
          if (128 <=? x) && (x <=? 159) then nth (Z.to_nat (x - 128)) replacementTable 0
          else if (x =? 0) || ((55296 <=? x) && (x <=? 57343)) || (1114111 <? x)
               then 65533
               else x in
        (utf8.EncodeRune x', i)
  else
    let i := nameLoop (drop_bytes 1 s) 1 in
    let entityName := slice s 1 i in
    if (String.length entityName =? 0)%nat then (slice s 0 i, i)
    else if negb (entity entityName =? 0) then (utf8.EncodeRune (entity entityName), i)
    else if negb (fst (entity2 entityName) =? 0) then
      (utf8.EncodeRune (fst (entity2 entityName))
       +:+ utf8.EncodeRune (snd (entity2 entityName)), i)
    else
      let maxLen := Nat.min (String.length entityName - 1) longestEntityWithoutSemicolon in
      match prefixLoop entityName maxLen with
      | Some (x, n) => (utf8.EncodeRune x, n)
      | None => (slice s 0 i, i)
      end.

(** [UnescapeString] rewrites a copy of [s] in place, the write cursor
    never ahead of the read cursor; here the output is built from the
    pieces.  Each round reads at least the ampersand. *)
Fixpoint unescape_loop (fuel : nat) (s : string) : string :=
  match fuel with
  | O => s
  | S fuel' =>
      match strings.Index s "&" with
      | None => s
      | Some i =>
          let '(out, n) := unescapeEntity (drop_bytes i s) in
          slice s 0 i +:+ out +:+ unescape_loop fuel' (drop_bytes (i + n) s)
      end
  end.

Definition UnescapeString (s : string) : string :=
  unescape_loop (S (String.length s)) s.
End Entities.

End html.

(** ** Package [encoding/json]

    The errors of [json.Unmarshal]: a [*json.SyntaxError] with its offset,
    or another error; both carry the text that [Error()] returns. *)

Module json.

Inductive error : Type :=
| SyntaxError (msg : string) (Offset : Z)
| OtherError (msg : string).

Definition Error_ (e : error) : string :=
  match e with SyntaxError msg _ => msg | OtherError msg => msg end.

End json.

(** ** Package [parser] *)

Module parser.
Import regexp.

(** [\{\{[\s\S]*?\}\}] *)
Definition templatePattern : regex :=
  seq [Lit "{{"; StarLazy (fun c => perl_s c || negb (perl_s c)); Lit "}}"].

(** [(?s)\{\{-?\s*if\s[^}]*\}\}(.*?)\{\{-?\s*else\s*-?\}\}.*?\{\{-?\s*end\s*-?\}\}] *)
Definition ifElseEndPattern : regex :=
  seq [Lit "{{"; Opt (Lit "-"); Star perl_s; Lit "if"; Chr perl_s;
       Star (fun c => negb (Ascii.eqb c "}")); Lit "}}";
       Group 1 (StarLazy any);
       Lit "{{"; Opt (Lit "-"); Star perl_s; Lit "else"; Star perl_s; Opt (Lit "-"); Lit "}}";
       StarLazy any;
       Lit "{{"; Opt (Lit "-"); Star perl_s; Lit "end"; Star perl_s; Opt (Lit "-"); Lit "}}"].

(** [(?s)\{\{-?\s*if\s[^}]*\}\}(.*?)\{\{-?\s*end\s*-?\}\}] *)
Definition ifEndPattern : regex :=
  seq [Lit "{{"; Opt (Lit "-"); Star perl_s; Lit "if"; Chr perl_s;
       Star (fun c => negb (Ascii.eqb c "}")); Lit "}}";
       Group 1 (StarLazy any);
       Lit "{{"; Opt (Lit "-"); Star perl_s; Lit "end"; Star perl_s; Opt (Lit "-"); Lit "}}"].

Record SourceMap : Type := mkSourceMap { Original : string; Processed : string }.

Definition OriginalPosition (sm : SourceMap) (line col : Z) : Z * Z := (line, col).

(** [nil] and the empty slice are the same bytes: the empty string. *)
Definition replaceTemplate (match_ : string) : string :=
  let content := strings.TrimSpace (slice match_ 2 (String.length match_ - 2)) in
  if strings.HasPrefix content "/*" then ""
  else if strings.HasPrefix content "if "
          || strings.HasPrefix content "if("
          || String.eqb content "else"
          || strings.HasPrefix content "else if" then ""
  else if strings.HasPrefix content "end" then ""
  else if strings.HasPrefix content "range " then ""
  else if strings.HasPrefix content "template "
          || strings.HasPrefix content "block " then ""
  else if strings.HasPrefix content "define " then ""
  else if strings.HasPrefix content "with " then ""
  else if strings.HasPrefix content "-" then ""
  else "TMPL".

(** [Process] returns the processed bytes, the source map and an error
    that is always [nil] ([None]). *)
Definition Process (input : string) : string * SourceMap * option string :=
  let processed := ReplaceAll_group1 ifElseEndPattern input in
  let processed := ReplaceAll_group1 ifEndPattern processed in
  let processed := ReplaceAllFunc templatePattern processed replaceTemplate in
  (processed, mkSourceMap input processed, None).

(** The first result of [Process]. *)
Definition processed_bytes (input : string) : string := (Process input).1.1.

Definition ProcessFile (content : string) : string * SourceMap * option string :=
  Process content.

(** [Node] embeds the parsed node, whose fields [Type], [Data] and [Attr]
    it so has too.  [Children] owns the subtree.  [Parent] is a pointer
    back to the owner and is not stored: [buildNodeTree], the only code
    here that reads it, receives the parent as its argument.  The embedded
    pointer is never [nil] in a tree that [buildNodeTree] built. *)
#[local] Unset Elimination Schemes.
Inductive Node : Type :=
  mkNode { Node_ : html.Node; Line : Z; Col : Z; Children : list Node }.
#[local] Set Elimination Schemes.

Definition Type_ (n : Node) : html.NodeType := html.Type_ (Node_ n).
Definition Data (n : Node) : string := html.Data (Node_ n).
Definition Attr (n : Node) : list html.Attribute := html.Attr (Node_ n).

Record Document : Type := mkDocument {
  Root : option Node;
  Filename : string;
  IsTemplateFragment : bool;
  sourceMap : SourceMap
}.

Fixpoint HasAttr_loop (attrs : list html.Attribute) (name : string) : bool :=
  match attrs with
  | [] => false
  | attr :: rest =>
      if strings.EqualFold (html.Key attr) name then true else HasAttr_loop rest name
  end.

Definition HasAttr (n : Node) (name : string) : bool := HasAttr_loop (Attr n) name.

Fixpoint GetAttr_loop (attrs : list html.Attribute) (name : string) : string :=
  match attrs with
  | [] => ""
  | attr :: rest =>
      if strings.EqualFold (html.Key attr) name then html.Val attr
      else GetAttr_loop rest name
  end.

Definition GetAttr (n : Node) (name : string) : string := GetAttr_loop (Attr n) name.

Definition IsElement (n : Node) (tag : string) : bool :=
  html.NodeType_eqb (Type_ n) html.ElementNode && strings.EqualFold (Data n) tag.

(** [Node.collectText] writes to the builder [buf]: the data of the node
    when it is a text node, and then what its children write. *)
Fixpoint collectText (n : Node) (buf : string) {struct n} : string :=
  match n with
  | mkNode _ _ _ children =>
      let buf :=
        if html.NodeType_eqb (Type_ n) html.TextNode then buf +:+ Data n else buf in
      (fix children_loop (cs : list Node) (buf : string) {struct cs} : string :=
         match cs with
         | [] => buf
         | child :: cs' => children_loop cs' (collectText child buf)
         end) children buf
  end.

Definition TextContent (n : Node) : string := strings.TrimSpace (collectText n "").

(** [Node.walk]: [fn] may stop the traversal by returning [false].  The
    variables that the callback captures and updates are the state [St]. *)
Section Walk.
Context {St : Type}.
Definition WalkFunc := Node -> St -> bool * St.

Fixpoint walk (fn : WalkFunc) (n : Node) (st : St) {struct n} : bool * St :=
  match n with
  | mkNode _ _ _ children =>
      let '(go_on, st1) := fn n st in
      if negb go_on then (false, st1)
      else
        (fix children_loop (cs : list Node) (st : St) {struct cs} : bool * St :=
           match cs with
           | [] => (true, st)
           | child :: cs' =>
               let '(ok, st') := walk fn child st in
               if negb ok then (false, st') else children_loop cs' st'
           end) children st1
  end.

Definition Walk (d : Document) (fn : WalkFunc) (st : St) : St :=
  match Root d with
  | Some root => (walk fn root st).2
  | None => st
  end.
End Walk.

(** The traversal again, for a callback that reads [n.Parent].  [Parent]
    is not stored in [Node] (see above): in a tree that [buildNodeTree]
    built, and under the root that [ParseFragment] makes, the parent of a
    node is the node among whose [Children] it stands, and the root has
    none.  So the traversal hands the callback, with the node, the chain of
    its parents, the nearest first: what following [Parent] from the node
    reads. *)
Section WalkWithParents.
Context {St : Type}.
Definition WalkFuncWithParents := list Node -> Node -> St -> bool * St.

Fixpoint walkWithParents (fn : WalkFuncWithParents) (parents : list Node) (n : Node)
    (st : St) {struct n} : bool * St :=
  match n with
  | mkNode _ _ _ children =>
      let '(go_on, st1) := fn parents n st in
      if negb go_on then (false, st1)
      else
        (fix children_loop (cs : list Node) (st : St) {struct cs} : bool * St :=
           match cs with
           | [] => (true, st)
           | child :: cs' =>
               let '(ok, st') := walkWithParents fn (n :: parents) child st in
               if negb ok then (false, st') else children_loop cs' st'
           end) children st1
  end.

Definition WalkWithParents (d : Document) (fn : WalkFuncWithParents) (st : St) : St :=
  match Root d with
  | Some root => (walkWithParents fn [] root st).2
  | None => st
  end.
End WalkWithParents.

(** [buildNodeTree]: a node takes the line and column of its parent, and
    1, 1 when it has none. *)
Fixpoint buildNodeTree (n : html.Node) (parent : option Node) {struct n} : Node :=
  match n with
  | html.mkNode _ _ _ kids =>
      let line := match parent with Some p => Line p | None => 1 end in
      let col := match parent with Some p => Col p | None => 1 end in
      let node := mkNode n line col [] in
      mkNode n line col (List.map (fun c => buildNodeTree c (Some node)) kids)
  end.

Section Parse.
(** [html.Parse] and [html.ParseFragment] of [golang.org/x/net/html];
    [None] is an error. *)
Variable html_Parse : string -> option html.Node.
Variable html_ParseFragment : string -> html.Node -> option (list html.Node).

Definition Parse (filename content : string) : option Document :=
  let '(processed, sourceMap, err) := Process content in
  match err with
  | Some _ => None
  | None =>
      match html_Parse processed with
      | None => None
      | Some root =>
          Some (mkDocument (Some (buildNodeTree root None)) filename false sourceMap)
      end
  end.

Definition ParseFragment (filename content : string) : option Document :=
  let isTemplateFragment :=
    strings.HasPrefix (strings.TrimSpace content) "{{define" in
  let '(processed, sourceMap, err) := Process content in
  match err with
  | Some _ => None
  | None =>
      let context := html.mkNode html.ElementNode "body" [] [] in
      match html_ParseFragment processed context with
      | None => None
      | Some nodes =>
          let syntheticRoot := mkNode (html.mkNode html.DocumentNode "" [] []) 1 1 [] in
          let children := List.map (fun n => buildNodeTree n (Some syntheticRoot)) nodes in
          Some (mkDocument
                  (Some (mkNode (Node_ syntheticRoot) (Line syntheticRoot)
                           (Col syntheticRoot) children))
                  filename isTemplateFragment sourceMap)
      end
  end.
End Parse.

End parser.

(** ** Package [rules] *)

Module rules.
Import regexp.

Inductive Severity : Type := Error | Warning.

Record Result : Type := mkResult {
  Rule : string;
  Message : string;
  Filename : string;
  Line : Z;
  Col : Z;
  Severity_ : Severity
}.

(** A [map[string]bool] whose values are all [true] is the set of its
    keys; a key it does not hold reads as [false]. *)
Definition has (m : gset string) (key : string) : bool := bool_decide (key ∈ m).

Definition labelableElements : gset string :=
  list_to_set ["input"; "textarea"; "select"; "button"; "output"; "meter"; "progress"].

(** The exported tables of heading and labelable elements, and the rank of
    a heading. *)
Definition HeadingTags : gset string :=
  list_to_set ["h1"; "h2"; "h3"; "h4"; "h5"; "h6"].

Definition HeadingRank (tagName : string) : Z :=
  let tag := strings.ToLower tagName in
  if String.eqb tag "h1" then 1
  else if String.eqb tag "h2" then 2
  else if String.eqb tag "h3" then 3
  else if String.eqb tag "h4" then 4
  else if String.eqb tag "h5" then 5
  else if String.eqb tag "h6" then 6
  else 0.

Definition LabelableElements : gset string :=
  list_to_set ["button"; "input"; "meter"; "output"; "progress"; "select"; "textarea"].

Definition validSwapValues : gset string :=
  list_to_set ["innerhtml"; "outerhtml"; "beforebegin"; "afterbegin"; "beforeend";
               "afterend"; "delete"; "none"; "textcontent"; "upsert"].

Definition validSwapModifiers : gset string :=
  list_to_set ["swap"; "settle"; "scroll"; "show"; "focus-scroll"; "transition";
               "ignoreTitle"].

Definition validTriggerModifiers : gset string :=
  list_to_set ["once"; "changed"; "delay"; "throttle"; "from"; "target"; "consume";
               "queue"; "root"; "threshold"].

(** [^\d+(?:ms|s)$] *)
Definition timePattern : regex :=
  seq [BeginText; Chr perl_d; Star perl_d; Alt (Lit "ms") (Lit "s"); EndText].

Definition queueModes : gset string := list_to_set ["first"; "last"; "all"; "none"].

Definition knownDOMEvents : gset string :=
  list_to_set
    ["click"; "dblclick"; "mousedown"; "mouseup";
     "mousemove"; "mouseenter"; "mouseleave"; "mouseover"; "mouseout";
     "keydown"; "keyup"; "keypress";
     "submit"; "change"; "input"; "focus"; "blur"; "reset";
     "invalid"; "select";
     "load"; "unload"; "resize"; "scroll"; "error";
     "beforeunload"; "hashchange"; "popstate";
     "drag"; "dragstart"; "dragend"; "dragover";
     "dragenter"; "dragleave"; "drop";
     "touchstart"; "touchend"; "touchmove"; "touchcancel";
     "pointerdown"; "pointerup"; "pointermove"; "pointerenter";
     "pointerleave"; "pointerover"; "pointerout"; "pointercancel";
     "animationstart"; "animationend"; "animationiteration";
     "transitionstart"; "transitionend"; "transitionrun"; "transitioncancel";
     "copy"; "cut"; "paste";
     "play"; "pause"; "ended"; "volumechange"; "seeking";
     "seeked"; "timeupdate"; "loadeddata"; "loadedmetadata";
     "contextmenu"; "wheel"; "compositionstart"; "compositionend"].

(** The keys of [knownHTMXv2Events]; the code only ranges over them. *)
Definition knownHTMXv2Events : list string :=
  ["htmx:abort"; "htmx:afterOnLoad"; "htmx:afterProcessNode"; "htmx:afterRequest";
   "htmx:afterSettle"; "htmx:afterSwap"; "htmx:beforeCleanupElement";
   "htmx:beforeOnLoad"; "htmx:beforeProcessNode"; "htmx:beforeRequest";
   "htmx:beforeSend"; "htmx:beforeSwap"; "htmx:beforeTransition";
   "htmx:configRequest"; "htmx:confirm"; "htmx:historyCacheError";
   "htmx:historyCacheHit"; "htmx:historyCacheMiss"; "htmx:historyCacheMissLoad";
   "htmx:historyCacheMissLoadError"; "htmx:historyRestore"; "htmx:beforeHistorySave";
   "htmx:beforeHistoryUpdate"; "htmx:load"; "htmx:noSSESourceError";
   "htmx:oobAfterSwap"; "htmx:oobBeforeSwap"; "htmx:oobErrorNoTarget";
   "htmx:onLoadError"; "htmx:prompt"; "htmx:pushedIntoHistory";
   "htmx:replacedInHistory"; "htmx:responseError"; "htmx:sendAbort";
   "htmx:sendError"; "htmx:sseError"; "htmx:swapError"; "htmx:targetError";
   "htmx:timeout"; "htmx:trigger"; "htmx:validateUrl"; "htmx:validation:validate";
   "htmx:validation:failed"; "htmx:validation:halted"; "htmx:xhr:abort";
   "htmx:xhr:loadstart"; "htmx:xhr:loadend"; "htmx:xhr:progress"].

Definition knownHTMXv4Phases : gset string :=
  list_to_set ["before"; "after"; "error"; "finally"].

Definition knownHTMXv4Actions : gset string :=
  list_to_set ["request"; "swap"; "settle"; "send"; "process"; "cleanup"; "onLoad";
               "transition"; "viewTransition"; "history"; "historyUpdate";
               "historySave"; "sse"; "oob"].

(** [isValidElement] *)
Definition isValidElement (name : string) : bool :=
  has (list_to_set
    ["a"; "abbr"; "address"; "area"; "article"; "aside"; "audio";
     "b"; "base"; "bdi"; "bdo"; "blockquote"; "body"; "br"; "button";
     "canvas"; "caption"; "cite"; "code"; "col"; "colgroup";
     "data"; "datalist"; "dd"; "del"; "details"; "dfn"; "dialog"; "div"; "dl"; "dt";
     "em"; "embed";
     "fieldset"; "figcaption"; "figure"; "footer"; "form";
     "h1"; "h2"; "h3"; "h4"; "h5"; "h6"; "head"; "header"; "hgroup"; "hr"; "html";
     "i"; "iframe"; "img"; "input"; "ins";
     "kbd"; "label"; "legend"; "li"; "link";
     "main"; "map"; "mark"; "menu"; "meta"; "meter";
     "nav"; "noscript";
     "object"; "ol"; "optgroup"; "option"; "output";
     "p"; "picture"; "pre"; "progress";
     "q"; "rp"; "rt"; "ruby";
     "s"; "samp"; "script"; "search"; "section"; "select"; "slot"; "small"; "source";
     "span"; "strong"; "style"; "sub"; "summary"; "sup";
     "table"; "tbody"; "td"; "template"; "textarea"; "tfoot"; "th"; "thead"; "time";
     "title"; "tr"; "track";
     "u"; "ul"; "var"; "video"; "wbr"]) name.

(** An ampersand, group 1 = a letter and then letters and digits, a
    semicolon: [&([a-zA-Z][a-zA-Z0-9]* );] without the blank. *)
Definition namedCharRefPattern : regex :=
  seq [Lit "&";
              Group 1 (Seq (Chr (fun c => isLowerASCII c || isUpperASCII c))
                           (Star (fun c => isLowerASCII c || isUpperASCII c || isDigit c)));
              Lit ";"].

(** [isInsideTemplateExpr]: [s] is [line[i:]], and [i < len(line)-1] says
    that [s] has two bytes at least. *)
Fixpoint isInsideTemplateExpr_loop (s : string) (i pos : nat) (depth : Z) : Z :=
  match s with
  | String a t =>
      match t with
      | String b rest =>
          if (i <? pos)%nat then
            if Ascii.eqb a "{" && Ascii.eqb b "{"
            then isInsideTemplateExpr_loop rest (S (S i)) pos (depth + 1)
            else if Ascii.eqb a "}" && Ascii.eqb b "}"
            then isInsideTemplateExpr_loop rest (S (S i)) pos (depth - 1)
            else isInsideTemplateExpr_loop t (S i) pos depth
          else depth
      | "" => depth
      end
  | "" => depth
  end.

Definition isInsideTemplateExpr (line : string) (pos : nat) : bool :=
  0 <? isInsideTemplateExpr_loop line 0 pos 0.

(** The rule with its configuration. *)
Record HTMXAttributes : Type := mkHTMXAttributes {
  htmxEnabled : bool;
  htmxVersion : string
}.

Definition Configure (r : HTMXAttributes) (htmxEnabled : bool) (htmxVersion : string)
  : HTMXAttributes := mkHTMXAttributes htmxEnabled htmxVersion.

Section Rules.
(** The identifiers of the three rules are constants of the package that
    are declared in a file of their own. *)
Variable RuleValidFor : string.
Variable RuleHTMXAttributes : string.
Variable RuleUnrecognizedCharRef : string.
(** [IsTemplateExpr], a helper of the package: whether an attribute value
    came from a template directive. *)
Variable IsTemplateExpr : string -> bool.
(** The entity tables of package [html]. *)
Variable entity : string -> Z.
Variable entity2 : string -> Z * Z.

(** *** valid-for *)

(** The first callback of [ValidFor.Check]: it fills [idMap]. *)
Definition ValidFor_collect (n : parser.Node) (idMap : gmap string parser.Node)
  : bool * gmap string parser.Node :=
  if html.NodeType_eqb (parser.Type_ n) html.ElementNode && parser.HasAttr n "id" then
    let id := parser.GetAttr n "id" in
    if negb (String.eqb id "") then (true, <[id := n]> idMap) else (true, idMap)
  else (true, idMap).

(** The second callback: it appends to [results]. *)
Definition ValidFor_visit (doc : parser.Document) (idMap : gmap string parser.Node)
    (n : parser.Node) (results : list Result) : bool * list Result :=
  if negb (html.NodeType_eqb (parser.Type_ n) html.ElementNode)
     || negb (parser.IsElement n "label") then (true, results)
  else
    let forAttr := parser.GetAttr n "for" in
    if String.eqb forAttr "" then (true, results)
    else if IsTemplateExpr forAttr then (true, results)
    else
      match idMap !! forAttr with
      | None => (true, results)
      | Some target =>
          let tag := strings.ToLower (parser.Data target) in
          if negb (has labelableElements tag) then
            (true, results ++
               [mkResult RuleValidFor
                  ("label for attribute references non-labelable element <" +:+ tag +:+ ">")
                  (parser.Filename doc) (parser.Line n) (parser.Col n) Error])
          else if String.eqb tag "input" then
            let inputType := strings.ToLower (parser.GetAttr target "type") in
            if String.eqb inputType "hidden" then
              (true, results ++
                 [mkResult RuleValidFor "label for attribute references hidden input"
                    (parser.Filename doc) (parser.Line n) (parser.Col n) Error])
            else (true, results)
          else (true, results)
      end.

Definition ValidFor_Check (doc : parser.Document) : list Result :=
  let idMap := parser.Walk doc ValidFor_collect ∅ in
  parser.Walk doc (ValidFor_visit doc idMap) [].

(** *** htmx attributes *)

(** One round of the loop over the modifiers of [hx-swap]. *)
Definition validateSwap_modifier (filename : string) (n : parser.Node)
    (results : list Result) (modifier : string) : list Result :=
  match strings.Index modifier ":" with
  | None =>
      results ++
        [mkResult RuleHTMXAttributes
           ("invalid hx-swap modifier '" +:+ modifier +:+ "' (missing colon)")
           filename (parser.Line n) (parser.Col n) Error]
  | Some colonIdx =>
      let modName := strings.ToLower (slice modifier 0 colonIdx) in
      let modValue := drop_bytes (colonIdx + 1) modifier in
      if negb (has validSwapModifiers modName) then
        results ++
          [mkResult RuleHTMXAttributes
             ("unknown hx-swap modifier '" +:+ modName +:+ "'")
             filename (parser.Line n) (parser.Col n) Warning]
      else if String.eqb modName "swap" || String.eqb modName "settle" then
        if negb (MatchString timePattern modValue) then
          results ++
            [mkResult RuleHTMXAttributes
               ("hx-swap " +:+ modName
                +:+ " modifier requires a time value (e.g., '1s', '500ms')")
               filename (parser.Line n) (parser.Col n) Error]
        else results
      else if String.eqb modName "scroll" || String.eqb modName "show" then
        let validPositions : gset string := list_to_set ["top"; "bottom"] in
        if negb (has validPositions (strings.ToLower modValue))
           && negb (strings.HasPrefix modValue "#") then
          results ++
            [mkResult RuleHTMXAttributes
               ("hx-swap " +:+ modName
                +:+ " modifier value should be 'top', 'bottom', or a selector")
               filename (parser.Line n) (parser.Col n) Warning]
        else results
      else if String.eqb modName "focus-scroll" then
        if negb (String.eqb modValue "true") && negb (String.eqb modValue "false") then
          results ++
            [mkResult RuleHTMXAttributes
               "hx-swap focus-scroll modifier should be 'true' or 'false'"
               filename (parser.Line n) (parser.Col n) Error]
        else results
      else if String.eqb modName "transition" then
        if negb (String.eqb modValue "true") && negb (String.eqb modValue "false") then
          results ++
            [mkResult RuleHTMXAttributes
               "hx-swap transition modifier should be 'true' or 'false'"
               filename (parser.Line n) (parser.Col n) Error]
        else results
      else results
  end.

Definition validateSwap (r : HTMXAttributes) (filename : string) (n : parser.Node)
    (value : string) : list Result :=
  if String.eqb value "" then []
  else if strings.Contains value "{{" || strings.Contains value "TMPL" then []
  else
    let value := strings.TrimSpace value in
    let parts := strings.Fields value in
    match parts with
    | [] => []
    | part0 :: modifiers =>
        let baseValue := strings.ToLower part0 in
        if negb (String.eqb (htmxVersion r) "4")
           && (String.eqb baseValue "textcontent" || String.eqb baseValue "upsert") then
          [mkResult RuleHTMXAttributes
             ("hx-swap value '" +:+ baseValue +:+ "' is only available in htmx 4")
             filename (parser.Line n) (parser.Col n) Warning]
        else if negb (has validSwapValues baseValue) then
          [mkResult RuleHTMXAttributes
             ("invalid hx-swap value '" +:+ part0 +:+ "'")
             filename (parser.Line n) (parser.Col n) Error]
        else fold_left (validateSwap_modifier filename n) modifiers []
    end.

(** One round of the loop over the modifiers of [intersect]. *)
Definition validateSingleTrigger_intersect (filename : string) (n : parser.Node)
    (results : list Result) (mod_ : string) : list Result :=
  if strings.HasPrefix mod_ "root:" || strings.HasPrefix mod_ "threshold:" then results
  else if String.eqb mod_ "once" then results
  else
    results ++
      [mkResult RuleHTMXAttributes ("unknown intersect modifier '" +:+ mod_ +:+ "'")
         filename (parser.Line n) (parser.Col n) Warning].

(** One round of the loop over the remaining modifiers of a trigger. *)
Definition validateSingleTrigger_modifier (filename : string) (n : parser.Node)
    (results : list Result) (modifier : string) : list Result :=
  if strings.HasPrefix modifier "[" && strings.HasSuffix modifier "]" then results
  else
    match strings.Index modifier ":" with
    | None =>
        let modName := strings.ToLower modifier in
        if negb (has validTriggerModifiers modName) then
          results ++
            [mkResult RuleHTMXAttributes
               ("unknown hx-trigger modifier '" +:+ modifier +:+ "'")
               filename (parser.Line n) (parser.Col n) Warning]
        else results
    | Some colonIdx =>
        let modName := strings.ToLower (slice modifier 0 colonIdx) in
        let modValue := drop_bytes (colonIdx + 1) modifier in
        if negb (has validTriggerModifiers modName) then
          results ++
            [mkResult RuleHTMXAttributes
               ("unknown hx-trigger modifier '" +:+ modName +:+ "'")
               filename (parser.Line n) (parser.Col n) Warning]
        else if String.eqb modName "delay" || String.eqb modName "throttle" then
          if negb (MatchString timePattern modValue) then
            results ++
              [mkResult RuleHTMXAttributes
                 ("hx-trigger " +:+ modName
                  +:+ " requires a time value (e.g., '1s', '500ms')")
                 filename (parser.Line n) (parser.Col n) Error]
          else results
        else if String.eqb modName "queue" then
          if negb (has queueModes (strings.ToLower modValue)) then
            results ++
              [mkResult RuleHTMXAttributes
                 "hx-trigger queue mode should be 'first', 'last', 'all', or 'none'"
                 filename (parser.Line n) (parser.Col n) Error]
          else results
        else results
    end.

Definition validateSingleTrigger (r : HTMXAttributes) (filename : string)
    (n : parser.Node) (trigger : string) : list Result :=
  let parts := strings.Fields trigger in
  match parts with
  | [] => []
  | part0 :: modifiers =>
      let eventName := strings.ToLower part0 in
      if String.eqb eventName "every" then
        match modifiers with
        | [] =>
            [mkResult RuleHTMXAttributes
               "hx-trigger 'every' requires a time value (e.g., 'every 1s')"
               filename (parser.Line n) (parser.Col n) Error]
        | part1 :: _ =>
            if negb (MatchString timePattern part1) then
              [mkResult RuleHTMXAttributes
                 "hx-trigger 'every' requires a valid time value (e.g., '1s', '500ms')"
                 filename (parser.Line n) (parser.Col n) Error]
            else []
        end
      else if String.eqb eventName "intersect" then
        fold_left (validateSingleTrigger_intersect filename n) modifiers []
      else fold_left (validateSingleTrigger_modifier filename n) modifiers []
  end.

Definition validateTrigger (r : HTMXAttributes) (filename : string) (n : parser.Node)
    (value : string) : list Result :=
  if String.eqb value "" then []
  else if strings.Contains value "{{" || strings.Contains value "TMPL" then []
  else
    let value := strings.TrimSpace value in
    let triggers := strings.Split value "," in
    fold_left
      (fun results trigger =>
         let trigger := strings.TrimSpace trigger in
         if String.eqb trigger "" then results
         else results ++ validateSingleTrigger r filename n trigger)
      triggers [].

Definition validateTarget (r : HTMXAttributes) (filename : string) (n : parser.Node)
    (value : string) : list Result :=
  if String.eqb value "" then []
  else if strings.Contains value "{{" || strings.Contains value "TMPL" then []
  else
    let value := strings.TrimSpace value in
    let specialValues : gset string := list_to_set ["this"; "next"; "previous"; "body"] in
    if negb (strings.Contains value " ") then
      let lower := strings.ToLower value in
      if has specialValues lower then []
      else if strings.HasPrefix value "#" || strings.HasPrefix value "."
              || isValidElement lower then []
      else []
    else
      let parts := strings.SplitN2 value " " in
      let keyword := strings.ToLower (nth 0 parts "") in
      let validKeywords : gset string :=
        list_to_set ["closest"; "find"; "next"; "previous"] in
      if negb (has validKeywords keyword) && negb (has specialValues keyword) then
        [mkResult RuleHTMXAttributes
           ("invalid hx-target keyword '" +:+ nth 0 parts ""
            +:+ "'; expected 'this', 'closest', 'find', 'next', 'previous', or a CSS selector")
           filename (parser.Line n) (parser.Col n) Warning]
      else [].

Definition validateHTMXv4Event (r : HTMXAttributes) (filename : string)
    (n : parser.Node) (eventName : string) : list Result :=
  let remainder := strings.TrimPrefix eventName "htmx:" in
  let parts := strings.SplitN2 remainder ":" in
  if (length parts =? 0)%nat || String.eqb (nth 0 parts "") "" then
    [mkResult RuleHTMXAttributes ("invalid htmx event format '" +:+ eventName +:+ "'")
       filename (parser.Line n) (parser.Col n) Error]
  else
    let phase := strings.ToLower (nth 0 parts "") in
    if negb (has knownHTMXv4Phases phase) then
      let standaloneEvents : gset string :=
        list_to_set ["load"; "abort"; "trigger"; "confirm"; "prompt"] in
      if has standaloneEvents phase then []
      else
        [mkResult RuleHTMXAttributes
           ("unknown htmx 4 event phase '" +:+ nth 0 parts "" +:+ "' in '"
            +:+ eventName +:+ "'")
           filename (parser.Line n) (parser.Col n) Warning]
    else if (1 <? length parts)%nat && negb (String.eqb (nth 1 parts "") "") then
      let actionParts := strings.SplitN2 (nth 1 parts "") ":" in
      let action := strings.ToLower (nth 0 actionParts "") in
      if negb (has knownHTMXv4Actions action) then
        [mkResult RuleHTMXAttributes
           ("unknown htmx 4 event action '" +:+ nth 0 actionParts "" +:+ "' in '"
            +:+ eventName +:+ "'")
           filename (parser.Line n) (parser.Col n) Warning]
      else []
    else [].

Definition validateHTMXEvent (r : HTMXAttributes) (filename : string)
    (n : parser.Node) (eventName : string) : list Result :=
  if String.eqb (htmxVersion r) "4" then validateHTMXv4Event r filename n eventName
  else if existsb (fun validEvent => strings.EqualFold eventName validEvent)
            knownHTMXv2Events then []
  else
    [mkResult RuleHTMXAttributes ("unknown htmx event '" +:+ eventName +:+ "'")
       filename (parser.Line n) (parser.Col n) Warning].

Definition validateHxOn (r : HTMXAttributes) (filename : string) (n : parser.Node)
    (attrKey : string) : list Result :=
  let eventName :=
    if strings.HasPrefix attrKey "hx-on:" then strings.TrimPrefix attrKey "hx-on:"
    else if strings.HasPrefix attrKey "hx-on-" then strings.TrimPrefix attrKey "hx-on-"
    else "" in
  if String.eqb eventName "" then
    [mkResult RuleHTMXAttributes "hx-on:* requires an event name"
       filename (parser.Line n) (parser.Col n) Error]
  else
    let eventName :=
      if strings.HasPrefix eventName ":" then "htmx" +:+ eventName else eventName in
    let lowerEvent := strings.ToLower eventName in
    if has knownDOMEvents lowerEvent then []
    else if strings.HasPrefix eventName "htmx:" || strings.HasPrefix lowerEvent "htmx:"
    then validateHTMXEvent r filename n eventName
    else
      [mkResult RuleHTMXAttributes
         ("unknown event '" +:+ eventName
          +:+ "' in hx-on:*; if this is a custom event, ignore this warning")
         filename (parser.Line n) (parser.Col n) Warning].

(** The callback of [HTMXAttributes.Check]. *)
Definition HTMXAttributes_visit (r : HTMXAttributes) (doc : parser.Document)
    (n : parser.Node) (results : list Result) : bool * list Result :=
  if negb (html.NodeType_eqb (parser.Type_ n) html.ElementNode) then (true, results)
  else
    (true,
     fold_left
       (fun results attr =>
          let attrName := strings.ToLower (html.Key attr) in
          if negb (strings.HasPrefix attrName "hx-") then results
          else
            let validationResults :=
              if String.eqb attrName "hx-swap"
              then validateSwap r (parser.Filename doc) n (html.Val attr)
              else if String.eqb attrName "hx-trigger"
              then validateTrigger r (parser.Filename doc) n (html.Val attr)
              else if String.eqb attrName "hx-target"
              then validateTarget r (parser.Filename doc) n (html.Val attr)
              else if strings.HasPrefix attrName "hx-on:"
                      || strings.HasPrefix attrName "hx-on-"
              then validateHxOn r (parser.Filename doc) n (html.Key attr)
              else [] in
            results ++ validationResults)
       (parser.Attr n) results).

Definition HTMXAttributes_Check (r : HTMXAttributes) (doc : parser.Document)
  : list Result :=
  if negb (htmxEnabled r) then []
  else parser.Walk doc (HTMXAttributes_visit r doc) [].

(** *** unrecognized character references *)

(** The inner loop of [CheckRaw], over the matches in one line. *)
Definition CheckRaw_match (filename : string) (lineNum : nat) (lineStr : string)
    (results : list Result) (match_ : Match) : list Result :=
  let fullRef := slice lineStr (mstart match_) (mend match_) in
  let name := submatch lineStr match_ 1 in
  if isInsideTemplateExpr lineStr (mstart match_) then results
  else
    let unescaped := html.UnescapeString entity entity2 fullRef in
    if String.eqb unescaped fullRef then
      results ++
        [mkResult RuleUnrecognizedCharRef
           ("unrecognized character reference &" +:+ name +:+ ";")
           filename (Z.of_nat lineNum + 1) (Z.of_nat (mstart match_) + 1) Warning]
    else results.

(** The outer loop, over the lines; [lineNum] is the index of the first
    line of [lines]. *)
Fixpoint CheckRaw_lines (filename : string) (lineNum : nat) (lines : list string)
    (results : list Result) : list Result :=
  match lines with
  | [] => results
  | line :: rest =>
      let matches := FindAllStringSubmatchIndex namedCharRefPattern line in
      CheckRaw_lines filename (S lineNum) rest
        (fold_left (CheckRaw_match filename lineNum line) matches results)
  end.

Definition UnrecognizedCharRef_Check (_ : parser.Document) : list Result := [].

Definition UnrecognizedCharRef_CheckRaw (filename content : string) : list Result :=
  CheckRaw_lines filename 0 (strings.Split content LF) [].
End Rules.

(** *** htmx attributes, the later state of the rule

    The copy of [rules/htmx_attributes.go] that comes with the other files
    of the package.  Its tables and validators are those above; [Check]
    has one case more, for [hx-vals] and [hx-headers], and looks at every
    element for a request attribute on a submit button inside a form. *)
Module later.
Section Rules.
Variable RuleHTMXAttributes : string.

(** [json.Unmarshal] into a [json.RawMessage]: [None] when the bytes are
    valid JSON, the error otherwise.  [strconv.FormatInt] in base 10. *)
Variable json_Unmarshal : string -> option json.error.
Variable strconv_FormatInt : Z -> string.

Definition simplifyJSONError (err : json.error) : string :=
  match err with
  | json.SyntaxError _ offset => "syntax error at position " +:+ strconv_FormatInt offset
  | json.OtherError _ => strings.TrimPrefix (json.Error_ err) "invalid character "
  end.

Definition validateJSON (r : HTMXAttributes) (filename : string) (n : parser.Node)
    (attrName value : string) : list Result :=
  if String.eqb value "" then []
  else if strings.Contains value "{{" || strings.Contains value "TMPL" then []
  else if String.eqb attrName "hx-vals" && strings.HasPrefix value "js:" then []
  else if String.eqb attrName "hx-vals" && strings.HasPrefix value "javascript:" then []
  else
    match json_Unmarshal value with
    | Some err =>
        [mkResult RuleHTMXAttributes
           (attrName +:+ " contains invalid JSON: " +:+ simplifyJSONError err)
           filename (parser.Line n) (parser.Col n) Error]
    | None => []
    end.

(** The loop of [isSubmitButton] for a button: the first [type] attribute
    decides. *)
Fixpoint isSubmitButton_buttonType (attrs : list html.Attribute) : string :=
  match attrs with
  | [] => ""
  | attr :: rest =>
      if String.eqb (strings.ToLower (html.Key attr)) "type"
      then strings.ToLower (html.Val attr)
      else isSubmitButton_buttonType rest
  end.

(** The loop for an input: any [type] attribute that says [submit]. *)
Fixpoint isSubmitButton_input (attrs : list html.Attribute) : bool :=
  match attrs with
  | [] => false
  | attr :: rest =>
      if String.eqb (strings.ToLower (html.Key attr)) "type"
         && String.eqb (strings.ToLower (html.Val attr)) "submit"
      then true
      else isSubmitButton_input rest
  end.

Definition isSubmitButton (r : HTMXAttributes) (n : parser.Node) (nodeName : string)
  : bool :=
  if String.eqb nodeName "button" then
    let buttonType := isSubmitButton_buttonType (parser.Attr n) in
    String.eqb buttonType "" || String.eqb buttonType "submit"
  else if String.eqb nodeName "input" then isSubmitButton_input (parser.Attr n)
  else false.

(** [isInsideForm] follows [Parent] from the node: [parents] is that
    chain. *)
Fixpoint isInsideForm (r : HTMXAttributes) (parents : list parser.Node) : bool :=
  match parents with
  | [] => false
  | parent :: up =>
      if html.NodeType_eqb (parser.Type_ parent) html.ElementNode
         && String.eqb (strings.ToLower (parser.Data parent)) "form"
      then true
      else isInsideForm r up
  end.

(** [nil] is [None]. *)
Definition checkSubmitButtonInForm (r : HTMXAttributes) (filename : string)
    (parents : list parser.Node) (n : parser.Node) : option Result :=
  let nodeName := strings.ToLower (parser.Data n) in
  if negb (isSubmitButton r n nodeName) then None
  else
    let requestAttr :=
      fold_left
        (fun requestAttr attr =>
           let attrName := strings.ToLower (html.Key attr) in
           if String.eqb attrName "hx-get" || String.eqb attrName "hx-post"
              || String.eqb attrName "hx-put" || String.eqb attrName "hx-patch"
              || String.eqb attrName "hx-delete"
           then attrName else requestAttr)
        (parser.Attr n) "" in
    if String.eqb requestAttr "" then None
    else if negb (isInsideForm r parents) then None
    else
      Some (mkResult RuleHTMXAttributes
              (requestAttr +:+ " on submit button inside form may bypass form validation; consider moving to the form element")
              filename (parser.Line n) (parser.Col n) Warning).

(** The callback of [HTMXAttributes.Check]. *)
Definition HTMXAttributes_visit (r : HTMXAttributes) (doc : parser.Document)
    (parents : list parser.Node) (n : parser.Node) (results : list Result)
  : bool * list Result :=
  if negb (html.NodeType_eqb (parser.Type_ n) html.ElementNode) then (true, results)
  else
    let results :=
      fold_left
        (fun results attr =>
           let attrName := strings.ToLower (html.Key attr) in
           if negb (strings.HasPrefix attrName "hx-") then results
           else
             let validationResults :=
               if String.eqb attrName "hx-swap"
               then validateSwap RuleHTMXAttributes r (parser.Filename doc) n (html.Val attr)
               else if String.eqb attrName "hx-trigger"
               then validateTrigger RuleHTMXAttributes r (parser.Filename doc) n
                      (html.Val attr)
               else if String.eqb attrName "hx-target"
               then validateTarget RuleHTMXAttributes r (parser.Filename doc) n
                      (html.Val attr)
               else if strings.HasPrefix attrName "hx-on:"
                       || strings.HasPrefix attrName "hx-on-"
               then validateHxOn RuleHTMXAttributes r (parser.Filename doc) n
                      (html.Key attr)
               else if String.eqb attrName "hx-vals" || String.eqb attrName "hx-headers"
               then validateJSON r (parser.Filename doc) n attrName (html.Val attr)
               else [] in
             results ++ validationResults)
        (parser.Attr n) results in
    match checkSubmitButtonInForm r (parser.Filename doc) parents n with
    | Some submitButtonResult => (true, results ++ [submitButtonResult])
    | None => (true, results)
    end.

Definition HTMXAttributes_Check (r : HTMXAttributes) (doc : parser.Document)
  : list Result :=
  if negb (htmxEnabled r) then []
  else parser.WalkWithParents doc (HTMXAttributes_visit r doc) [].
End Rules.
End later.
End rules.

(** * Vocabulary of the statements *)

(** Number of line feeds in [s]: the number of lines that end in it. *)
Fixpoint countLF (s : string) : nat :=
  match s with
  | "" => O
  | String c s' => ((if is_byte 10 c then 1 else 0) + countLF s')%nat
  end.

(** [s] holds directive syntax: an opening double brace and, after it, a
    closing one. *)
Fixpoint hasDirective (s : string) : bool :=
  match s with
  | "" => false
  | String _ s' =>
      (strings.HasPrefix s "{{" && strings.Contains (drop_bytes 2 s) "}}")
      || hasDirective s'
  end.

(** Every byte of [w] is in the class [p]. *)
Fixpoint all_bytes (p : ascii -> bool) (w : string) : Prop :=
  match w with
  | "" => True
  | String c w' => p c = true /\ all_bytes p w'
  end.

(** A time value: digits, one at least, and then [s] or [ms]. *)
Definition time_value (tok : string) : Prop :=
  exists d, d <> "" /\ all_bytes isDigit d /\ (tok = d +:+ "ms" \/ tok = d +:+ "s").

(** The texts a pattern can match, whatever stands around them. *)
Fixpoint Lang (r : regexp.regex) (w : string) : Prop :=
  match r with
  | regexp.Eps => w = ""
  | regexp.Chr p => exists c, w = String c "" /\ p c = true
  | regexp.Seq r1 r2 => exists w1 w2, w = w1 +:+ w2 /\ Lang r1 w1 /\ Lang r2 w2
  | regexp.Alt r1 r2 => Lang r1 w \/ Lang r2 w
  | regexp.Opt r1 => w = "" \/ Lang r1 w
  | regexp.Star p => all_bytes p w
  | regexp.StarLazy p => all_bytes p w
  | regexp.Group _ r1 => Lang r1 w
  | regexp.BeginText => w = ""
  | regexp.EndText => w = ""
  end.

(** The nodes of a tree in the order [walk] visits them. *)
Fixpoint allNodes (n : parser.Node) : list parser.Node :=
  match n with
  | parser.mkNode _ _ _ children => n :: flat_map allNodes children
  end.

Definition docNodes (d : parser.Document) : list parser.Node :=
  match parser.Root d with
  | Some root => allNodes root
  | None => []
  end.

(** The line and column that [buildNodeTree] gives a node under [parent]. *)
Definition parent_line (parent : option parser.Node) : Z :=
  match parent with Some p => parser.Line p | None => 1 end.

Definition parent_col (parent : option parser.Node) : Z :=
  match parent with Some p => parser.Col p | None => 1 end.

(** Induction over a tree of nodes, with the property known of every
    child. *)
Fixpoint html_Node_ind' (P : html.Node -> Prop)
    (step : forall t d a kids, Forall P kids -> P (html.mkNode t d a kids))
    (n : html.Node) {struct n} : P n :=
  match n with
  | html.mkNode t d a kids =>
      step t d a kids
        ((fix all (l : list html.Node) : Forall P l :=
            match l with
            | [] => @List.Forall_nil _ P
            | k :: l' => @List.Forall_cons _ P k l' (html_Node_ind' P step k) (all l')
            end) kids)
  end.

Fixpoint parser_Node_ind' (P : parser.Node -> Prop)
    (step : forall h l c children, Forall P children -> P (parser.mkNode h l c children))
    (n : parser.Node) {struct n} : P n :=
  match n with
  | parser.mkNode h l c children =>
      step h l c children
        ((fix all (cs : list parser.Node) : Forall P cs :=
            match cs with
            | [] => @List.Forall_nil _ P
            | k :: cs' => @List.Forall_cons _ P k cs' (parser_Node_ind' P step k) (all cs')
            end) children)
  end.


(** What the first traversal of [ValidFor.Check] collects. *)
Definition ValidFor_idMap (doc : parser.Document) : gmap string parser.Node :=
  parser.Walk doc rules.ValidFor_collect ∅.

(** What the second traversal of [ValidFor.Check] appends when it visits
    [n]. *)
Definition labelDiagnostics (RuleValidFor : string) (IsTemplateExpr : string -> bool)
    (doc : parser.Document) (n : parser.Node) : list rules.Result :=
  (rules.ValidFor_visit RuleValidFor IsTemplateExpr doc (ValidFor_idMap doc) n []).2.

(** [n] is an element whose [id] is [X]. *)
Definition hasId (X : string) (n : parser.Node) : Prop :=
  parser.Type_ n = html.ElementNode /\ parser.GetAttr n "id" = X.

(** Modelled from the spec: [IsTemplateExpr] is a helper of package [rules]
    kept in a file of its own.  The specification has a value count as
    templated when it is the placeholder that the preprocessor writes or
    still holds the double brace. *)
Definition IsTemplateExpr_spec (s : string) : bool :=
  strings.Contains s "{{" || strings.Contains s "TMPL".

(** ** Sample inputs *)

Definition elem (tag : string) (attrs : list html.Attribute) (kids : list html.Node)
  : html.Node := html.mkNode html.ElementNode tag attrs kids.

Definition text (data : string) : html.Node := html.mkNode html.TextNode data [] [].

Definition attr (key val : string) : html.Attribute := html.mkAttribute "" key val.

(** The document that [ParseFragment] builds around the parsed [nodes]:
    the synthetic root, first without children, and each node built under
    it. *)
Definition fragment_root : parser.Node :=
  parser.mkNode (html.mkNode html.DocumentNode "" [] []) 1 1 [].

Definition fragment_child (n : html.Node) : parser.Node :=
  parser.buildNodeTree n (Some fragment_root).

Definition fragment (filename : string) (nodes : list html.Node) : parser.Document :=
  parser.mkDocument
    (Some (parser.mkNode (parser.Node_ fragment_root) (parser.Line fragment_root)
             (parser.Col fragment_root) (List.map fragment_child nodes)))
    filename false (parser.mkSourceMap "" "").

(** A page with an if, else, end block over several lines and a paragraph
    after it. *)
Definition two_branch_page : string :=
  "{{if .User}}" +:+ LF +:+ "<p>hi</p>" +:+ LF +:+ "{{else}}" +:+ LF
  +:+ "<p>login</p>" +:+ LF +:+ "{{end}}" +:+ LF +:+ "<p>after</p>" +:+ LF.

(** An if, else, end block whose first branch holds another one. *)
Definition nested_blocks : string :=
  "{{if .A}}<a>{{if .B}}<b>{{else}}<c>{{end}}</a>{{else}}<d>{{end}}".

(** The first branch of [nested_blocks]. *)
Definition nested_blocks_first_branch : string :=
  "<a>{{if .B}}<b>{{else}}<c>{{end}}</a>".

(** A label and a division whose [for] and [id] both came from the same
    directive, as the preprocessor leaves them. *)
Definition templated_label : parser.Document :=
  fragment "form.html"
    [elem "label" [attr "for" "TMPL"] [text "Name"]; elem "div" [attr "id" "TMPL"] []].

(** The documents of the tests of the valid-for rule: a label for a
    division, for a hidden input, for a text input and for an id that no
    element has. *)
Definition label_for_div : parser.Document :=
  fragment "test.html"
    [elem "label" [attr "for" "foo"] [text "Name"]; elem "div" [attr "id" "foo"] [text "text"]].

Definition label_for_hidden_input : parser.Document :=
  fragment "test.html"
    [elem "label" [attr "for" "tok"] [text "Token"];
     elem "input" [attr "type" "hidden"; attr "id" "tok"] []].

Definition label_for_input : parser.Document :=
  fragment "test.html"
    [elem "label" [attr "for" "name"] [text "Name"]; elem "input" [attr "id" "name"] []].

Definition label_for_missing : parser.Document :=
  fragment "test.html" [elem "label" [attr "for" "missing"] [text "Name"]].

(** An excerpt of the entity table of package [html]. *)
Definition entity_excerpt (name : string) : Z :=
  if String.eqb name "amp;" then 38
  else if String.eqb name "amp" then 38
  else if String.eqb name "copy;" then 169
  else if String.eqb name "copy" then 169
  else if String.eqb name "lt;" then 60
  else if String.eqb name "lt" then 60
  else 0.

Definition entity2_excerpt (name : string) : Z * Z :=
  if String.eqb name "NotEqualTilde;" then (8770, 824) else (0, 0).

(** The element of the tests of the htmx rule: a division with a request
    attribute and one more attribute. *)
Definition hx_div (key val : string) : html.Node :=
  elem "div" [attr "hx-get" "/api"; attr key val] [text "content"].


(** ** Vocabulary of the further properties *)

(** Every group of [g] lies between the offsets [lo] and [hi]. *)
Definition groups_within (lo hi : nat) (g : regexp.groups) : Prop :=
  forall i b e, regexp.group i g = Some (b, e) -> (lo <= b /\ b <= e /\ e <= hi)%nat.

(** A callback applied to the nodes of a list one after the other, up to
    the first one at which it returns [false]. *)
Fixpoint visit_until {St : Type} (fn : @parser.WalkFunc St) (l : list parser.Node)
    (st : St) : bool * St :=
  match l with
  | [] => (true, st)
  | n :: l' =>
      let '(go_on, st1) := fn n st in
      if go_on then visit_until fn l' st1 else (false, st1)
  end.

(** The nodes of a parsed tree in document order. *)
Fixpoint html_allNodes (n : html.Node) : list html.Node :=
  match n with
  | html.mkNode _ _ _ kids => n :: flat_map html_allNodes kids
  end.

(** The data of the text nodes of a list, one after the other. *)
Fixpoint textOf (l : list parser.Node) : string :=
  match l with
  | [] => ""
  | n :: l' =>
      (if html.NodeType_eqb (parser.Type_ n) html.TextNode then parser.Data n else "")
      +:+ textOf l'
  end.

(** A result of the rule [rule] for the file [filename] that stands at the
    line and column of [n]. *)
Definition reportedAt (rule filename : string) (n : parser.Node) (res : rules.Result)
  : Prop :=
  rules.Rule res = rule /\ rules.Filename res = filename
  /\ rules.Line res = parser.Line n /\ rules.Col res = parser.Col n.

(** The attributes that [HTMXAttributes.Check] has a validator for. *)
Definition checkedAttr (a : html.Attribute) : bool :=
  let attrName := strings.ToLower (html.Key a) in
  strings.HasPrefix attrName "hx-"
  && (String.eqb attrName "hx-swap" || String.eqb attrName "hx-trigger"
      || String.eqb attrName "hx-target"
      || strings.HasPrefix attrName "hx-on:" || strings.HasPrefix attrName "hx-on-").

(** [n] is an element with an attribute that [HTMXAttributes.Check] has a
    validator for. *)
Definition hasCheckedAttr (n : parser.Node) : Prop :=
  parser.Type_ n = html.ElementNode
  /\ exists a, In a (parser.Attr n) /\ checkedAttr a = true.

(** What a result of the raw check says and where: the reference [&name;]
    stands in line [lineNum] of [content], counted from 0, at the byte
    offset [start], outside template expressions, and unescaping leaves it
    as it is. *)
Definition unrecognizedAt (entity : string -> Z) (entity2 : string -> Z * Z)
    (content : string) (lineNum start : nat) (name : string) : Prop :=
  exists line,
    nth_error (strings.Split content LF) lineNum = Some line
    /\ strings.HasPrefix (drop_bytes start line) ("&" +:+ name +:+ ";") = true
    /\ rules.isInsideTemplateExpr line start = false
    /\ html.UnescapeString entity entity2 ("&" +:+ name +:+ ";") = "&" +:+ name +:+ ";".

(** What every result of the raw check is: a Warning of the rule for the
    file, at the line and column of an unrecognized reference, with the
    name of the reference in its message. *)
Definition reportsUnrecognized (rule : string) (entity : string -> Z)
    (entity2 : string -> Z * Z) (filename content : string) (res : rules.Result) : Prop :=
  rules.Rule res = rule
  /\ rules.Severity_ res = rules.Warning
  /\ rules.Filename res = filename
  /\ exists (lineNum start : nat) (name : string),
       rules.Line res = Z.of_nat lineNum + 1
       /\ rules.Col res = Z.of_nat start + 1
       /\ rules.Message res = "unrecognized character reference &" +:+ name +:+ ";"
       /\ name <> ""
       /\ all_bytes (fun c => isLowerASCII c || isUpperASCII c || isDigit c) name
       /\ unrecognizedAt entity entity2 content lineNum start name.

(** A match moved by [d] bytes. *)
Definition shiftMatch (d : nat) (m : regexp.Match) : regexp.Match :=
  regexp.mkMatch (d + regexp.mstart m) (d + regexp.mend m) (regexp.mgroups m).

(** Number of bytes [c] in [s]. *)
Fixpoint countByte (c : ascii) (s : string) : nat :=
  match s with
  | "" => O
  | String x s' => ((if Ascii.eqb x c then 1 else 0) + countByte c s')%nat
  end.

(** The nodes of a tree in the order of the traversal, each with the chain
    of its parents, the nearest first. *)
Fixpoint allNodesWithParents (parents : list parser.Node) (n : parser.Node)
  : list (list parser.Node * parser.Node) :=
  match n with
  | parser.mkNode _ _ _ children =>
      (parents, n) :: flat_map (allNodesWithParents (n :: parents)) children
  end.

(** The attributes that the later [HTMXAttributes.Check] looks at: those
    above, [hx-vals], [hx-headers] and the request attributes. *)
Definition checkedAttrLater (a : html.Attribute) : bool :=
  let attrName := strings.ToLower (html.Key a) in
  checkedAttr a
  || String.eqb attrName "hx-vals" || String.eqb attrName "hx-headers"
  || String.eqb attrName "hx-get" || String.eqb attrName "hx-post"
  || String.eqb attrName "hx-put" || String.eqb attrName "hx-patch"
  || String.eqb attrName "hx-delete".

Definition hasCheckedAttrLater (n : parser.Node) : Prop :=
  parser.Type_ n = html.ElementNode
  /\ exists a, In a (parser.Attr n) /\ checkedAttrLater a = true.

Definition docNodesWithParents (d : parser.Document)
  : list (list parser.Node * parser.Node) :=
  match parser.Root d with
  | Some root => allNodesWithParents [] root
  | None => []
  end.



(** * Theorems *)

(** ** Byte strings *)

Lemma str_app_assoc (a b c : string) : (a +:+ b) +:+ c = a +:+ b +:+ c.
Proof. induction a as [|x a IH]; simpl; [reflexivity | now rewrite IH]. Qed.

Lemma str_app_nil_r (a : string) : a +:+ "" = a.
Proof. induction a as [|x a IH]; simpl; [reflexivity | now rewrite IH]. Qed.

Lemma str_length_app (a b : string) :
  String.length (a +:+ b) = (String.length a + String.length b)%nat.
Proof. induction a as [|x a IH]; simpl; [reflexivity | now rewrite IH]. Qed.

Lemma drop_bytes_0 (s : string) : drop_bytes 0 s = s.
Proof. destruct s; reflexivity. Qed.

Lemma drop_bytes_app (a b : string) : drop_bytes (String.length a) (a +:+ b) = b.
Proof. induction a as [|x a IH]; simpl; [apply drop_bytes_0 | exact IH]. Qed.

Lemma HasPrefix_nil (s : string) : strings.HasPrefix s "" = true.
Proof. reflexivity. Qed.

Lemma HasPrefix_app (p t : string) : strings.HasPrefix (p +:+ t) p = true.
Proof.
  induction p as [|c p IH]; simpl; [reflexivity |].
  now rewrite Ascii.eqb_refl.
Qed.

Lemma HasPrefix_inv (s p : string) :
  strings.HasPrefix s p = true -> exists t, s = p +:+ t.
Proof.
  revert s. induction p as [|c p IH]; intros s H.
  - now exists s.
  - destruct s as [|d s]; [discriminate|]. simpl in H.
    apply andb_true_iff in H as [H1 H2]. apply Ascii.eqb_eq in H1. subst d.
    destruct (IH _ H2) as [t ->]. now exists t.
Qed.

Lemma Index_from_unfold (i : nat) (s sub : string) :
  strings.Index_from i s sub =
  if strings.HasPrefix s sub then Some i
  else match s with
       | "" => None
       | String _ s' => strings.Index_from (S i) s' sub
       end.
Proof. destruct s; reflexivity. Qed.

Lemma Index_from_app (sub : string) :
  forall a t i, exists j, strings.Index_from i (a +:+ sub +:+ t) sub = Some j.
Proof.
  induction a as [|c a IH]; intros t i; rewrite Index_from_unfold.
  - simpl. rewrite HasPrefix_app. now exists i.
  - destruct (strings.HasPrefix _ sub); [now exists i|]. simpl. apply IH.
Qed.

Lemma Contains_app (sub a t : string) : strings.Contains (a +:+ sub +:+ t) sub = true.
Proof.
  unfold strings.Contains, strings.Index.
  now destruct (Index_from_app sub a t 0%nat) as [j ->].
Qed.

Lemma Contains_inv (s sub : string) :
  strings.Contains s sub = true -> exists a t, s = a +:+ sub +:+ t.
Proof.
  unfold strings.Contains, strings.Index. generalize 0%nat.
  induction s as [|c s IH]; intros i; rewrite Index_from_unfold;
    destruct (strings.HasPrefix _ sub) eqn:E.
  - intros _. apply HasPrefix_inv in E as [t ->]. now exists "", t.
  - discriminate.
  - intros _. apply HasPrefix_inv in E as [t ->]. now exists "", t.
  - intros H. destruct (IH _ H) as (a & t & ->). now exists (String c a), t.
Qed.

(** ** Directive syntax *)

Lemma hasDirective_unfold (c : ascii) (s : string) :
  hasDirective (String c s) =
  (strings.HasPrefix (String c s) "{{" && strings.Contains (drop_bytes 2 (String c s)) "}}")
  || hasDirective s.
Proof. reflexivity. Qed.

Lemma hasDirective_intro (a u c : string) :
  hasDirective (a +:+ "{{" +:+ u +:+ "}}" +:+ c) = true.
Proof.
  induction a as [|x a IH].
  - change ("" +:+ "{{" +:+ u +:+ "}}" +:+ c) with (String "{" (String "{" (u +:+ "}}" +:+ c))).
    rewrite hasDirective_unfold.
    change (drop_bytes 2 (String "{" (String "{" (u +:+ "}}" +:+ c)))) with (u +:+ "}}" +:+ c).
    rewrite Contains_app.
    change (strings.HasPrefix (String "{" (String "{" (u +:+ "}}" +:+ c))) "{{") with true.
    reflexivity.
  - change (String x a +:+ "{{" +:+ u +:+ "}}" +:+ c)
      with (String x (a +:+ "{{" +:+ u +:+ "}}" +:+ c)).
    rewrite hasDirective_unfold, IH. apply orb_true_r.
Qed.

Lemma hasDirective_inv (s : string) :
  hasDirective s = true -> exists a u c, s = a +:+ "{{" +:+ u +:+ "}}" +:+ c.
Proof.
  induction s as [|x s IH]; [discriminate|].
  rewrite hasDirective_unfold. intros H. apply orb_true_iff in H as [H|H].
  - apply andb_true_iff in H as [H1 H2].
    apply HasPrefix_inv in H1 as [t E]. rewrite E in *.
    change (drop_bytes 2 ("{{" +:+ t)) with t in H2.
    apply Contains_inv in H2 as (u & c & ->). now exists "", u, c.
  - destruct (IH H) as (a & u & c & ->). now exists (String x a), u, c.
Qed.

(** Without an opening double brace there is no directive. *)
Lemma no_open_no_directive (s : string) :
  strings.Contains s "{{" = false -> hasDirective s = false.
Proof.
  destruct (hasDirective s) eqn:E; [|reflexivity]. intros H.
  apply hasDirective_inv in E as (a & u & c & ->).
  now rewrite Contains_app in H.
Qed.

(** ** The matcher only accepts texts of the pattern *)

Section MatcherSound.
Context {R : Type}.
Implicit Types (k : @regexp.cont R) (g : regexp.groups).

Lemma star_sound p : forall s pos g k x,
  regexp.star p pos s g k = Some x ->
  exists w s', s = w +:+ s' /\ all_bytes p w
               /\ k (pos + String.length w)%nat s' g = Some x.
Proof.
  induction s as [|c s IH]; intros pos g k x H; simpl in H.
  - exists "", "". rewrite Nat.add_0_r. now simpl.
  - destruct (p c) eqn:Pc.
    + destruct (regexp.star p (S pos) s g k) eqn:E.
      * injection H as ->. destruct (IH _ _ _ _ E) as (w & s' & -> & Hw & Hk).
        exists (String c w), s'. simpl. rewrite Nat.add_succ_r. now repeat split.
      * exists "", (String c s). rewrite Nat.add_0_r. now simpl.
    + exists "", (String c s). rewrite Nat.add_0_r. now simpl.
Qed.

Lemma starLazy_sound p : forall s pos g k x,
  regexp.starLazy p pos s g k = Some x ->
  exists w s', s = w +:+ s' /\ all_bytes p w
               /\ k (pos + String.length w)%nat s' g = Some x.
Proof.
  induction s as [|c s IH]; intros pos g k x H; simpl in H.
  - destruct (k pos "" g) eqn:E; [|discriminate]. injection H as ->.
    exists "", "". rewrite Nat.add_0_r. now simpl.
  - destruct (k pos (String c s) g) eqn:E.
    + injection H as ->. exists "", (String c s). rewrite Nat.add_0_r. now simpl.
    + destruct (p c) eqn:Pc; [|discriminate].
      destruct (IH _ _ _ _ H) as (w & s' & -> & Hw & Hk).
      exists (String c w), s'. simpl. rewrite Nat.add_succ_r. now repeat split.
Qed.
End MatcherSound.

Lemma rmatch_sound {R : Type} (r : regexp.regex) :
  forall pos s g (k : @regexp.cont R) x,
    regexp.rmatch r pos s g k = Some x ->
    exists w s' g', s = w +:+ s' /\ Lang r w
                    /\ k (pos + String.length w)%nat s' g' = Some x.
Proof.
  induction r as [|p|r1 IH1 r2 IH2|r1 IH1 r2 IH2|r1 IH1|p|p|i r1 IH1| |];
    intros pos s g k x H; simpl in H.
  - exists "", s, g. rewrite Nat.add_0_r. now simpl.
  - destruct s as [|c s]; [discriminate|]. destruct (p c) eqn:Pc; [|discriminate].
    exists (String c ""), s, g. simpl. rewrite Nat.add_1_r. eauto.
  - apply IH1 in H as (w1 & s1 & g1 & -> & L1 & H).
    apply IH2 in H as (w2 & s2 & g2 & -> & L2 & H).
    exists (w1 +:+ w2), s2, g2. rewrite str_app_assoc, str_length_app, Nat.add_assoc.
    split; [reflexivity|]. split; [|exact H]. simpl. eauto.
  - destruct (regexp.rmatch r1 pos s g k) eqn:E.
    + injection H as ->. apply IH1 in E as (w & s' & g' & ? & ? & ?).
      exists w, s', g'. simpl. auto.
    + apply IH2 in H as (w & s' & g' & ? & ? & ?). exists w, s', g'. simpl. auto.
  - destruct (regexp.rmatch r1 pos s g k) eqn:E.
    + injection H as ->. apply IH1 in E as (w & s' & g' & ? & ? & ?).
      exists w, s', g'. simpl. auto.
    + exists "", s, g. rewrite Nat.add_0_r. simpl. auto.
  - apply star_sound in H as (w & s' & ? & ? & ?). now exists w, s', g.
  - apply starLazy_sound in H as (w & s' & ? & ? & ?). now exists w, s', g.
  - apply IH1 in H as (w & s' & g' & ? & ? & H).
    exists w, s', ((i, (pos, (pos + String.length w)%nat)) :: g'). now simpl.
  - destruct (pos =? 0)%nat; [|discriminate].
    exists "", s, g. rewrite Nat.add_0_r. now simpl.
  - destruct s; [|discriminate]. exists "", "", g. rewrite Nat.add_0_r. now simpl.
Qed.

Lemma exec_sound (re : regexp.regex) (pos : nat) (s : string) (m : regexp.Match) :
  regexp.exec re pos s = Some m ->
  exists w s', s = w +:+ s' /\ Lang re w
               /\ regexp.mstart m = pos /\ regexp.mend m = (pos + String.length w)%nat.
Proof.
  unfold regexp.exec. intros H.
  apply rmatch_sound in H as (w & s' & g' & -> & L & H).
  injection H as <-. now exists w, s'.
Qed.

Lemma find_sound (re : regexp.regex) : forall s pos m,
  regexp.find re pos s = Some m ->
  exists a w s', s = a +:+ w +:+ s' /\ Lang re w
                 /\ regexp.mstart m = (pos + String.length a)%nat
                 /\ regexp.mend m = (regexp.mstart m + String.length w)%nat.
Proof.
  assert (Here : forall s pos m, regexp.exec re pos s = Some m ->
    exists a w s', s = a +:+ w +:+ s' /\ Lang re w
                   /\ regexp.mstart m = (pos + String.length a)%nat
                   /\ regexp.mend m = (regexp.mstart m + String.length w)%nat).
  { intros s pos m H. apply exec_sound in H as (w & s' & -> & L & E1 & E2).
    exists "", w, s'. simpl. rewrite Nat.add_0_r, E1. auto. }
  induction s as [|c s IH]; intros pos m H; simpl in H.
  - destruct (regexp.exec re pos "") eqn:E; [|discriminate].
    injection H as ->. now apply Here.
  - destruct (regexp.exec re pos (String c s)) eqn:E.
    + injection H as ->. now apply Here.
    + apply IH in H as (a & w & s' & -> & L & E1 & E2).
      exists (String c a), w, s'. simpl. rewrite Nat.add_succ_r. auto.
Qed.

Lemma Lang_Lit (s w : string) : Lang (regexp.Lit s) w -> w = s.
Proof.
  revert w. induction s as [|c s IH]; intros w H; simpl in H; [exact H|].
  destruct H as (w1 & w2 & -> & (c' & -> & E) & H2).
  apply Ascii.eqb_eq in E. subst c'. now rewrite (IH _ H2).
Qed.

Lemma Lang_seq_last (r : regexp.regex) : forall rs w,
  Lang (regexp.seq (rs ++ [r])) w -> exists w1 w2, w = w1 +:+ w2 /\ Lang r w2.
Proof.
  induction rs as [|r0 rs IH]; intros w H; simpl in H.
  - destruct H as (w1 & w2 & -> & H1 & ->). exists "", w1. now rewrite str_app_nil_r.
  - destruct H as (w1 & w2 & -> & _ & H2).
    destruct (IH _ H2) as (u1 & u2 & -> & H).
    exists (w1 +:+ u1), u2. now rewrite str_app_assoc.
Qed.

(** A pattern that begins with the literal of the opening braces and ends
    with the literal of the closing braces only matches texts that do. *)
Lemma Lang_braces (rs : list regexp.regex) (w : string) :
  hd regexp.Eps rs = regexp.Lit "{{" ->
  List.last (tl rs) regexp.Eps = regexp.Lit "}}" ->
  tl rs <> [] ->
  Lang (regexp.seq rs) w -> exists u, w = "{{" +:+ u +:+ "}}".
Proof.
  destruct rs as [|r0 rs]; [discriminate|]. cbn [hd tl]. intros -> Hl Hn H.
  destruct (@exists_last _ rs Hn) as (mid & r & ->).
  rewrite List.last_last in Hl. subst r.
  change (Lang (regexp.Seq (regexp.Lit "{{") (regexp.seq (mid ++ [regexp.Lit "}}"]))) w) in H.
  destruct H as (w1 & w2 & -> & H1 & H2).
  apply Lang_Lit in H1 as ->.
  apply Lang_seq_last in H2 as (u1 & u2 & -> & H2).
  apply Lang_Lit in H2 as ->. now exists u1.
Qed.

Lemma find_braces (rs : list regexp.regex) (s : string) (pos : nat) (m : regexp.Match) :
  hd regexp.Eps rs = regexp.Lit "{{" ->
  List.last (tl rs) regexp.Eps = regexp.Lit "}}" ->
  tl rs <> [] ->
  regexp.find (regexp.seq rs) pos s = Some m -> hasDirective s = true.
Proof.
  intros H1 H2 H3 H.
  apply find_sound in H as (a & w & s' & -> & L & _).
  destruct (Lang_braces _ _ H1 H2 H3 L) as (u & ->).
  rewrite !str_app_assoc. apply hasDirective_intro.
Qed.

(** Such a pattern never matches the empty string: in [replaceAll_loop] the
    search always goes on at the end of the match. *)
Lemma find_braces_nonempty (rs : list regexp.regex) (s : string) (pos : nat)
    (m : regexp.Match) :
  hd regexp.Eps rs = regexp.Lit "{{" ->
  List.last (tl rs) regexp.Eps = regexp.Lit "}}" ->
  tl rs <> [] ->
  regexp.find (regexp.seq rs) pos s = Some m ->
  (pos <= regexp.mstart m /\ regexp.mstart m + 4 <= regexp.mend m)%nat.
Proof.
  intros H1 H2 H3 H.
  apply find_sound in H as (a & w & s' & -> & L & -> & ->).
  destruct (Lang_braces _ _ H1 H2 H3 L) as (u & ->).
  cbn [String.append String.length]. rewrite str_length_app. cbn [String.length].
  lia.
Qed.

(** A pattern that finds nothing leaves the input as it is. *)
Lemma replaceAll_loop_no_match fuel re repl (src : string) :
  regexp.find re 0 src = None ->
  regexp.replaceAll_loop (S fuel) re repl src 0 0 = src.
Proof.
  intros H. cbn [regexp.replaceAll_loop].
  rewrite drop_bytes_0, H. now destruct (String.length src <? 0)%nat.
Qed.

Lemma find_none_of_no_directive (rs : list regexp.regex) (s : string) :
  hd regexp.Eps rs = regexp.Lit "{{" ->
  List.last (tl rs) regexp.Eps = regexp.Lit "}}" ->
  tl rs <> [] ->
  hasDirective s = false -> regexp.find (regexp.seq rs) 0 s = None.
Proof.
  intros H1 H2 H3 Hs. destruct (regexp.find (regexp.seq rs) 0 s) eqn:E; [|reflexivity].
  apply (find_braces _ _ _ _ H1 H2 H3) in E. congruence.
Qed.

(** [Process] leaves bytes without directive syntax as they are. *)
Lemma Process_fixes_directive_free (s : string) :
  hasDirective s = false -> parser.processed_bytes s = s.
Proof.
  intros Hs. unfold parser.processed_bytes, parser.Process. cbn [fst].
  unfold regexp.ReplaceAll_group1, regexp.ReplaceAllFunc.
  assert (E1 : regexp.find parser.ifElseEndPattern 0 s = None)
    by (apply find_none_of_no_directive; [reflexivity|reflexivity|discriminate|exact Hs]).
  assert (E2 : regexp.find parser.ifEndPattern 0 s = None)
    by (apply find_none_of_no_directive; [reflexivity|reflexivity|discriminate|exact Hs]).
  assert (E3 : regexp.find parser.templatePattern 0 s = None)
    by (apply find_none_of_no_directive; [reflexivity|reflexivity|discriminate|exact Hs]).
  rewrite (replaceAll_loop_no_match _ _ _ s E1).
  rewrite (replaceAll_loop_no_match _ _ _ s E2).
  now rewrite (replaceAll_loop_no_match _ _ _ s E3).
Qed.

(** C9.  [Process] is idempotent on output free of directives: for every
    input, when the bytes that [Process] returned hold no directive syntax
    (no opening double brace with a closing one after it), [Process] applied
    to those bytes returns them unchanged. *)
Theorem Process_idempotent_on_directive_free (input : string) :
  hasDirective (parser.processed_bytes input) = false ->
  parser.processed_bytes (parser.processed_bytes input) = parser.processed_bytes input.
Proof. apply Process_fixes_directive_free. Qed.

Lemma Process_idempotent_witness :
  hasDirective (parser.processed_bytes "<p class={{.Class}}>{{.Body}}</p>") = false
  /\ parser.processed_bytes (parser.processed_bytes "<p class={{.Class}}>{{.Body}}</p>")
     = parser.processed_bytes "<p class={{.Class}}>{{.Body}}</p>".
Proof.
  split; [vm_compute; reflexivity |].
  apply (Process_idempotent_on_directive_free "<p class={{.Class}}>{{.Body}}</p>").
  vm_compute; reflexivity.
Defined.

(** ** Lines and branches of the preprocessed bytes *)

(** C1.  [Process] on a page whose if, else, end block spans several lines:
    the else branch goes with its two line feeds, so the six lines of the
    input come out as four and the paragraph after the block moves from
    line 6 to line 4.  The claim of an unchanged line count fails here. *)
Theorem Process_drops_lines_of_else_branch :
  parser.processed_bytes two_branch_page
  = LF +:+ "<p>hi</p>" +:+ LF +:+ LF +:+ "<p>after</p>" +:+ LF
  /\ countLF two_branch_page = 6%nat
  /\ countLF (parser.processed_bytes two_branch_page) = 4%nat.
Proof. repeat split; vm_compute; reflexivity. Qed.

(** A directive that spans two lines goes with its line feed too. *)
Lemma Process_drops_line_of_directive :
  parser.processed_bytes ("<p>{{ .Name" +:+ LF +:+ "}}</p>") = "<p>TMPL</p>".
Proof. vm_compute; reflexivity. Qed.

(** C3.  [Process] on an if, else, end block whose first branch holds
    another such block: the lazy match pairs the outer if with the inner
    else and end, the outer else and end are then deleted as single
    directives, and the content of the outer else branch stays in the
    output.  The block is not replaced by its first branch, which alone
    preprocesses to other bytes. *)
Theorem Process_keeps_else_branch_of_nested_block :
  parser.processed_bytes nested_blocks = "<a><b></a><d>"
  /\ strings.Contains (parser.processed_bytes nested_blocks) "<d>" = true
  /\ parser.processed_bytes nested_blocks_first_branch = "<a><b></a>"
  /\ regexp.ReplaceAll_group1 parser.ifElseEndPattern nested_blocks
     = "<a>{{if .B}}<b></a>{{else}}<d>{{end}}".
Proof. repeat split; vm_compute; reflexivity. Qed.

(** For a block without directives inside, the else branch does go. *)
Lemma Process_flat_block :
  parser.processed_bytes "{{if .A}}<a>{{else}}<d>{{end}}" = "<a>".
Proof. vm_compute; reflexivity. Qed.

(** ** Positions of the nodes *)

Lemma Forall_flat_map {A B : Type} (P : B -> Prop) (f : A -> list B) (l : list A) :
  Forall (fun a => Forall P (f a)) l -> Forall P (flat_map f l).
Proof.
  induction 1 as [|a l Ha _ IH]; simpl; [constructor|].
  apply Forall_app. auto.
Qed.

(** Every node of a tree that [buildNodeTree] built has the line and the
    column of the parent handed to it. *)
Lemma buildNodeTree_positions (n : html.Node) :
  forall parent,
    Forall (fun m => parser.Line m = parent_line parent
                     /\ parser.Col m = parent_col parent)
           (allNodes (parser.buildNodeTree n parent)).
Proof.
  induction n as [t d a kids IH] using html_Node_ind'. intros parent.
  cbn [parser.buildNodeTree allNodes].
  constructor; [now destruct parent|].
  apply Forall_flat_map. apply Forall_map.
  eapply Forall_impl; [exact IH|]. intros k Hk. cbn beta.
  specialize (Hk (Some (parser.mkNode (html.mkNode t d a kids)
                          (parent_line parent) (parent_col parent) []))).
  destruct parent; exact Hk.
Qed.

(** C10.  Every node of a document that [Parse] or [ParseFragment] returned
    has line 1 and column 1, whatever the HTML parser made of the bytes. *)
Theorem parsed_nodes_at_line_1_col_1
    (html_Parse : string -> option html.Node)
    (html_ParseFragment : string -> html.Node -> option (list html.Node))
    (filename content : string) (doc : parser.Document) :
  parser.Parse html_Parse filename content = Some doc
  \/ parser.ParseFragment html_ParseFragment filename content = Some doc ->
  Forall (fun n => parser.Line n = 1 /\ parser.Col n = 1) (docNodes doc).
Proof.
  unfold parser.Parse, parser.ParseFragment, parser.Process, docNodes.
  intros [H|H].
  - destruct (html_Parse _) as [root|]; [|discriminate]. injection H as <-.
    cbn [parser.Root]. apply (buildNodeTree_positions root None).
  - destruct (html_ParseFragment _ _) as [nodes|]; [|discriminate]. injection H as <-.
    cbn [parser.Root allNodes parser.Node_ parser.Line parser.Col].
    constructor; [split; reflexivity|].
    apply Forall_flat_map. apply Forall_map. apply Forall_forall. intros k _.
    apply (buildNodeTree_positions k
             (Some (parser.mkNode (html.mkNode html.DocumentNode "" [] []) 1 1 []))).
Qed.

Lemma parsed_nodes_witness :
  exists doc,
    parser.ParseFragment
      (fun _ _ => Some [elem "ul" [] [elem "li" [] [text "a"]; elem "li" [] [text "b"]]])
      "list.html" ("<ul>" +:+ LF +:+ "<li>a</li>" +:+ LF +:+ "<li>b</li>" +:+ LF +:+ "</ul>")
    = Some doc
    /\ length (docNodes doc) = 6%nat
    /\ Forall (fun n => parser.Line n = 1 /\ parser.Col n = 1) (docNodes doc).
Proof.
  eexists. split; [vm_compute; reflexivity|]. split; [reflexivity|].
  apply (parsed_nodes_at_line_1_col_1 (fun _ => None)
           (fun _ _ => Some [elem "ul" [] [elem "li" [] [text "a"]; elem "li" [] [text "b"]]])
           "list.html"
           ("<ul>" +:+ LF +:+ "<li>a</li>" +:+ LF +:+ "<li>b</li>" +:+ LF +:+ "</ul>")).
  right. vm_compute. reflexivity.
Defined.

(** ** Traversals *)

(** A callback that never stops the traversal is folded over the nodes in
    document order. *)
Lemma walk_fold {St : Type} (fn : @parser.WalkFunc St) :
  (forall n st, (fn n st).1 = true) ->
  forall n st,
    parser.walk fn n st = (true, fold_left (fun st m => (fn m st).2) (allNodes n) st).
Proof.
  intros Hfn. induction n as [h l c children IH] using parser_Node_ind'. intros st.
  cbn [parser.walk allNodes fold_left].
  pose proof (Hfn (parser.mkNode h l c children) st) as Hgo.
  destruct (fn (parser.mkNode h l c children) st) as [go st1]. cbn in Hgo. subst go.
  cbn [negb snd]. revert st1.
  induction IH as [|k ks Hk _ IHks]; intros st1; [reflexivity|].
  rewrite Hk. cbn [negb flat_map]. rewrite fold_left_app. apply IHks.
Qed.

Lemma Walk_fold {St : Type} (fn : @parser.WalkFunc St) (doc : parser.Document) (st : St) :
  (forall n st, (fn n st).1 = true) ->
  parser.Walk doc fn st = fold_left (fun st m => (fn m st).2) (docNodes doc) st.
Proof.
  intros Hfn. unfold parser.Walk, docNodes.
  destruct (parser.Root doc) as [root|]; [|reflexivity].
  now rewrite walk_fold.
Qed.

(** ** valid-for *)

Lemma NodeType_eqb_eq (a b : html.NodeType) : html.NodeType_eqb a b = true <-> a = b.
Proof. split; [destruct a, b; (reflexivity || discriminate) | intros ->; now destruct b]. Qed.

Lemma GetAttr_loop_HasAttr (attrs : list html.Attribute) (name : string) :
  parser.GetAttr_loop attrs name <> "" -> parser.HasAttr_loop attrs name = true.
Proof.
  induction attrs as [|a attrs IH]; simpl; [congruence|].
  destruct (strings.EqualFold (html.Key a) name); auto.
Qed.

Lemma ValidFor_collect_lookup (X : string) (n : parser.Node) (m : gmap string parser.Node) :
  X <> "" ->
  (hasId X n -> (rules.ValidFor_collect n m).2 !! X = Some n)
  /\ (~ hasId X n -> (rules.ValidFor_collect n m).2 !! X = m !! X).
Proof.
  intros HX. unfold hasId, rules.ValidFor_collect. split.
  - intros [Ht Hi]. rewrite Ht. cbn [html.NodeType_eqb andb].
    unfold parser.HasAttr, parser.GetAttr in *.
    rewrite GetAttr_loop_HasAttr by congruence.
    rewrite Hi. destruct (String.eqb_spec X ""); [contradiction|].
    cbn [negb snd]. apply lookup_insert_eq.
  - intros Hn.
    destruct (html.NodeType_eqb (parser.Type_ n) html.ElementNode) eqn:Et; [|reflexivity].
    apply NodeType_eqb_eq in Et. cbn [andb].
    destruct (parser.HasAttr n "id"); [|reflexivity].
    destruct (String.eqb_spec (parser.GetAttr n "id") ""); [reflexivity|].
    cbn [negb snd]. apply lookup_insert_ne. intros E. apply Hn. auto.
Qed.

Lemma ValidFor_collect_goes_on (n : parser.Node) (m : gmap string parser.Node) :
  (rules.ValidFor_collect n m).1 = true.
Proof.
  unfold rules.ValidFor_collect.
  destruct (_ && _); [destruct (negb _)|]; reflexivity.
Qed.

Lemma ValidFor_idMap_fold (doc : parser.Document) :
  ValidFor_idMap doc
  = fold_left (fun m n => (rules.ValidFor_collect n m).2) (docNodes doc) ∅.
Proof. apply Walk_fold, ValidFor_collect_goes_on. Qed.

Lemma collect_fold_absent (X : string) (l : list parser.Node) :
  X <> "" -> (forall n, In n l -> ~ hasId X n) ->
  forall m, fold_left (fun m n => (rules.ValidFor_collect n m).2) l m !! X = m !! X.
Proof.
  intros HX. induction l as [|n l IH]; intros Hl m; [reflexivity|].
  cbn [fold_left]. rewrite IH by (intros; apply Hl; now right).
  apply ValidFor_collect_lookup; [exact HX | apply Hl; now left].
Qed.

(** The map holds, for an id, the last element of the document with it. *)
Lemma collect_fold_last (X : string) (pre post : list parser.Node) (target : parser.Node) :
  X <> "" -> hasId X target -> (forall n, In n post -> ~ hasId X n) ->
  forall m,
    fold_left (fun m n => (rules.ValidFor_collect n m).2) (pre ++ target :: post) m !! X
    = Some target.
Proof.
  intros HX Ht Hpost m. rewrite fold_left_app. cbn [fold_left].
  rewrite collect_fold_absent by assumption.
  now apply ValidFor_collect_lookup.
Qed.

Lemma ValidFor_visit_appends RuleValidFor IsTemplateExpr doc idMap n results :
  rules.ValidFor_visit RuleValidFor IsTemplateExpr doc idMap n results
  = (true, results
           ++ (rules.ValidFor_visit RuleValidFor IsTemplateExpr doc idMap n []).2).
Proof.
  unfold rules.ValidFor_visit.
  repeat match goal with
         | |- context [if ?b then _ else _] => destruct b
         | |- context [match ?o with Some _ => _ | None => _ end] => destruct o
         end; cbn [snd app]; now rewrite ?app_nil_r.
Qed.

Lemma ValidFor_visit_fold RuleValidFor IsTemplateExpr doc idMap (l : list parser.Node) :
  forall results,
    fold_left
      (fun st m => (rules.ValidFor_visit RuleValidFor IsTemplateExpr doc idMap m st).2)
      l results
    = results
      ++ flat_map
           (fun n => (rules.ValidFor_visit RuleValidFor IsTemplateExpr doc idMap n []).2) l.
Proof.
  induction l as [|n l IH]; intros results; cbn [fold_left flat_map].
  - now rewrite app_nil_r.
  - rewrite IH, ValidFor_visit_appends. cbn [snd]. now rewrite app_assoc.
Qed.

Lemma ValidFor_Check_flat_map RuleValidFor IsTemplateExpr doc :
  rules.ValidFor_Check RuleValidFor IsTemplateExpr doc
  = flat_map (labelDiagnostics RuleValidFor IsTemplateExpr doc) (docNodes doc).
Proof.
  unfold rules.ValidFor_Check. fold (ValidFor_idMap doc).
  rewrite Walk_fold by (intros; now rewrite ValidFor_visit_appends).
  now rewrite ValidFor_visit_fold.
Qed.

(** What the rule appends at a label whose [for] is [X]. *)
Lemma labelDiagnostics_label RuleValidFor IsTemplateExpr doc label X :
  parser.IsElement label "label" = true ->
  parser.GetAttr label "for" = X ->
  labelDiagnostics RuleValidFor IsTemplateExpr doc label
  = if String.eqb X "" then []
    else if IsTemplateExpr X then []
    else match ValidFor_idMap doc !! X with
         | None => []
         | Some target =>
             let tag := strings.ToLower (parser.Data target) in
             if negb (rules.has rules.labelableElements tag) then
               [rules.mkResult RuleValidFor
                  ("label for attribute references non-labelable element <" +:+ tag +:+ ">")
                  (parser.Filename doc) (parser.Line label) (parser.Col label) rules.Error]
             else if String.eqb tag "input"
                     && String.eqb (strings.ToLower (parser.GetAttr target "type")) "hidden"
             then
               [rules.mkResult RuleValidFor "label for attribute references hidden input"
                  (parser.Filename doc) (parser.Line label) (parser.Col label) rules.Error]
             else []
         end.
Proof.
  intros Hl Hf. unfold labelDiagnostics, rules.ValidFor_visit.
  rewrite Hl. pose proof Hl as Hl'. unfold parser.IsElement in Hl'.
  apply andb_true_iff in Hl' as [-> _]. cbn [negb orb].
  rewrite Hf. destruct (String.eqb X ""); [reflexivity|].
  destruct (IsTemplateExpr X); [reflexivity|].
  destruct (ValidFor_idMap doc !! X) as [target|]; [|reflexivity].
  cbn zeta. destruct (negb _); [reflexivity|].
  destruct (String.eqb _ "input"); [|reflexivity].
  cbn [andb]. now destruct (String.eqb _ "hidden").
Qed.

(** C4, as amended.  For a label of the document whose [for] attribute is
    [X]: [Check] returns the diagnostics of the nodes in document order; the
    label contributes none when [X] is a template expression, and none when
    no element of the document has the id [X]; and when [X] is not empty and
    not a template expression and [target] is the last element with the id
    [X], the label contributes one Error if the tag of [target] is not
    labelable, one Error if [target] is a hidden input, and nothing if the
    tag is labelable and [target] is not a hidden input. *)
Theorem ValidFor_Check_label (RuleValidFor : string) (IsTemplateExpr : string -> bool)
    (doc : parser.Document) (label : parser.Node) (X : string) :
  In label (docNodes doc) ->
  parser.IsElement label "label" = true ->
  parser.GetAttr label "for" = X ->
  rules.ValidFor_Check RuleValidFor IsTemplateExpr doc
  = flat_map (labelDiagnostics RuleValidFor IsTemplateExpr doc) (docNodes doc)
  /\ (IsTemplateExpr X = true ->
      labelDiagnostics RuleValidFor IsTemplateExpr doc label = [])
  /\ ((forall m, In m (docNodes doc) -> ~ hasId X m) ->
      labelDiagnostics RuleValidFor IsTemplateExpr doc label = [])
  /\ (X <> "" -> IsTemplateExpr X = false ->
      forall pre target post,
        docNodes doc = pre ++ target :: post ->
        hasId X target -> (forall m, In m post -> ~ hasId X m) ->
        let tag := strings.ToLower (parser.Data target) in
        let type := strings.ToLower (parser.GetAttr target "type") in
        (rules.has rules.labelableElements tag = false ->
         labelDiagnostics RuleValidFor IsTemplateExpr doc label
         = [rules.mkResult RuleValidFor
              ("label for attribute references non-labelable element <" +:+ tag +:+ ">")
              (parser.Filename doc) (parser.Line label) (parser.Col label) rules.Error])
        /\ (tag = "input" -> type = "hidden" ->
            labelDiagnostics RuleValidFor IsTemplateExpr doc label
            = [rules.mkResult RuleValidFor "label for attribute references hidden input"
                 (parser.Filename doc) (parser.Line label) (parser.Col label) rules.Error])
        /\ (rules.has rules.labelableElements tag = true ->
            ~ (tag = "input" /\ type = "hidden") ->
            labelDiagnostics RuleValidFor IsTemplateExpr doc label = [])).
Proof.
  intros _ Hl Hf. split; [apply ValidFor_Check_flat_map|].
  rewrite (labelDiagnostics_label _ _ _ _ _ Hl Hf), ValidFor_idMap_fold.
  split; [|split].
  - intros ->. now destruct (String.eqb X "").
  - intros Habs. destruct (String.eqb_spec X ""); [reflexivity|].
    destruct (IsTemplateExpr X); [reflexivity|].
    rewrite collect_fold_absent by assumption. now rewrite lookup_empty.
  - intros HX Ht pre target post -> Hid Hpost tag type.
    destruct (String.eqb_spec X ""); [contradiction|]. rewrite Ht.
    rewrite collect_fold_last by assumption. cbn zeta. fold tag type.
    split; [|split].
    + now intros ->.
    + intros E1 E2. rewrite E1, E2. reflexivity.
    + intros -> Hn. cbn [negb].
      destruct (String.eqb_spec tag "input"); [|reflexivity].
      destruct (String.eqb_spec type "hidden"); [|reflexivity].
      exfalso. auto.
Qed.

Lemma ValidFor_Check_label_witness :
  let label := fragment_child (elem "label" [attr "for" "foo"] [text "Name"]) in
  rules.ValidFor_Check "valid-for" IsTemplateExpr_spec label_for_div
  = flat_map (labelDiagnostics "valid-for" IsTemplateExpr_spec label_for_div)
      (docNodes label_for_div)
  /\ labelDiagnostics "valid-for" IsTemplateExpr_spec label_for_div label
     = [rules.mkResult "valid-for"
          "label for attribute references non-labelable element <div>"
          "test.html" 1 1 rules.Error].
Proof.
  intros label.
  destruct (ValidFor_Check_label "valid-for" IsTemplateExpr_spec label_for_div label "foo")
    as (HCheck & _ & _ & Hlast).
  - right; left; reflexivity.
  - reflexivity.
  - reflexivity.
  - split; [exact HCheck|].
    refine (proj1 (Hlast _ eq_refl
                         [parser.mkNode (parser.Node_ fragment_root) 1 1
                            (List.map fragment_child
                               [elem "label" [attr "for" "foo"] [text "Name"];
                                elem "div" [attr "id" "foo"] [text "text"]]);
                          label; fragment_child (text "Name")]
                         (fragment_child (elem "div" [attr "id" "foo"] [text "text"]))
                         [parser.buildNodeTree (text "text")
                            (Some (parser.mkNode (elem "div" [attr "id" "foo"] [text "text"])
                                     1 1 []))]
                         eq_refl _ _) _).
    + discriminate.
    + split; reflexivity.
    + intros m [<-|[]] [Hm _]. discriminate Hm.
    + reflexivity.
Defined.

(** The four cases on the documents of the tests. *)
Lemma ValidFor_Check_examples :
  rules.ValidFor_Check "valid-for" IsTemplateExpr_spec label_for_div
  = [rules.mkResult "valid-for"
       "label for attribute references non-labelable element <div>" "test.html" 1 1
       rules.Error]
  /\ rules.ValidFor_Check "valid-for" IsTemplateExpr_spec label_for_hidden_input
     = [rules.mkResult "valid-for" "label for attribute references hidden input"
          "test.html" 1 1 rules.Error]
  /\ rules.ValidFor_Check "valid-for" IsTemplateExpr_spec label_for_input = []
  /\ rules.ValidFor_Check "valid-for" IsTemplateExpr_spec label_for_missing = [].
Proof. repeat split; vm_compute; reflexivity. Qed.

(** C4, the claim as first stated fails: the label and the division of
    [templated_label] carry the same templated value as [for] and as [id];
    the referenced element exists and is not labelable, and [Check] reports
    nothing, because the rule skips a [for] that is a template expression
    (the tests of the rule name the value TMPL one). *)
Lemma ValidFor_Check_skips_templated_for :
  exists label target,
    In label (docNodes templated_label) /\ In target (docNodes templated_label)
    /\ parser.IsElement label "label" = true
    /\ parser.GetAttr label "for" = "TMPL"
    /\ hasId "TMPL" target
    /\ ValidFor_idMap templated_label !! "TMPL" = Some target
    /\ rules.has rules.labelableElements (strings.ToLower (parser.Data target)) = false
    /\ rules.ValidFor_Check "valid-for" IsTemplateExpr_spec templated_label = [].
Proof.
  exists (fragment_child (elem "label" [attr "for" "TMPL"] [text "Name"])),
         (fragment_child (elem "div" [attr "id" "TMPL"] [])).
  split; [right; left; reflexivity|].
  split; [right; right; right; left; reflexivity|].
  repeat split; vm_compute; reflexivity.
Qed.

(** ** The time pattern *)

(** The greedy star takes all the bytes of its class when the byte after
    them is not of the class and the rest of the pattern matches there. *)
Lemma star_takes_all {R : Type} (p : ascii -> bool) (k : @regexp.cont R) (g : regexp.groups)
    (rest : string) (x : R) :
  match rest with "" => True | String c _ => p c = false end ->
  forall w pos,
    all_bytes p w ->
    k (pos + String.length w)%nat rest g = Some x ->
    regexp.star p pos (w +:+ rest) g k = Some x.
Proof.
  intros Hrest. induction w as [|c w IH]; intros pos Hw Hk.
  - cbn [String.length] in Hk. rewrite Nat.add_0_r in Hk.
    destruct rest as [|c rest]; simpl; [exact Hk | now rewrite Hrest].
  - destruct Hw as [Hc Hw]. simpl. rewrite Hc.
    rewrite (IH (S pos) Hw); [reflexivity|].
    cbn [String.length] in Hk. now rewrite Nat.add_succ_r in Hk.
Qed.

Lemma find_timePattern_later : forall s pos,
  regexp.find rules.timePattern (S pos) s = None.
Proof. induction s as [|c s IH]; intros pos; [reflexivity | exact (IH (S pos))]. Qed.

(** The time pattern accepts the time values and nothing else. *)
Lemma timePattern_spec (tok : string) :
  regexp.MatchString rules.timePattern tok = true <-> time_value tok.
Proof.
  unfold regexp.MatchString. split.
  - destruct (regexp.find rules.timePattern 0 tok) as [m|] eqn:E; [intros _|discriminate].
    assert (E' : regexp.exec rules.timePattern 0 tok = Some m).
    { destruct tok as [|c tok]; cbn [regexp.find] in E.
      - now destruct (regexp.exec rules.timePattern 0 "").
      - destruct (regexp.exec rules.timePattern 0 (String c tok)); [exact E|].
        now rewrite find_timePattern_later in E. }
    clear E. unfold regexp.exec in E'.
    destruct tok as [|c tok]; [discriminate|].
    cbn [rules.timePattern regexp.seq foldr regexp.rmatch Nat.eqb] in E'.
    destruct (regexp.perl_d c) eqn:Hc; [|discriminate].
    apply star_sound in E' as (w & r & -> & Hw & E').
    apply (rmatch_sound (regexp.Alt (regexp.Lit "ms") (regexp.Lit "s"))) in E'
      as (w2 & r2 & g2 & -> & Hw2 & E').
    destruct r2; [|discriminate]. clear E'.
    exists (String c w). split; [discriminate|]. split; [split; assumption|].
    rewrite str_app_nil_r.
    destruct Hw2 as [Hw2|Hw2]; apply Lang_Lit in Hw2 as ->; [now left | now right].
  - intros (d & Hd & Hdig & Htok).
    destruct d as [|c d]; [contradiction|]. destruct Hdig as [Hc Hdig].
    assert (E : exists m, regexp.exec rules.timePattern 0 tok = Some m).
    { unfold regexp.exec.
      destruct Htok as [-> | ->];
        cbn [String.append rules.timePattern regexp.seq foldr regexp.rmatch Nat.eqb];
        unfold regexp.perl_d at 1; rewrite Hc;
        eexists; apply star_takes_all; try exact Hdig; reflexivity. }
    destruct E as [m E].
    destruct tok; cbn [regexp.find]; now rewrite E.
Qed.

(** ** htmx attributes *)

(** C5.  With the framework disabled, whatever the version and the
    document, [Check] returns no result. *)
Theorem HTMXAttributes_Check_disabled (RuleHTMXAttributes : string)
    (r : rules.HTMXAttributes) (htmxVersion : string) (doc : parser.Document) :
  rules.HTMXAttributes_Check RuleHTMXAttributes (rules.Configure r false htmxVersion) doc = [].
Proof. reflexivity. Qed.

(** The document of the test of the disabled rule: its malformed [hx-swap]
    is an Error when the framework is enabled and nothing when it is not. *)
Lemma HTMXAttributes_Check_disabled_example :
  rules.HTMXAttributes_Check "htmx-attributes" (rules.mkHTMXAttributes true "2")
    (fragment "test.html" [hx_div "hx-swap" "invalid"])
  = [rules.mkResult "htmx-attributes" "invalid hx-swap value 'invalid'" "test.html" 1 1
       rules.Error]
  /\ rules.HTMXAttributes_Check "htmx-attributes" (rules.mkHTMXAttributes false "2")
       (fragment "test.html" [hx_div "hx-swap" "invalid"]) = []
  /\ rules.HTMXAttributes_Check "htmx-attributes" (rules.mkHTMXAttributes false "2")
       (fragment "test.html"
          [elem "div" [attr "hx-swap" "bogus nocolon"; attr "hx-trigger" "every";
                       attr "hx-target" "nowhere special"; attr "hx-on:" "x()"] []]) = [].
Proof. repeat split; vm_compute; reflexivity. Qed.

Ltac check_by_version version :=
  unfold rules.HTMXAttributes_Check, rules.HTMXAttributes_visit, rules.validateSwap;
  cbn [rules.htmxVersion rules.htmxEnabled];
  destruct (String.eqb version "4"); vm_compute; reflexivity.

(** C2.  With the framework enabled, [Check] on a division with the given
    [hx-swap] value: "innerHTML settle:500ms" under version 2 gives no
    diagnostic; "invalid" gives, under every version, an Error whose message
    holds "invalid hx-swap value"; "innerHTML notamodifier" gives, under
    every version, an Error whose message holds "missing colon";
    "textContent" gives under version 2 a Warning whose message holds "only
    available in htmx 4", and under version 4 no diagnostic. *)
Theorem hx_swap_examples (RuleHTMXAttributes filename htmxVersion : string) :
  let Check version value :=
    rules.HTMXAttributes_Check RuleHTMXAttributes (rules.mkHTMXAttributes true version)
      (fragment filename [hx_div "hx-swap" value]) in
  Check "2" "innerHTML settle:500ms" = []
  /\ Check htmxVersion "invalid"
     = [rules.mkResult RuleHTMXAttributes "invalid hx-swap value 'invalid'"
          filename 1 1 rules.Error]
  /\ strings.Contains "invalid hx-swap value 'invalid'" "invalid hx-swap value" = true
  /\ Check htmxVersion "innerHTML notamodifier"
     = [rules.mkResult RuleHTMXAttributes
          "invalid hx-swap modifier 'notamodifier' (missing colon)"
          filename 1 1 rules.Error]
  /\ strings.Contains "invalid hx-swap modifier 'notamodifier' (missing colon)"
       "missing colon" = true
  /\ Check "2" "textContent"
     = [rules.mkResult RuleHTMXAttributes
          "hx-swap value 'textcontent' is only available in htmx 4"
          filename 1 1 rules.Warning]
  /\ strings.Contains "hx-swap value 'textcontent' is only available in htmx 4"
       "only available in htmx 4" = true
  /\ Check "4" "textContent" = [].
Proof.
  intros Check. subst Check. cbn beta.
  repeat split; try (vm_compute; reflexivity); check_by_version htmxVersion.
Qed.

(** The same answers at any node and under any file name. *)
Lemma validateSwap_examples (RuleHTMXAttributes filename htmxVersion : string)
    (n : parser.Node) :
  let validateSwap version :=
    rules.validateSwap RuleHTMXAttributes (rules.mkHTMXAttributes true version) filename n in
  validateSwap "2" "innerHTML settle:500ms" = []
  /\ validateSwap htmxVersion "invalid"
     = [rules.mkResult RuleHTMXAttributes "invalid hx-swap value 'invalid'"
          filename (parser.Line n) (parser.Col n) rules.Error]
  /\ validateSwap htmxVersion "innerHTML notamodifier"
     = [rules.mkResult RuleHTMXAttributes
          "invalid hx-swap modifier 'notamodifier' (missing colon)"
          filename (parser.Line n) (parser.Col n) rules.Error]
  /\ validateSwap "2" "textContent"
     = [rules.mkResult RuleHTMXAttributes
          "hx-swap value 'textcontent' is only available in htmx 4"
          filename (parser.Line n) (parser.Col n) rules.Warning]
  /\ validateSwap "4" "textContent" = [].
Proof.
  intros validateSwap. subst validateSwap. cbn beta.
  repeat split; try (vm_compute; reflexivity);
    unfold rules.validateSwap; cbn [rules.htmxVersion];
    destruct (String.eqb htmxVersion "4"); vm_compute; reflexivity.
Qed.

(** The time pattern on some tokens. *)
Lemma timePattern_examples :
  List.map (regexp.MatchString rules.timePattern)
    ["2s"; "500ms"; "0s"; "2x"; "s"; "ms"; "2"; "2sec"; "-1s"; "1.5s"; "2S"; " 2s"; ""]
  = [true; true; true; false; false; false; false; false; false; false; false; false; false].
Proof. vm_compute; reflexivity. Qed.

(** C6.  With the framework enabled, the trigger "every" gives one Error,
    whose message asks for a time value; the trigger "every 2s" gives no
    diagnostic; and for a trigger whose first token is "every", in any case,
    and that has a second token: no diagnostic when that token is a time
    value (digits and then [s] or [ms]), and otherwise one Error with
    another message, about a valid time value. *)
Theorem hx_trigger_every (RuleHTMXAttributes filename htmxVersion : string)
    (n : parser.Node) (trigger e tok : string) (rest : list string) :
  strings.Fields trigger = e :: tok :: rest ->
  strings.ToLower e = "every" ->
  let r := rules.mkHTMXAttributes true htmxVersion in
  let Check value :=
    rules.HTMXAttributes_Check RuleHTMXAttributes r
      (fragment filename [hx_div "hx-trigger" value]) in
  let missing := "hx-trigger 'every' requires a time value (e.g., 'every 1s')" in
  let malformed := "hx-trigger 'every' requires a valid time value (e.g., '1s', '500ms')" in
  Check "every" = [rules.mkResult RuleHTMXAttributes missing filename 1 1 rules.Error]
  /\ strings.Contains missing "requires a time value" = true
  /\ Check "every 2s" = []
  /\ (time_value tok ->
      rules.validateSingleTrigger RuleHTMXAttributes r filename n trigger = [])
  /\ (~ time_value tok ->
      rules.validateSingleTrigger RuleHTMXAttributes r filename n trigger
      = [rules.mkResult RuleHTMXAttributes malformed filename
           (parser.Line n) (parser.Col n) rules.Error])
  /\ malformed <> missing.
Proof.
  intros HF He r Check missing malformed. subst r Check missing malformed. cbn beta.
  split; [vm_compute; reflexivity|].
  split; [vm_compute; reflexivity|].
  split; [vm_compute; reflexivity|].
  unfold rules.validateSingleTrigger. rewrite HF, He. cbn [String.eqb Ascii.eqb Bool.eqb].
  split; [|split; [|discriminate]].
  - intros Ht. apply timePattern_spec in Ht. now rewrite Ht.
  - intros Ht. destruct (regexp.MatchString rules.timePattern tok) eqn:E; [|reflexivity].
    apply timePattern_spec in E. contradiction.
Qed.

Lemma hx_trigger_every_witness :
  rules.HTMXAttributes_Check "htmx-attributes" (rules.mkHTMXAttributes true "2")
    (fragment "test.html" [hx_div "hx-trigger" "every"])
  = [rules.mkResult "htmx-attributes"
       "hx-trigger 'every' requires a time value (e.g., 'every 1s')" "test.html" 1 1
       rules.Error]
  /\ rules.validateSingleTrigger "htmx-attributes" (rules.mkHTMXAttributes true "2")
       "test.html" (fragment_child (hx_div "hx-trigger" "Every soon")) "Every soon"
     = [rules.mkResult "htmx-attributes"
          "hx-trigger 'every' requires a valid time value (e.g., '1s', '500ms')"
          "test.html" 1 1 rules.Error].
Proof.
  destruct (hx_trigger_every "htmx-attributes" "test.html" "2"
              (fragment_child (hx_div "hx-trigger" "Every soon")) "Every soon"
              "Every" "soon" [])
    as (H1 & _ & _ & _ & H5 & _).
  - reflexivity.
  - reflexivity.
  - split; [exact H1|]. apply H5.
    intros H. apply timePattern_spec in H. discriminate H.
Defined.

(** C8, as amended.  For an [hx-on:] or [hx-on-] attribute: when its event
    name is empty, [validateHxOn] returns one Error; when the name is not
    empty, does not begin with a colon (the shorthand of the htmx
    namespace), is no DOM event when put in lower case and does not begin
    with the htmx prefix in any case, it returns exactly one result, a
    Warning that names the event as a possible custom event.  Both hold
    under every version. *)
Theorem validateHxOn_custom_event (RuleHTMXAttributes : string) (r : rules.HTMXAttributes)
    (filename : string) (n : parser.Node) (attrKey eventName : string) :
  attrKey = "hx-on:" +:+ eventName \/ attrKey = "hx-on-" +:+ eventName ->
  (eventName = "" ->
   rules.validateHxOn RuleHTMXAttributes r filename n attrKey
   = [rules.mkResult RuleHTMXAttributes "hx-on:* requires an event name"
        filename (parser.Line n) (parser.Col n) rules.Error])
  /\ (eventName <> "" ->
      strings.HasPrefix eventName ":" = false ->
      rules.has rules.knownDOMEvents (strings.ToLower eventName) = false ->
      strings.HasPrefix eventName "htmx:"
      || strings.HasPrefix (strings.ToLower eventName) "htmx:" = false ->
      rules.validateHxOn RuleHTMXAttributes r filename n attrKey
      = [rules.mkResult RuleHTMXAttributes
           ("unknown event '" +:+ eventName
            +:+ "' in hx-on:*; if this is a custom event, ignore this warning")
           filename (parser.Line n) (parser.Col n) rules.Warning]).
Proof.
  intros Hk. unfold rules.validateHxOn.
  assert (E : (if strings.HasPrefix attrKey "hx-on:"
               then strings.TrimPrefix attrKey "hx-on:"
               else if strings.HasPrefix attrKey "hx-on-"
                    then strings.TrimPrefix attrKey "hx-on-" else "") = eventName)
    by (destruct Hk as [->| ->]; reflexivity).
  rewrite E. split.
  - now intros ->.
  - intros Hne Hcolon Hdom Hhtmx. destruct (String.eqb_spec eventName ""); [contradiction|].
    now rewrite Hcolon, Hdom, Hhtmx.
Qed.

Lemma validateHxOn_custom_event_witness :
  rules.validateHxOn "htmx-attributes" (rules.mkHTMXAttributes true "2") "test.html"
    (fragment_child (hx_div "hx-on:cart-updated" "refresh()")) "hx-on:cart-updated"
  = [rules.mkResult "htmx-attributes"
       "unknown event 'cart-updated' in hx-on:*; if this is a custom event, ignore this warning"
       "test.html" 1 1 rules.Warning].
Proof.
  apply (validateHxOn_custom_event "htmx-attributes" (rules.mkHTMXAttributes true "2")
           "test.html" (fragment_child (hx_div "hx-on:cart-updated" "refresh()"))
           "hx-on:cart-updated" "cart-updated").
  - left; reflexivity.
  - discriminate.
  - reflexivity.
  - vm_compute; reflexivity.
  - reflexivity.
Defined.

(** C8, the claim as first stated fails.  The attribute [hx-on:] has an
    event name, the empty one, that is no DOM event and does not begin with
    the htmx prefix, and the validator answers with an Error, under both
    versions and through [Check] as well.  The event name of [hx-on::load]
    is no DOM event either and does not begin with the htmx prefix, and the
    validator, which reads the leading colon as that prefix, returns
    nothing under version 2; that of [hx-on::] gets an Error under
    version 4. *)
Lemma validateHxOn_empty_event_name_is_error :
  let node key := fragment_child (hx_div key "refresh()") in
  let v2 := rules.mkHTMXAttributes true "2" in
  let v4 := rules.mkHTMXAttributes true "4" in
  let unclassified name :=
    rules.has rules.knownDOMEvents (strings.ToLower name)
    || strings.HasPrefix name "htmx:"
    || strings.HasPrefix (strings.ToLower name) "htmx:" in
  unclassified "" = false
  /\ rules.validateHxOn "htmx-attributes" v2 "test.html" (node "hx-on:") ("hx-on:" +:+ "")
     = [rules.mkResult "htmx-attributes" "hx-on:* requires an event name" "test.html" 1 1
          rules.Error]
  /\ rules.validateHxOn "htmx-attributes" v4 "test.html" (node "hx-on:") ("hx-on:" +:+ "")
     = [rules.mkResult "htmx-attributes" "hx-on:* requires an event name" "test.html" 1 1
          rules.Error]
  /\ rules.HTMXAttributes_Check "htmx-attributes" v2
       (fragment "test.html" [hx_div "hx-on:" "refresh()"])
     = [rules.mkResult "htmx-attributes" "hx-on:* requires an event name" "test.html" 1 1
          rules.Error]
  /\ unclassified ":load" = false
  /\ rules.validateHxOn "htmx-attributes" v2 "test.html" (node "hx-on::load")
       ("hx-on:" +:+ ":load") = []
  /\ unclassified ":" = false
  /\ rules.validateHxOn "htmx-attributes" v4 "test.html" (node "hx-on::") ("hx-on:" +:+ ":")
     = [rules.mkResult "htmx-attributes" "invalid htmx event format 'htmx:'" "test.html" 1 1
          rules.Error].
Proof. repeat split; vm_compute; reflexivity. Qed.

(** ** Character references *)

(** A text that the scan pattern matches is an ampersand, a letter, letters
    and digits, and a semicolon: a numeric reference, whose second byte is a
    hash sign, is never one. *)
Lemma namedCharRefPattern_shape (w : string) :
  Lang rules.namedCharRefPattern w ->
  exists c name,
    w = "&" +:+ String c name +:+ ";"
    /\ (isLowerASCII c || isUpperASCII c) = true
    /\ all_bytes (fun c => isLowerASCII c || isUpperASCII c || isDigit c) name.
Proof.
  intros (w1 & w2 & -> & H1 & w3 & w4 & -> & H3 & H4).
  apply (Lang_Lit "&") in H1 as ->.
  destruct H3 as (u1 & u2 & -> & (c & -> & Hc) & Hname).
  destruct H4 as (u3 & u4 & -> & H5 & ->).
  apply (Lang_Lit ";") in H5 as ->.
  exists c, u2. split; [reflexivity | split; [exact Hc | exact Hname]].
Qed.









(** * Further properties of the code *)

(** ** Offsets and slices of byte strings *)

Lemma drop_bytes_nil (n : nat) : drop_bytes n "" = "".
Proof. now destruct n. Qed.

Lemma drop_bytes_length : forall n s,
  String.length (drop_bytes n s) = (String.length s - n)%nat.
Proof.
  induction n as [|n IH]; intros [|c s]; simpl; try reflexivity.
  apply IH.
Qed.

Lemma drop_bytes_add : forall n k s,
  drop_bytes (n + k) s = drop_bytes k (drop_bytes n s).
Proof.
  induction n as [|n IH]; intros k [|c s]; simpl; try reflexivity.
  - now rewrite !drop_bytes_nil.
  - apply IH.
Qed.

Lemma substring_drop : forall n k s,
  String.substring n k s = String.substring 0 k (drop_bytes n s).
Proof.
  induction n as [|n IH]; intros k [|c s]; simpl; try reflexivity.
  - now destruct k.
  - apply IH.
Qed.

Lemma substring_0_app (a b : string) :
  String.substring 0 (String.length a) (a +:+ b) = a.
Proof.
  induction a as [|c a IH]; simpl; [now destruct b | now rewrite IH].
Qed.

(** When the bytes from [p] on are [a] and then [w], [src[p+|a| : p+|a|+|w|]]
    is [w]. *)
Lemma slice_of_drop (src : string) (p : nat) (a w t : string) :
  drop_bytes p src = a +:+ w +:+ t ->
  slice src (p + String.length a) (p + String.length a + String.length w) = w.
Proof.
  intros H. unfold slice.
  replace (p + String.length a + String.length w - (p + String.length a))%nat
    with (String.length w) by lia.
  now rewrite substring_drop, drop_bytes_add, H, drop_bytes_app, substring_0_app.
Qed.

Lemma slice_prefix_of_drop (src : string) (p : nat) (a t : string) :
  drop_bytes p src = a +:+ t -> slice src p (p + String.length a) = a.
Proof.
  intros H. unfold slice.
  replace (p + String.length a - p)%nat with (String.length a) by lia.
  now rewrite substring_drop, H, substring_0_app.
Qed.

Lemma countLF_app (a b : string) : countLF (a +:+ b) = (countLF a + countLF b)%nat.
Proof. induction a as [|c a IH]; simpl; [reflexivity | rewrite IH; lia]. Qed.

(** ** The leftmost match *)

Lemma find_unfold (re : regexp.regex) (pos : nat) (s : string) :
  regexp.find re pos s =
  match regexp.exec re pos s with
  | Some m => Some m
  | None => match s with
            | "" => None
            | String _ s' => regexp.find re (S pos) s'
            end
  end.
Proof. destruct s; reflexivity. Qed.

(** [find] returns the match at the first offset where [exec] has one. *)
Lemma find_leftmost (re : regexp.regex) : forall s pos m,
  regexp.find re pos s = Some m ->
  exists a t, s = a +:+ t
    /\ regexp.exec re (pos + String.length a) t = Some m
    /\ forall a1 a2, a = a1 +:+ a2 -> a2 <> "" ->
         regexp.exec re (pos + String.length a1) (a2 +:+ t) = None.
Proof.
  induction s as [|c s IH]; intros pos m H; rewrite find_unfold in H.
  - destruct (regexp.exec re pos "") eqn:E; [|discriminate]. injection H as ->.
    exists "", "". simpl. rewrite Nat.add_0_r. split; [reflexivity|]. split; [exact E|].
    intros [|x a1] a2 Ha Hn; [|discriminate]. simpl in Ha. congruence.
  - destruct (regexp.exec re pos (String c s)) eqn:E.
    + injection H as ->. exists "", (String c s). simpl. rewrite Nat.add_0_r.
      split; [reflexivity|]. split; [exact E|].
      intros [|x a1] a2 Ha Hn; [|discriminate]. simpl in Ha. congruence.
    + apply IH in H as (a & t & -> & Hm & Hl).
      exists (String c a), t. simpl. rewrite Nat.add_succ_r.
      split; [reflexivity|]. split; [exact Hm|].
      intros [|x a1] a2 Ha Hn; simpl in Ha.
      * subst a2. simpl. now rewrite Nat.add_0_r.
      * injection Ha as <- ->. simpl. rewrite Nat.add_succ_r.
        now apply Hl.
Qed.

Lemma find_skip (re : regexp.regex) : forall a t pos,
  regexp.exec re (pos + String.length a) t <> None ->
  regexp.find re pos (a +:+ t) <> None.
Proof.
  induction a as [|c a IH]; intros t pos H; rewrite find_unfold; simpl in *.
  - rewrite Nat.add_0_r in H. destruct (regexp.exec re pos t); [discriminate|].
    now destruct H.
  - destruct (regexp.exec re pos (String c (a +:+ t))); [discriminate|].
    apply IH. now rewrite Nat.add_succ_r in H.
Qed.

(** ** The pattern of directives finds every directive *)

Lemma starLazy_unfold {R : Type} p pos (s : string) g (k : @regexp.cont R) :
  regexp.starLazy p pos s g k =
  match k pos s g with
  | Some x => Some x
  | None =>
      match s with
      | String c s' => if p c then regexp.starLazy p (S pos) s' g k else None
      | "" => None
      end
  end.
Proof. destruct s; reflexivity. Qed.

Lemma starLazy_complete {R : Type} p (k : @regexp.cont R) g (rest : string) :
  (forall c, p c = true) ->
  forall u pos,
    k (pos + String.length u)%nat rest g <> None ->
    regexp.starLazy p pos (u +:+ rest) g k <> None.
Proof.
  intros Hp. induction u as [|c u IH]; intros pos H; rewrite starLazy_unfold; simpl in *.
  - rewrite Nat.add_0_r in H. destruct (k pos rest g); [discriminate | now destruct H].
  - destruct (k pos (String c (u +:+ rest)) g); [discriminate|].
    rewrite Hp. apply IH. now rewrite Nat.add_succ_r in H.
Qed.

Lemma exec_templatePattern_complete (pos : nat) (u c : string) :
  regexp.exec parser.templatePattern pos ("{{" +:+ u +:+ "}}" +:+ c) <> None.
Proof.
  unfold regexp.exec, parser.templatePattern. cbn.
  apply starLazy_complete.
  - intros x. now destruct (regexp.perl_s x).
  - cbn. discriminate.
Qed.

Lemma find_templatePattern_complete (s : string) (pos : nat) :
  hasDirective s = true -> regexp.find parser.templatePattern pos s <> None.
Proof.
  intros H. apply hasDirective_inv in H as (a & u & c & ->).
  apply find_skip, exec_templatePattern_complete.
Qed.

(** What stands before the leftmost directive holds no opening double brace
    and does not end in a brace. *)
Lemma find_templatePattern_inv (s : string) (pos : nat) (m : regexp.Match) :
  regexp.find parser.templatePattern pos s = Some m ->
  exists a u t, s = a +:+ ("{{" +:+ u +:+ "}}") +:+ t
    /\ regexp.mstart m = (pos + String.length a)%nat
    /\ regexp.mend m = (regexp.mstart m + String.length ("{{" +:+ u +:+ "}}"))%nat
    /\ (forall a1 a3, a <> a1 +:+ "{{" +:+ a3)
    /\ (forall a1, a <> a1 +:+ "{").
Proof.
  intros H. apply find_leftmost in H as (a & t0 & -> & Hm & Hl).
  apply exec_sound in Hm as (w & t & -> & L & E1 & E2).
  assert (Hw : exists u, w = "{{" +:+ u +:+ "}}")
    by (unfold parser.templatePattern in L; eapply Lang_braces;
        [| | |exact L]; [reflexivity | reflexivity | discriminate]).
  destruct Hw as (u & ->).
  exists a, u, t. split; [reflexivity|]. split; [exact E1|]. split; [now rewrite E1|].
  split.
  - intros a1 a3 Ha.
    specialize (Hl a1 ("{{" +:+ a3) Ha ltac:(discriminate)).
    apply (exec_templatePattern_complete (pos + String.length a1)
             (a3 +:+ "{{" +:+ u) t).
    rewrite <- Hl. f_equal. simpl. now rewrite !str_app_assoc.
  - intros a1 Ha.
    specialize (Hl a1 "{" Ha ltac:(discriminate)).
    apply (exec_templatePattern_complete (pos + String.length a1) ("{" +:+ u) t).
    rewrite <- Hl. f_equal. simpl. now rewrite !str_app_assoc.
Qed.

Lemma hasDirective_skip (R : string) : forall a,
  (forall a1 a3, a <> a1 +:+ "{{" +:+ a3) ->
  (forall a1, a <> a1 +:+ "{") ->
  hasDirective (a +:+ R) = hasDirective R.
Proof.
  induction a as [|c a IH]; intros H1 H2; [reflexivity|].
  change (String c a +:+ R) with (String c (a +:+ R)).
  rewrite hasDirective_unfold.
  assert (E : strings.HasPrefix (String c (a +:+ R)) "{{" = false).
  { destruct (strings.HasPrefix (String c (a +:+ R)) "{{") eqn:E; [|reflexivity].
    apply HasPrefix_inv in E as [t E]. simpl in E. injection E as -> E.
    destruct a as [|d a].
    - now destruct (H2 "").
    - simpl in E. injection E as -> _. now destruct (H1 "" a). }
  rewrite E. simpl. apply IH.
  - intros a1 a3 ->. now apply (H1 (String c a1) a3).
  - intros a1 ->. now apply (H2 (String c a1)).
Qed.

(** ** The loop of [ReplaceAll] on a pattern that never matches the empty
    string *)

Lemma replaceAll_loop_none fuel re repl (src : string) (p : nat) :
  regexp.find re p (drop_bytes p src) = None ->
  regexp.replaceAll_loop fuel re repl src p p = drop_bytes p src.
Proof.
  intros H. destruct fuel as [|fuel]; [reflexivity|]. cbn [regexp.replaceAll_loop].
  rewrite H. now destruct (String.length src <? p)%nat.
Qed.

Lemma replaceAll_loop_some fuel re repl (src : string) (p : nat) (m : regexp.Match)
    (a w t : string) :
  (p <= String.length src)%nat ->
  regexp.find re p (drop_bytes p src) = Some m ->
  drop_bytes p src = a +:+ w +:+ t ->
  regexp.mstart m = (p + String.length a)%nat ->
  regexp.mend m = (regexp.mstart m + String.length w)%nat ->
  w <> "" ->
  regexp.replaceAll_loop (S fuel) re repl src p p
  = a +:+ repl m +:+ regexp.replaceAll_loop fuel re repl src (regexp.mend m) (regexp.mend m)
  /\ drop_bytes (regexp.mend m) src = t
  /\ (regexp.mend m <= String.length src)%nat
  /\ (String.length src - regexp.mend m < String.length src - p)%nat
  /\ slice src (regexp.mstart m) (regexp.mend m) = w.
Proof.
  intros Hp Hf Hd E1 E2 Hw.
  assert (Lw : (0 < String.length w)%nat) by (destruct w; [congruence | simpl; lia]).
  assert (Ls : (String.length src
                = p + String.length a + String.length w + String.length t)%nat).
  { pose proof (drop_bytes_length p src) as L. rewrite Hd, !str_length_app in L. lia. }
  split; [|split; [|split; [|split]]].
  - cbn [regexp.replaceAll_loop]. rewrite Hf.
    replace (String.length src <? p)%nat with false by (symmetry; apply Nat.ltb_ge; lia).
    replace (p <? regexp.mend m)%nat with true by (symmetry; apply Nat.ltb_lt; lia).
    cbn [orb]. rewrite E1, (slice_prefix_of_drop _ _ _ _ Hd). reflexivity.
  - rewrite E2, E1, <- Nat.add_assoc, !drop_bytes_add, Hd.
    now rewrite drop_bytes_app, drop_bytes_app.
  - lia.
  - lia.
  - rewrite E2, E1. now apply slice_of_drop with (t := t).
Qed.

(** ** What [Process] returns holds no directive *)

Lemma replaceTemplate_cases (match_ : string) :
  parser.replaceTemplate match_ = "" \/ parser.replaceTemplate match_ = "TMPL".
Proof.
  unfold parser.replaceTemplate.
  repeat match goal with |- context [if ?b then _ else _] => destruct b end; auto.
Qed.

Lemma replaceAll_templatePattern_no_directive (repl : regexp.Match -> string)
    (src : string) :
  (forall m, repl m = "" \/ repl m = "TMPL") ->
  forall fuel p,
    (p <= String.length src)%nat -> (String.length src - p < fuel)%nat ->
    hasDirective (regexp.replaceAll_loop fuel parser.templatePattern repl src p p) = false.
Proof.
  intros Hr. induction fuel as [|fuel IH]; intros p Hp Hf; [lia|].
  destruct (regexp.find parser.templatePattern p (drop_bytes p src)) as [m|] eqn:F.
  - destruct (find_templatePattern_inv _ _ _ F) as (a & u & t & Hd & E1 & E2 & H1 & H2).
    destruct (replaceAll_loop_some fuel _ repl src p m a _ t Hp F Hd E1 E2
                ltac:(discriminate)) as (-> & _ & Le & Lt & _).
    rewrite (hasDirective_skip _ a H1 H2).
    destruct (Hr m) as [-> | ->].
    + simpl. apply IH; lia.
    + change (hasDirective ("TMPL" +:+ ?x)) with (hasDirective x). apply IH; lia.
  - rewrite (replaceAll_loop_none _ _ _ _ _ F).
    destruct (hasDirective (drop_bytes p src)) eqn:E; [|reflexivity].
    now destruct (find_templatePattern_complete _ p E).
Qed.

Lemma ReplaceAllFunc_templatePattern_no_directive (src : string) :
  hasDirective (regexp.ReplaceAllFunc parser.templatePattern src parser.replaceTemplate)
  = false.
Proof.
  unfold regexp.ReplaceAllFunc.
  apply replaceAll_templatePattern_no_directive; [|lia|lia].
  intros m. apply replaceTemplate_cases.
Qed.

(** X1.  The bytes that [Process] returns hold no directive syntax, whatever
    the input: no opening double brace with a closing one after it is left
    for the HTML parser. *)
Theorem Process_output_has_no_directive (input : string) :
  hasDirective (parser.processed_bytes input) = false.
Proof.
  unfold parser.processed_bytes, parser.Process. cbn [fst].
  apply ReplaceAllFunc_templatePattern_no_directive.
Qed.

(** X2.  [Process] is idempotent on every input: processing its own output
    changes nothing. *)
Theorem Process_idempotent_on_every_input (input : string) :
  parser.processed_bytes (parser.processed_bytes input) = parser.processed_bytes input.
Proof.
  apply Process_fixes_directive_free.
  unfold parser.processed_bytes, parser.Process. cbn [fst].
  apply ReplaceAllFunc_templatePattern_no_directive.
Qed.

(** ** [Process] never makes its input longer *)

Lemma groups_within_mono (lo hi hi' : nat) (g : regexp.groups) :
  groups_within lo hi g -> (hi <= hi')%nat -> groups_within lo hi' g.
Proof. intros H Hh i b e Hg. specialize (H i b e Hg). lia. Qed.

Lemma groups_within_cons (lo hi i b : nat) (g : regexp.groups) :
  groups_within lo hi g -> (lo <= b)%nat -> (b <= hi)%nat ->
  groups_within lo hi ((i, (b, hi)) :: g).
Proof.
  intros H Hb Hh j b' e' Hg. simpl in Hg.
  destruct (j =? i)%nat; [injection Hg as <- <-; lia | exact (H _ _ _ Hg)].
Qed.

(** The groups of a match lie inside the match. *)
Lemma rmatch_groups {R : Type} (r : regexp.regex) :
  forall pos s g (k : @regexp.cont R) x lo,
    regexp.rmatch r pos s g k = Some x ->
    (lo <= pos)%nat -> groups_within lo pos g ->
    exists pos' s' g', k pos' s' g' = Some x /\ (pos <= pos')%nat
                       /\ groups_within lo pos' g'.
Proof.
  induction r as [|p|r1 IH1 r2 IH2|r1 IH1 r2 IH2|r1 IH1|p|p|i r1 IH1| |];
    intros pos s g k x lo H Hlo Hg; simpl in H.
  - exists pos, s, g. auto.
  - destruct s as [|c s]; [discriminate|]. destruct (p c); [|discriminate].
    exists (S pos), s, g. split; [exact H|]. split; [lia|].
    apply (groups_within_mono _ _ _ _ Hg). lia.
  - apply (IH1 _ _ _ _ _ lo) in H as (p1 & s1 & g1 & H & L1 & G1); [|exact Hlo|exact Hg].
    apply (IH2 _ _ _ _ _ lo) in H as (p2 & s2 & g2 & H & L2 & G2); [|lia|exact G1].
    exists p2, s2, g2. split; [exact H|]. split; [lia|exact G2].
  - destruct (regexp.rmatch r1 pos s g k) eqn:E.
    + injection H as ->. exact (IH1 _ _ _ _ _ lo E Hlo Hg).
    + exact (IH2 _ _ _ _ _ lo H Hlo Hg).
  - destruct (regexp.rmatch r1 pos s g k) eqn:E.
    + injection H as ->. exact (IH1 _ _ _ _ _ lo E Hlo Hg).
    + exists pos, s, g. auto.
  - apply star_sound in H as (w & s' & _ & _ & H).
    exists (pos + String.length w)%nat, s', g. split; [exact H|]. split; [lia|].
    apply (groups_within_mono _ _ _ _ Hg). lia.
  - apply starLazy_sound in H as (w & s' & _ & _ & H).
    exists (pos + String.length w)%nat, s', g. split; [exact H|]. split; [lia|].
    apply (groups_within_mono _ _ _ _ Hg). lia.
  - apply (IH1 _ _ _ _ _ lo) in H as (p1 & s1 & g1 & H & L1 & G1); [|exact Hlo|exact Hg].
    exists p1, s1, ((i, (pos, p1)) :: g1). split; [exact H|]. split; [exact L1|].
    now apply groups_within_cons.
  - destruct (pos =? 0)%nat; [|discriminate]. exists pos, s, g. auto.
  - destruct s; [|discriminate]. exists pos, "", g. auto.
Qed.

Lemma exec_groups (re : regexp.regex) (pos : nat) (s : string) (m : regexp.Match) :
  regexp.exec re pos s = Some m ->
  groups_within (regexp.mstart m) (regexp.mend m) (regexp.mgroups m).
Proof.
  unfold regexp.exec. intros H.
  apply (rmatch_groups _ _ _ _ _ _ pos) in H as (p' & s' & g' & H & L & G);
    [|lia|intros i b e; discriminate].
  injection H as <-. exact G.
Qed.

Lemma find_groups (re : regexp.regex) (pos : nat) (s : string) (m : regexp.Match) :
  regexp.find re pos s = Some m ->
  groups_within (regexp.mstart m) (regexp.mend m) (regexp.mgroups m).
Proof.
  intros H. apply find_leftmost in H as (a & t & _ & H & _).
  exact (exec_groups _ _ _ _ H).
Qed.

(** A slice of a slice. *)
Lemma take_take : forall k n s, (k <= n)%nat ->
  String.substring 0 k (String.substring 0 n s) = String.substring 0 k s.
Proof.
  induction k as [|k IH]; intros n s H.
  - now destruct n, s.
  - destruct n as [|n]; [lia|]. destruct s as [|c s]; [reflexivity|].
    simpl. f_equal. apply IH. lia.
Qed.

Lemma drop_take : forall i n s,
  drop_bytes i (String.substring 0 n s) = String.substring 0 (n - i) (drop_bytes i s).
Proof.
  induction i as [|i IH]; intros n s.
  - rewrite !drop_bytes_0. now rewrite Nat.sub_0_r.
  - destruct n as [|n].
    + destruct s as [|c s]; simpl; [reflexivity|]. now destruct (drop_bytes i s).
    + destruct s as [|c s]; simpl; [now destruct (n - i)%nat|]. apply IH.
Qed.

Lemma slice_slice (src : string) (lo hi b e : nat) :
  (lo <= b)%nat -> (b <= e)%nat -> (e <= hi)%nat ->
  slice src b e = String.substring (b - lo) (e - b) (slice src lo hi).
Proof.
  intros H1 H2 H3. unfold slice.
  rewrite (substring_drop (b - lo)), (substring_drop lo), drop_take, take_take by lia.
  rewrite <- drop_bytes_add. replace (lo + (b - lo))%nat with b by lia.
  apply substring_drop.
Qed.

Lemma take_drop : forall n s, String.substring 0 n s +:+ drop_bytes n s = s.
Proof.
  induction n as [|n IH]; intros [|c s]; simpl; try reflexivity.
  now rewrite IH.
Qed.

Lemma substring_inside (i n : nat) (s : string) :
  exists pre post, s = pre +:+ String.substring i n s +:+ post.
Proof.
  exists (String.substring 0 i s), (drop_bytes n (drop_bytes i s)).
  now rewrite (substring_drop i), take_drop, take_drop.
Qed.

(** A measure of byte strings that adds up over [+:+]: the length, the
    number of line feeds. *)
Section Measure.
Variable mu : string -> nat.
Hypothesis mu_app : forall a b, mu (a +:+ b) = (mu a + mu b)%nat.

Lemma mu_substring (i n : nat) (s : string) : (mu (String.substring i n s) <= mu s)%nat.
Proof.
  destruct (substring_inside i n s) as (pre & post & E).
  rewrite E at 2. rewrite !mu_app. lia.
Qed.

Lemma mu_submatch (src : string) (m : regexp.Match) (i : nat) :
  groups_within (regexp.mstart m) (regexp.mend m) (regexp.mgroups m) ->
  (mu (regexp.submatch src m i) <= mu (slice src (regexp.mstart m) (regexp.mend m)))%nat.
Proof.
  intros G. unfold regexp.submatch.
  destruct (regexp.group i (regexp.mgroups m)) as [[b e]|] eqn:E.
  - destruct (G _ _ _ E) as (H1 & H2 & H3).
    rewrite (slice_slice src (regexp.mstart m) (regexp.mend m)) by assumption.
    apply mu_substring.
  - pose proof (mu_app "" "") as H. simpl in H. lia.
Qed.

Lemma replaceAll_loop_measure (re : regexp.regex) (repl : regexp.Match -> string)
    (src : string) :
  (forall w, Lang re w -> w <> "") ->
  (forall m w, Lang re w -> slice src (regexp.mstart m) (regexp.mend m) = w ->
               groups_within (regexp.mstart m) (regexp.mend m) (regexp.mgroups m) ->
               (mu (repl m) <= mu w)%nat) ->
  forall fuel p, (p <= String.length src)%nat ->
    (mu (regexp.replaceAll_loop fuel re repl src p p) <= mu (drop_bytes p src))%nat.
Proof.
  intros Hne Hrepl. induction fuel as [|fuel IH]; intros p Hp; [reflexivity|].
  destruct (regexp.find re p (drop_bytes p src)) as [m|] eqn:F.
  - pose proof (find_groups _ _ _ _ F) as G.
    destruct (find_sound _ _ _ _ F) as (a & w & t & Hd & L & E1 & E2).
    destruct (replaceAll_loop_some fuel _ repl src p m a w t Hp F Hd E1 E2 (Hne _ L))
      as (-> & Ht & Le & _ & Hs).
    specialize (IH _ Le). rewrite Ht in IH.
    specialize (Hrepl m w L Hs G).
    rewrite Hd, !mu_app. lia.
  - now rewrite (replaceAll_loop_none _ _ _ _ _ F).
Qed.

Lemma ReplaceAll_group1_measure (rs : list regexp.regex) (src : string) :
  hd regexp.Eps rs = regexp.Lit "{{" ->
  List.last (tl rs) regexp.Eps = regexp.Lit "}}" ->
  tl rs <> [] ->
  (mu (regexp.ReplaceAll_group1 (regexp.seq rs) src) <= mu src)%nat.
Proof.
  intros H1 H2 H3. unfold regexp.ReplaceAll_group1.
  etransitivity; [apply replaceAll_loop_measure; [| |lia] | now rewrite drop_bytes_0].
  - intros w L. destruct (Lang_braces _ _ H1 H2 H3 L) as (u & ->). discriminate.
  - intros m w _ <- G. now apply mu_submatch.
Qed.

Hypothesis mu_placeholder : (mu "TMPL" <= mu "{{" + mu "}}")%nat.

Lemma ReplaceAllFunc_templatePattern_measure (src : string) :
  (mu (regexp.ReplaceAllFunc parser.templatePattern src parser.replaceTemplate) <= mu src)%nat.
Proof.
  unfold regexp.ReplaceAllFunc.
  etransitivity; [apply replaceAll_loop_measure; [| |lia] | now rewrite drop_bytes_0].
  - intros w L. unfold parser.templatePattern in L.
    apply Lang_braces in L as (u & ->); [discriminate|reflexivity|reflexivity|discriminate].
  - intros m w L -> _. unfold parser.templatePattern in L.
    apply Lang_braces in L as (u & ->); [|reflexivity|reflexivity|discriminate].
    rewrite !mu_app.
    destruct (replaceTemplate_cases ("{{" +:+ u +:+ "}}")) as [-> | ->]; [|lia].
    pose proof (mu_app "" "") as H. simpl in H. lia.
Qed.

Lemma Process_measure (input : string) : (mu (parser.processed_bytes input) <= mu input)%nat.
Proof.
  unfold parser.processed_bytes, parser.Process. cbn [fst].
  unfold parser.ifEndPattern, parser.ifElseEndPattern.
  etransitivity; [apply ReplaceAllFunc_templatePattern_measure|].
  etransitivity;
    [apply ReplaceAll_group1_measure; [reflexivity|reflexivity|discriminate]|].
  apply ReplaceAll_group1_measure; [reflexivity|reflexivity|discriminate].
Qed.
End Measure.

(** X3.  [Process] never makes its input longer and never adds a line: the
    bytes it returns are at most as many as the input's, and so are the
    line feeds among them. *)
Theorem Process_never_grows (input : string) :
  (String.length (parser.processed_bytes input) <= String.length input)%nat
  /\ (countLF (parser.processed_bytes input) <= countLF input)%nat.
Proof.
  split.
  - apply Process_measure; [apply str_length_app | simpl; lia].
  - apply Process_measure; [apply countLF_app | simpl; lia].
Qed.

(** X4.  Input with no opening double brace goes through [Process]
    untouched: the bytes returned are the input, the source map holds the
    input twice and the error is nil. *)
Theorem Process_plain_html (input : string) :
  strings.Contains input "{{" = false ->
  parser.Process input = (input, parser.mkSourceMap input input, None).
Proof.
  intros H. apply no_open_no_directive in H.
  pose proof (Process_fixes_directive_free _ H) as E.
  unfold parser.processed_bytes in E. unfold parser.Process in *. cbn [fst] in E.
  now rewrite E.
Qed.

Lemma Process_plain_html_witness :
  strings.Contains "<p class='a'>{ x }</p>" "{{" = false
  /\ parser.Process "<p class='a'>{ x }</p>"
     = ("<p class='a'>{ x }</p>",
        parser.mkSourceMap "<p class='a'>{ x }</p>" "<p class='a'>{ x }</p>", None).
Proof.
  split; [reflexivity|]. apply (Process_plain_html "<p class='a'>{ x }</p>"). reflexivity.
Defined.

(** ** Traversal of the tree *)

Lemma visit_until_app {St : Type} (fn : @parser.WalkFunc St) (l1 l2 : list parser.Node) :
  forall st,
    visit_until fn (l1 ++ l2) st
    = let '(ok, st') := visit_until fn l1 st in
      if ok then visit_until fn l2 st' else (false, st').
Proof.
  induction l1 as [|n l1 IH]; intros st; cbn [visit_until app]; [reflexivity|].
  destruct (fn n st) as [[|] st1]; [apply IH | reflexivity].
Qed.

(** X5.  [walk] calls the callback on the nodes of the tree in document
    order, a node before its children, and stops for good at the first node
    where the callback returns [false]: no node after it is visited, and
    [walk] then returns [false]. *)
Theorem walk_visits_in_document_order_until_stopped {St : Type}
    (fn : @parser.WalkFunc St) (n : parser.Node) (st : St) :
  parser.walk fn n st = visit_until fn (allNodes n) st.
Proof.
  revert st. induction n as [h l c children IH] using parser_Node_ind'. intros st.
  cbn [parser.walk allNodes visit_until].
  destruct (fn (parser.mkNode h l c children) st) as [[|] st1]; cbn [negb]; [|reflexivity].
  revert st1. induction IH as [|k ks Hk _ IHks]; intros st1; [reflexivity|].
  cbn [flat_map]. rewrite visit_until_app, Hk.
  destruct (visit_until fn (allNodes k) st1) as [[|] st2]; cbn [negb]; [apply IHks | reflexivity].
Qed.

(** ** The tree that [buildNodeTree] builds *)

(** X6.  [buildNodeTree] wraps every node of the parsed tree once and keeps
    the document order: the parsed nodes behind the nodes of the built tree
    are the nodes of the parsed tree, in the same order. *)
Theorem buildNodeTree_keeps_document_order (n : html.Node) (parent : option parser.Node) :
  List.map parser.Node_ (allNodes (parser.buildNodeTree n parent)) = html_allNodes n.
Proof.
  revert parent. induction n as [t d a kids IH] using html_Node_ind'. intros parent.
  cbn [parser.buildNodeTree allNodes html_allNodes List.map parser.Node_]. f_equal.
  generalize (Some (parser.mkNode (html.mkNode t d a kids)
                      match parent with Some p => parser.Line p | None => 1 end
                      match parent with Some p => parser.Col p | None => 1 end [])).
  intros node. induction IH as [|k ks Hk _ IHks]; [reflexivity|].
  cbn [List.map flat_map]. now rewrite map_app, Hk, IHks.
Qed.

(** ** Text content *)

Lemma textOf_app (l1 l2 : list parser.Node) :
  textOf (l1 ++ l2) = textOf l1 +:+ textOf l2.
Proof.
  induction l1 as [|x xs IH]; [reflexivity|].
  cbn [app textOf]. now rewrite IH, str_app_assoc.
Qed.

Lemma collectText_textOf (n : parser.Node) :
  forall buf, parser.collectText n buf = buf +:+ textOf (allNodes n).
Proof.
  induction n as [h l c children IH] using parser_Node_ind'. intros buf.
  cbn [parser.collectText allNodes textOf].
  set (own := if html.NodeType_eqb _ html.TextNode then _ else "").
  replace (if html.NodeType_eqb (parser.Type_ (parser.mkNode h l c children)) html.TextNode
           then buf +:+ parser.Data (parser.mkNode h l c children) else buf)
    with (buf +:+ own)
    by (subst own; destruct (html.NodeType_eqb _ _); [reflexivity | apply str_app_nil_r]).
  rewrite <- str_app_assoc. generalize (buf +:+ own). clear own buf.
  induction IH as [|k ks Hk _ IHks]; intros buf; cbn [flat_map textOf].
  - now rewrite str_app_nil_r.
  - now rewrite IHks, Hk, textOf_app, str_app_assoc.
Qed.

(** X7.  [TextContent] is the data of the text nodes of the subtree, put
    together in document order and then trimmed of the white space around
    it; the data of elements, comments and other nodes is left out. *)
Theorem TextContent_is_trimmed_text_in_document_order (n : parser.Node) :
  parser.TextContent n = strings.TrimSpace (textOf (allNodes n)).
Proof. unfold parser.TextContent. now rewrite collectText_textOf. Qed.

(** ** Attributes *)

(** X8.  Attribute lookup: [HasAttr] holds exactly when some attribute of
    the node has the name, compared without regard to case; [GetAttr]
    returns the value of the first such attribute, so a repeated attribute
    reads as its first occurrence; and the empty string stands for a
    missing attribute. *)
Theorem GetAttr_reads_first_match (n : parser.Node) (name : string) :
  (parser.HasAttr n name = true
   <-> exists a, In a (parser.Attr n) /\ strings.EqualFold (html.Key a) name = true)
  /\ (parser.HasAttr n name = false -> parser.GetAttr n name = "")
  /\ (forall pre a post,
        parser.Attr n = pre ++ a :: post ->
        Forall (fun x => strings.EqualFold (html.Key x) name = false) pre ->
        strings.EqualFold (html.Key a) name = true ->
        parser.GetAttr n name = html.Val a).
Proof.
  unfold parser.HasAttr, parser.GetAttr. generalize (parser.Attr n). intros attrs.
  split; [|split].
  - induction attrs as [|x attrs IH]; cbn [parser.HasAttr_loop].
    + split; [discriminate | intros (a & [] & _)].
    + destruct (strings.EqualFold (html.Key x) name) eqn:E.
      * split; [|reflexivity]. intros _. exists x. split; [now left | exact E].
      * rewrite IH. split.
        -- intros (a & Ha & Ea). exists a. split; [now right | exact Ea].
        -- intros (a & [<- | Ha] & Ea); [congruence | now exists a].
  - induction attrs as [|x attrs IH]; cbn [parser.HasAttr_loop parser.GetAttr_loop];
      [reflexivity|].
    destruct (strings.EqualFold (html.Key x) name); [discriminate | exact IH].
  - intros pre a post -> Hpre Ha.
    induction Hpre as [|x pre Hx _ IH]; cbn [app parser.GetAttr_loop].
    + now rewrite Ha.
    + now rewrite Hx.
Qed.

(** ** valid-for: the map of ids and the results *)

Lemma hasId_dec (X : string) (n : parser.Node) : {hasId X n} + {~ hasId X n}.
Proof.
  unfold hasId.
  destruct (html.NodeType_eqb (parser.Type_ n) html.ElementNode) eqn:Et.
  - apply NodeType_eqb_eq in Et.
    destruct (String.eqb_spec (parser.GetAttr n "id") X) as [E|E]; [left | right]; tauto.
  - right. intros [Ht _]. apply NodeType_eqb_eq in Ht. congruence.
Qed.

Lemma ValidFor_collect_no_empty_id (n : parser.Node) (m : gmap string parser.Node) :
  (rules.ValidFor_collect n m).2 !! "" = m !! "".
Proof.
  unfold rules.ValidFor_collect.
  destruct (_ && _); [|reflexivity].
  destruct (String.eqb_spec (parser.GetAttr n "id") "") as [E|E]; [reflexivity|].
  cbn [negb snd]. now apply lookup_insert_ne.
Qed.

Lemma collect_fold_lookup (X : string) (l : list parser.Node) :
  match fold_left (fun m n => (rules.ValidFor_collect n m).2) l ∅ !! X with
  | Some n =>
      X <> "" /\ hasId X n
      /\ exists pre post, l = pre ++ n :: post /\ forall k, In k post -> ~ hasId X k
  | None => X = "" \/ forall n, In n l -> ~ hasId X n
  end.
Proof.
  induction l as [|x l IH] using rev_ind.
  - cbn [fold_left]. rewrite lookup_empty. right. intros n [].
  - rewrite fold_left_app. cbn [fold_left].
    set (m := fold_left _ l ∅) in *.
    destruct (String.eqb_spec X "") as [-> | HX].
    + rewrite ValidFor_collect_no_empty_id.
      destruct (m !! "") as [n|]; [now destruct IH | now left].
    + destruct (ValidFor_collect_lookup X x m HX) as [Hyes Hno].
      destruct (hasId_dec X x) as [Hx | Hx].
      * rewrite (Hyes Hx). split; [exact HX|]. split; [exact Hx|].
        exists l, []. split; [reflexivity | intros k []].
      * rewrite (Hno Hx). destruct (m !! X) as [n|].
        -- destruct IH as (_ & Hn & pre & post & -> & Hpost).
           split; [exact HX|]. split; [exact Hn|].
           exists pre, (post ++ [x]). split; [now rewrite <- app_assoc|].
           intros k Hk. apply in_app_or in Hk as [Hk | [<- | []]]; auto.
        -- right. destruct IH as [IH | IH]; [contradiction|].
           intros k Hk. apply in_app_or in Hk as [Hk | [<- | []]]; auto.
Qed.

(** X9.  The map that the first traversal of [ValidFor.Check] fills: an id
    is mapped to an element of the document that has this id, and to the
    last one in document order when several have it; the empty id is never
    stored; and an id is missing from the map only when it is empty or no
    element of the document has it. *)
Theorem ValidFor_idMap_maps_id_to_last_element (doc : parser.Document) (X : string) :
  match ValidFor_idMap doc !! X with
  | Some n =>
      X <> "" /\ hasId X n
      /\ exists pre post,
           docNodes doc = pre ++ n :: post /\ forall k, In k post -> ~ hasId X k
  | None => X = "" \/ forall n, In n (docNodes doc) -> ~ hasId X n
  end.
Proof. rewrite ValidFor_idMap_fold. apply collect_fold_lookup. Qed.

Lemma labelDiagnostics_cases RuleValidFor IsTemplateExpr doc n :
  labelDiagnostics RuleValidFor IsTemplateExpr doc n = []
  \/ (parser.IsElement n "label" = true
      /\ parser.GetAttr n "for" <> ""
      /\ IsTemplateExpr (parser.GetAttr n "for") = false
      /\ ValidFor_idMap doc !! parser.GetAttr n "for" <> None
      /\ exists msg,
           labelDiagnostics RuleValidFor IsTemplateExpr doc n
           = [rules.mkResult RuleValidFor msg (parser.Filename doc)
                (parser.Line n) (parser.Col n) rules.Error]).
Proof.
  unfold labelDiagnostics, rules.ValidFor_visit.
  destruct (html.NodeType_eqb (parser.Type_ n) html.ElementNode); [|now left].
  destruct (parser.IsElement n "label"); [|now left]. cbn [negb orb].
  destruct (String.eqb_spec (parser.GetAttr n "for") "") as [E|E]; [now left|].
  destruct (IsTemplateExpr (parser.GetAttr n "for")); [now left|].
  destruct (ValidFor_idMap doc !! parser.GetAttr n "for") as [target|]; [|now left].
  cbn zeta.
  destruct (negb (rules.has rules.labelableElements _)).
  { right. repeat (split; [congruence|]). eexists. reflexivity. }
  destruct (String.eqb _ "input"); [|now left].
  destruct (String.eqb _ "hidden"); [|now left].
  right. repeat (split; [congruence|]). eexists. reflexivity.
Qed.

(** X10.  What [ValidFor.Check] returns: every result is an Error of the
    rule, carries the file name of the document and stands at the line and
    column of a label element of the document whose [for] attribute is not
    empty, is not a template expression and names an id of the document;
    and there are at most as many results as such labels, one per label at
    most. *)
Theorem ValidFor_Check_reports_labels_only (RuleValidFor : string)
    (IsTemplateExpr : string -> bool) (doc : parser.Document) :
  let results := rules.ValidFor_Check RuleValidFor IsTemplateExpr doc in
  let reportable (n : parser.Node) : Prop :=
    parser.IsElement n "label" = true
    /\ parser.GetAttr n "for" <> ""
    /\ IsTemplateExpr (parser.GetAttr n "for") = false
    /\ ValidFor_idMap doc !! parser.GetAttr n "for" <> None in
  Forall (fun r =>
            rules.Rule r = RuleValidFor
            /\ rules.Severity_ r = rules.Error
            /\ rules.Filename r = parser.Filename doc
            /\ exists label, In label (docNodes doc) /\ reportable label
                 /\ rules.Line r = parser.Line label /\ rules.Col r = parser.Col label)
         results
  /\ (length results
      <= length (List.filter (fun n => parser.IsElement n "label") (docNodes doc)))%nat.
Proof.
  cbv zeta. rewrite ValidFor_Check_flat_map. split.
  - apply Forall_flat_map. apply List.Forall_forall. intros n Hn.
    destruct (labelDiagnostics_cases RuleValidFor IsTemplateExpr doc n)
      as [-> | (H1 & H2 & H3 & H4 & msg & ->)]; [constructor|].
    constructor; [|constructor]. cbn. repeat (split; [reflexivity|]).
    exists n. split; [exact Hn|]. split; [exact (conj H1 (conj H2 (conj H3 H4)))|].
    split; reflexivity.
  - induction (docNodes doc) as [|n l IH]; [reflexivity|].
    cbn [flat_map List.filter]. rewrite length_app.
    destruct (labelDiagnostics_cases RuleValidFor IsTemplateExpr doc n)
      as [-> | (H1 & _ & _ & _ & msg & ->)].
    + cbn [length]. destruct (parser.IsElement n "label"); cbn [length]; lia.
    + rewrite H1. cbn [length]. lia.
Qed.

(** ** htmx attributes: where the results stand *)

Lemma fold_left_Forall {A B : Type} (P : A -> Prop) (step : list A -> B -> list A)
    (l : list B) :
  (forall acc x, In x l -> Forall P acc -> Forall P (step acc x)) ->
  forall init, Forall P init -> Forall P (fold_left step l init).
Proof.
  induction l as [|x l IH]; intros Hstep init Hinit; cbn [fold_left]; [exact Hinit|].
  apply IH.
  - intros acc y Hy. apply Hstep. now right.
  - apply Hstep; [now left | exact Hinit].
Qed.

Ltac results_at :=
  repeat first
    [ assumption
    | match goal with
      | |- Forall _ [] => constructor
      | |- Forall _ (_ :: _) => constructor; [repeat split; reflexivity|]
      | |- Forall _ (_ ++ _) => apply Forall_app_2
      | |- Forall _ (fold_left _ _ _) => apply fold_left_Forall; [intros ? ? _ ?|]
      | |- context [if ?b then _ else _] => destruct b
      | |- context [match ?o with Some _ => _ | None => _ end] => destruct o
      | |- context [match ?l with [] => _ | _ :: _ => _ end] => destruct l
      end ].

Section ResultsAt.
Variable RuleHTMXAttributes : string.
Variable r : rules.HTMXAttributes.
Variable filename : string.
Variable n : parser.Node.

Lemma validateSwap_at (value : string) :
  Forall (reportedAt RuleHTMXAttributes filename n)
    (rules.validateSwap RuleHTMXAttributes r filename n value).
Proof. unfold rules.validateSwap, rules.validateSwap_modifier. results_at. Qed.

Lemma validateSingleTrigger_at (trigger : string) :
  Forall (reportedAt RuleHTMXAttributes filename n)
    (rules.validateSingleTrigger RuleHTMXAttributes r filename n trigger).
Proof.
  unfold rules.validateSingleTrigger, rules.validateSingleTrigger_intersect,
    rules.validateSingleTrigger_modifier.
  results_at.
Qed.

Lemma validateTrigger_at (value : string) :
  Forall (reportedAt RuleHTMXAttributes filename n)
    (rules.validateTrigger RuleHTMXAttributes r filename n value).
Proof.
  unfold rules.validateTrigger.
  destruct (String.eqb value ""); [constructor|].
  destruct (_ || _); [constructor|].
  apply fold_left_Forall; [|constructor].
  intros acc x _ Hacc. cbn zeta.
  destruct (String.eqb _ ""); [exact Hacc|].
  apply Forall_app_2; [exact Hacc | apply validateSingleTrigger_at].
Qed.

Lemma validateTarget_at (value : string) :
  Forall (reportedAt RuleHTMXAttributes filename n)
    (rules.validateTarget RuleHTMXAttributes r filename n value).
Proof. unfold rules.validateTarget. results_at. Qed.

Lemma validateHxOn_at (attrKey : string) :
  Forall (reportedAt RuleHTMXAttributes filename n)
    (rules.validateHxOn RuleHTMXAttributes r filename n attrKey).
Proof.
  unfold rules.validateHxOn, rules.validateHTMXEvent, rules.validateHTMXv4Event.
  results_at.
Qed.
End ResultsAt.

(** What the callback of [HTMXAttributes.Check] appends at a node stands at
    this node, which then is an element with a checked attribute. *)
Lemma HTMXAttributes_visit_at RuleHTMXAttributes r doc (n : parser.Node)
    (P : rules.Result -> Prop) :
  (forall res, reportedAt RuleHTMXAttributes (parser.Filename doc) n res ->
               hasCheckedAttr n -> P res) ->
  forall results, Forall P results ->
    Forall P (rules.HTMXAttributes_visit RuleHTMXAttributes r doc n results).2.
Proof.
  intros HP results Hres. unfold rules.HTMXAttributes_visit.
  destruct (html.NodeType_eqb (parser.Type_ n) html.ElementNode) eqn:Et; [|exact Hres].
  apply NodeType_eqb_eq in Et. cbn [negb snd].
  apply fold_left_Forall; [|exact Hres].
  intros acc a Ha Hacc. cbn zeta.
  destruct (strings.HasPrefix (strings.ToLower (html.Key a)) "hx-") eqn:Ehx;
    [|exact Hacc].
  cbn [negb]. apply Forall_app_2; [exact Hacc|].
  assert (Hat : forall l, Forall (reportedAt RuleHTMXAttributes (parser.Filename doc) n) l ->
                checkedAttr a = true -> Forall P l).
  { intros l Hl Hc. eapply Forall_impl; [exact Hl|].
    intros res Hr. apply HP; [exact Hr|]. split; [exact Et|]. now exists a. }
  unfold checkedAttr in Hat. rewrite Ehx in Hat. cbn [andb] in Hat.
  destruct (String.eqb _ "hx-swap");
    [apply Hat; [apply validateSwap_at | reflexivity]|].
  destruct (String.eqb _ "hx-trigger");
    [apply Hat; [apply validateTrigger_at | reflexivity]|].
  destruct (String.eqb _ "hx-target");
    [apply Hat; [apply validateTarget_at | reflexivity]|].
  destruct (strings.HasPrefix _ "hx-on:");
    [apply Hat; [apply validateHxOn_at | reflexivity]|].
  destruct (strings.HasPrefix _ "hx-on-");
    [apply Hat; [apply validateHxOn_at | reflexivity]|].
  constructor.
Qed.

Lemma HTMXAttributes_visit_goes_on RuleHTMXAttributes r doc n results :
  (rules.HTMXAttributes_visit RuleHTMXAttributes r doc n results).1 = true.
Proof. unfold rules.HTMXAttributes_visit. now destruct (negb _). Qed.

Lemma HTMXAttributes_Check_at RuleHTMXAttributes r doc (P : rules.Result -> Prop) :
  (forall n res, In n (docNodes doc) ->
     reportedAt RuleHTMXAttributes (parser.Filename doc) n res ->
     hasCheckedAttr n -> P res) ->
  Forall P (rules.HTMXAttributes_Check RuleHTMXAttributes r doc).
Proof.
  intros HP. unfold rules.HTMXAttributes_Check.
  destruct (negb (rules.htmxEnabled r)); [constructor|].
  rewrite Walk_fold by (intros; apply HTMXAttributes_visit_goes_on).
  apply fold_left_Forall; [|constructor].
  intros acc n Hn Hacc. apply HTMXAttributes_visit_at; [|exact Hacc].
  intros res. now apply HP.
Qed.

(** *** The later state of the rule *)

(** A callback that never stops the traversal is folded over the nodes in
    document order, each with its parents. *)
Lemma walkWithParents_fold {St : Type} (fn : @parser.WalkFuncWithParents St) :
  (forall ps n st, (fn ps n st).1 = true) ->
  forall n ps st,
    parser.walkWithParents fn ps n st
    = (true, fold_left (fun st pm => (fn pm.1 pm.2 st).2) (allNodesWithParents ps n) st).
Proof.
  intros Hfn. induction n as [h l c children IH] using parser_Node_ind'. intros ps st.
  cbn [parser.walkWithParents allNodesWithParents fold_left fst snd].
  pose proof (Hfn ps (parser.mkNode h l c children) st) as Hgo.
  destruct (fn ps (parser.mkNode h l c children) st) as [go st1]. cbn in Hgo. subst go.
  cbn [negb snd]. revert st1. generalize (parser.mkNode h l c children :: ps).
  intros ps'. induction IH as [|k ks Hk _ IHks]; intros st1; [reflexivity|].
  rewrite Hk. cbn [negb flat_map]. rewrite fold_left_app. apply IHks.
Qed.

Lemma WalkWithParents_fold {St : Type} (fn : @parser.WalkFuncWithParents St)
    (doc : parser.Document) (st : St) :
  (forall ps n st, (fn ps n st).1 = true) ->
  parser.WalkWithParents doc fn st
  = fold_left (fun st pm => (fn pm.1 pm.2 st).2) (docNodesWithParents doc) st.
Proof.
  intros Hfn. unfold parser.WalkWithParents, docNodesWithParents.
  destruct (parser.Root doc) as [root|]; [|reflexivity].
  now rewrite walkWithParents_fold.
Qed.

(** The nodes that go with their parents are the nodes of the tree, and
    the parents of a node are nodes of the tree too. *)
Lemma allNodesWithParents_nodes (n : parser.Node) : forall ps,
  List.map snd (allNodesWithParents ps n) = allNodes n.
Proof.
  induction n as [h l c children IH] using parser_Node_ind'. intros ps.
  cbn [allNodesWithParents allNodes List.map snd]. f_equal.
  generalize (parser.mkNode h l c children :: ps). intros ps'.
  induction IH as [|k ks Hk _ IHks]; [reflexivity|].
  cbn [flat_map]. now rewrite map_app, Hk, IHks.
Qed.

Lemma allNodesWithParents_parents (n : parser.Node) : forall ps0 ps m p,
  In (ps, m) (allNodesWithParents ps0 n) -> In p ps -> In p ps0 \/ In p (allNodes n).
Proof.
  induction n as [h l c children IH] using parser_Node_ind'. intros ps0 ps m p.
  cbn [allNodesWithParents allNodes]. intros [E | H] Hp.
  - injection E as <- _. now left.
  - apply in_flat_map in H as (k & Hk & H).
    rewrite List.Forall_forall in IH.
    destruct (IH k Hk _ _ _ _ H Hp) as [[<- | Hp0] | Hpk].
    + right. now left.
    + now left.
    + right. right. apply in_flat_map. now exists k.
Qed.

Lemma docNodesWithParents_nodes (doc : parser.Document) (ps : list parser.Node)
    (n : parser.Node) :
  In (ps, n) (docNodesWithParents doc) ->
  In n (docNodes doc) /\ forall p, In p ps -> In p (docNodes doc).
Proof.
  unfold docNodesWithParents, docNodes.
  destruct (parser.Root doc) as [root|]; [|intros []]. intros H. split.
  - rewrite <- (allNodesWithParents_nodes root []).
    change n with (snd (ps, n)). now apply in_map.
  - intros p Hp.
    destruct (allNodesWithParents_parents _ _ _ _ _ H Hp) as [[] | Hin]. exact Hin.
Qed.

Lemma checkedAttr_later (a : html.Attribute) :
  checkedAttr a = true -> checkedAttrLater a = true.
Proof. intros H. unfold checkedAttrLater. now rewrite H. Qed.

Lemma validateJSON_at RuleHTMXAttributes json_Unmarshal strconv_FormatInt r filename n
    (attrName value : string) :
  Forall (reportedAt RuleHTMXAttributes filename n)
    (rules.later.validateJSON RuleHTMXAttributes json_Unmarshal strconv_FormatInt r
       filename n attrName value).
Proof. unfold rules.later.validateJSON. results_at. Qed.

(** A request attribute found on the node is one of its attributes. *)
Lemma requestAttr_found (attrs : list html.Attribute) : forall init,
  let requestAttr :=
    fold_left
      (fun requestAttr attr =>
         let attrName := strings.ToLower (html.Key attr) in
         if String.eqb attrName "hx-get" || String.eqb attrName "hx-post"
            || String.eqb attrName "hx-put" || String.eqb attrName "hx-patch"
            || String.eqb attrName "hx-delete"
         then attrName else requestAttr)
      attrs init in
  requestAttr = init \/ exists a, In a attrs /\ checkedAttrLater a = true.
Proof.
  induction attrs as [|a attrs IH]; intros init; cbn [fold_left]; [now left|].
  cbv zeta in IH.
  match goal with |- context [fold_left ?f attrs ?i] => destruct (IH i) as [E | (b & Hb & Hc)] end.
  - rewrite E.
    destruct (String.eqb _ "hx-get" || _ || _ || _ || _) eqn:Er; [|now left].
    right. exists a. split; [now left|]. unfold checkedAttrLater. cbv zeta.
    destruct (checkedAttr a), (String.eqb _ "hx-vals"), (String.eqb _ "hx-headers");
      cbn [orb]; try reflexivity; exact Er.
  - right. exists b. split; [now right | exact Hc].
Qed.

Lemma checkSubmitButtonInForm_at RuleHTMXAttributes r filename ps n res :
  rules.later.checkSubmitButtonInForm RuleHTMXAttributes r filename ps n = Some res ->
  reportedAt RuleHTMXAttributes filename n res
  /\ (exists a, In a (parser.Attr n) /\ checkedAttrLater a = true)
  /\ rules.later.isInsideForm r ps = true.
Proof.
  unfold rules.later.checkSubmitButtonInForm. cbv zeta.
  destruct (negb _); [discriminate|].
  pose proof (requestAttr_found (parser.Attr n) "") as Hreq. cbv zeta in Hreq.
  destruct (String.eqb_spec
              (fold_left
                 (fun requestAttr attr =>
                    if String.eqb (strings.ToLower (html.Key attr)) "hx-get"
                       || String.eqb (strings.ToLower (html.Key attr)) "hx-post"
                       || String.eqb (strings.ToLower (html.Key attr)) "hx-put"
                       || String.eqb (strings.ToLower (html.Key attr)) "hx-patch"
                       || String.eqb (strings.ToLower (html.Key attr)) "hx-delete"
                    then strings.ToLower (html.Key attr) else requestAttr)
                 (parser.Attr n) "") "") as [E|E]; [discriminate|].
  destruct (rules.later.isInsideForm r ps); [|discriminate]. cbn [negb].
  intros H. injection H as <-. split; [repeat split|]. split; [|reflexivity].
  destruct Hreq as [Hreq | Hreq]; [contradiction | exact Hreq].
Qed.

Lemma later_visit_at RuleHTMXAttributes json_Unmarshal strconv_FormatInt r doc
    (ps : list parser.Node) (n : parser.Node) (P : rules.Result -> Prop) :
  (forall res, reportedAt RuleHTMXAttributes (parser.Filename doc) n res ->
               hasCheckedAttrLater n -> P res) ->
  forall results, Forall P results ->
    Forall P (rules.later.HTMXAttributes_visit RuleHTMXAttributes json_Unmarshal
                strconv_FormatInt r doc ps n results).2.
Proof.
  intros HP results Hres. unfold rules.later.HTMXAttributes_visit.
  destruct (html.NodeType_eqb (parser.Type_ n) html.ElementNode) eqn:Et; [|exact Hres].
  apply NodeType_eqb_eq in Et. cbn [negb]. cbv zeta.
  assert (Hloop : Forall P
            (fold_left
               (fun results attr =>
                  if negb (strings.HasPrefix (strings.ToLower (html.Key attr)) "hx-")
                  then results
                  else
                    results ++
                    (if String.eqb (strings.ToLower (html.Key attr)) "hx-swap"
                     then rules.validateSwap RuleHTMXAttributes r (parser.Filename doc) n
                            (html.Val attr)
                     else if String.eqb (strings.ToLower (html.Key attr)) "hx-trigger"
                     then rules.validateTrigger RuleHTMXAttributes r (parser.Filename doc) n
                            (html.Val attr)
                     else if String.eqb (strings.ToLower (html.Key attr)) "hx-target"
                     then rules.validateTarget RuleHTMXAttributes r (parser.Filename doc) n
                            (html.Val attr)
                     else if strings.HasPrefix (strings.ToLower (html.Key attr)) "hx-on:"
                             || strings.HasPrefix (strings.ToLower (html.Key attr)) "hx-on-"
                     then rules.validateHxOn RuleHTMXAttributes r (parser.Filename doc) n
                            (html.Key attr)
                     else if String.eqb (strings.ToLower (html.Key attr)) "hx-vals"
                             || String.eqb (strings.ToLower (html.Key attr)) "hx-headers"
                     then rules.later.validateJSON RuleHTMXAttributes json_Unmarshal
                            strconv_FormatInt r (parser.Filename doc) n
                            (strings.ToLower (html.Key attr)) (html.Val attr)
                     else []))
               (parser.Attr n) results)).
  { apply fold_left_Forall; [|exact Hres].
    intros acc a Ha Hacc.
    destruct (strings.HasPrefix (strings.ToLower (html.Key a)) "hx-") eqn:Ehx;
      [|exact Hacc].
    cbn [negb]. apply Forall_app_2; [exact Hacc|].
    assert (Hat : forall l,
              Forall (reportedAt RuleHTMXAttributes (parser.Filename doc) n) l ->
              checkedAttrLater a = true -> Forall P l).
    { intros l Hl Hc. eapply Forall_impl; [exact Hl|].
      intros res Hr. apply HP; [exact Hr|]. split; [exact Et|]. now exists a. }
    unfold checkedAttrLater, checkedAttr in Hat. cbv zeta in Hat.
    rewrite Ehx in Hat. cbn [andb] in Hat.
    destruct (String.eqb _ "hx-swap");
      [apply Hat; [apply validateSwap_at | reflexivity]|].
    destruct (String.eqb _ "hx-trigger");
      [apply Hat; [apply validateTrigger_at | reflexivity]|].
    destruct (String.eqb _ "hx-target");
      [apply Hat; [apply validateTarget_at | reflexivity]|].
    destruct (strings.HasPrefix _ "hx-on:");
      [apply Hat; [apply validateHxOn_at | reflexivity]|].
    destruct (strings.HasPrefix _ "hx-on-");
      [apply Hat; [apply validateHxOn_at | reflexivity]|].
    destruct (String.eqb _ "hx-vals");
      [apply Hat; [apply validateJSON_at | reflexivity]|].
    destruct (String.eqb _ "hx-headers");
      [apply Hat; [apply validateJSON_at | reflexivity]|].
    constructor. }
  destruct (rules.later.checkSubmitButtonInForm RuleHTMXAttributes r (parser.Filename doc)
              ps n) as [res|] eqn:Es; cbn [snd]; [|exact Hloop].
  apply Forall_app_2; [exact Hloop|]. constructor; [|constructor].
  apply checkSubmitButtonInForm_at in Es as (Hr & Ha & _).
  apply HP; [exact Hr | split; [exact Et | exact Ha]].
Qed.

Lemma later_visit_goes_on RuleHTMXAttributes json_Unmarshal strconv_FormatInt r doc ps n
    results :
  (rules.later.HTMXAttributes_visit RuleHTMXAttributes json_Unmarshal strconv_FormatInt
     r doc ps n results).1 = true.
Proof.
  unfold rules.later.HTMXAttributes_visit.
  destruct (negb _); [reflexivity|]. cbv zeta.
  now destruct (rules.later.checkSubmitButtonInForm _ _ _ _ _).
Qed.

Lemma later_Check_at RuleHTMXAttributes json_Unmarshal strconv_FormatInt r doc
    (P : rules.Result -> Prop) :
  (forall n res, In n (docNodes doc) ->
     reportedAt RuleHTMXAttributes (parser.Filename doc) n res ->
     hasCheckedAttrLater n -> P res) ->
  Forall P (rules.later.HTMXAttributes_Check RuleHTMXAttributes json_Unmarshal
              strconv_FormatInt r doc).
Proof.
  intros HP. unfold rules.later.HTMXAttributes_Check.
  destruct (negb (rules.htmxEnabled r)); [constructor|].
  rewrite WalkWithParents_fold by (intros; apply later_visit_goes_on).
  apply fold_left_Forall; [|constructor].
  intros acc [ps n] Hn Hacc. cbn [fst snd]. apply later_visit_at; [|exact Hacc].
  intros res. apply HP. now apply docNodesWithParents_nodes in Hn.
Qed.

(** X11.  What [HTMXAttributes.Check] returns, in both states of the rule:
    every result carries the id of the rule and the file name of the
    document, and stands at the line and column of an element of the
    document that has an attribute the rule looks at.  For the rule of
    [rules/htmx_attributes.go] these are [hx-swap], [hx-trigger],
    [hx-target] and the [hx-on] attributes, in any case of letters; for its
    later state also [hx-vals], [hx-headers] and the request attributes
    [hx-get], [hx-post], [hx-put], [hx-patch] and [hx-delete]. *)
Theorem HTMXAttributes_Check_reports_checked_attributes (RuleHTMXAttributes : string)
    (json_Unmarshal : string -> option json.error) (strconv_FormatInt : Z -> string)
    (r : rules.HTMXAttributes) (doc : parser.Document) :
  Forall (fun res =>
            exists n, In n (docNodes doc) /\ hasCheckedAttr n
                      /\ reportedAt RuleHTMXAttributes (parser.Filename doc) n res)
         (rules.HTMXAttributes_Check RuleHTMXAttributes r doc)
  /\ Forall (fun res =>
               exists n, In n (docNodes doc) /\ hasCheckedAttrLater n
                         /\ reportedAt RuleHTMXAttributes (parser.Filename doc) n res)
            (rules.later.HTMXAttributes_Check RuleHTMXAttributes json_Unmarshal
               strconv_FormatInt r doc).
Proof.
  split.
  - apply HTMXAttributes_Check_at. intros n res Hn Hr Hc. now exists n.
  - apply later_Check_at. intros n res Hn Hr Hc. now exists n.
Qed.

(** X12.  [HTMXAttributes.Check] is silent, in both states of the rule, on
    a document in which no element has an attribute the later state looks
    at: other attributes, [hx-boost] or [hx-select] among them, never bring
    a result, nor does a submit button in a form that has no request
    attribute. *)
Theorem HTMXAttributes_Check_silent_without_checked_attributes
    (RuleHTMXAttributes : string) (json_Unmarshal : string -> option json.error)
    (strconv_FormatInt : Z -> string) (r : rules.HTMXAttributes)
    (doc : parser.Document) :
  (forall n, In n (docNodes doc) -> ~ hasCheckedAttrLater n) ->
  rules.HTMXAttributes_Check RuleHTMXAttributes r doc = []
  /\ rules.later.HTMXAttributes_Check RuleHTMXAttributes json_Unmarshal strconv_FormatInt
       r doc = [].
Proof.
  intros Hno. split.
  - pose proof (HTMXAttributes_Check_at RuleHTMXAttributes r doc (fun _ => False)) as H.
    destruct (rules.HTMXAttributes_Check RuleHTMXAttributes r doc) as [|res l];
      [reflexivity|].
    exfalso. eapply (Forall_inv (P := fun _ => False)). apply H.
    intros n res' Hn _ (Ht & a & Ha & Hc). apply (Hno n Hn).
    split; [exact Ht|]. exists a. split; [exact Ha | now apply checkedAttr_later].
  - pose proof (later_Check_at RuleHTMXAttributes json_Unmarshal strconv_FormatInt r doc
                  (fun _ => False)) as H.
    destruct (rules.later.HTMXAttributes_Check _ _ _ r doc) as [|res l]; [reflexivity|].
    exfalso. eapply (Forall_inv (P := fun _ => False)). apply H.
    intros n res' Hn _ Hc. exact (Hno n Hn Hc).
Qed.

Lemma HTMXAttributes_Check_silent_witness :
  let doc :=
    fragment "test.html"
      [elem "form" [attr "hx-boost" "true"]
         [elem "button" [attr "type" "submit"; attr "hx-select" "#main"] [text "Save"]]] in
  (forall n, In n (docNodes doc) -> ~ hasCheckedAttrLater n)
  /\ rules.HTMXAttributes_Check "htmx-attributes" (rules.mkHTMXAttributes true "2") doc = []
  /\ rules.later.HTMXAttributes_Check "htmx-attributes" (fun _ => None) (fun _ => "")
       (rules.mkHTMXAttributes true "2") doc = [].
Proof.
  intros doc.
  assert (H : forall n, In n (docNodes doc) -> ~ hasCheckedAttrLater n).
  { intros n Hn (Ht & a & Ha & Hc). vm_compute in Hn.
    destruct Hn as [<- | [<- | [<- | [<- | []]]]]; try discriminate Ht;
      vm_compute in Ha;
      repeat (destruct Ha as [<- | Ha]; [vm_compute in Hc; discriminate Hc|]);
      destruct Ha. }
  split; [exact H|].
  exact (HTMXAttributes_Check_silent_without_checked_attributes "htmx-attributes"
           (fun _ => None) (fun _ => "") (rules.mkHTMXAttributes true "2") doc H).
Defined.

(** The later state of the rule on the documents of the test of submit
    buttons: a request attribute on a submit button inside a form gets the
    Warning, on the form itself, outside a form, on a button of type
    [button] or on a division it gets nothing; and [hx-vals] that is not
    JSON gets an Error. *)
Lemma later_Check_examples :
  let Check nodes :=
    rules.later.HTMXAttributes_Check "htmx-attributes"
      (fun value => if String.eqb value "not json"
                    then Some (json.SyntaxError "invalid character 'o' in literal null" 2)
                    else None)
      (fun offset => if offset =? 2 then "2" else "?")
      (rules.mkHTMXAttributes true "2") (fragment "test.html" nodes) in
  let warning requestAttr :=
    [rules.mkResult "htmx-attributes"
       (requestAttr +:+ " on submit button inside form may bypass form validation; consider moving to the form element")
       "test.html" 1 1 rules.Warning] in
  Check [elem "form" [attr "hx-post" "/api"]
           [elem "button" [attr "type" "submit"] [text "Submit"]]] = []
  /\ Check [elem "button" [attr "hx-post" "/api"] [text "Submit"]] = []
  /\ Check [elem "form" []
              [elem "button" [attr "type" "button"; attr "hx-post" "/api"] [text "Click"]]]
     = []
  /\ Check [elem "form" [] [elem "div" [attr "hx-post" "/api"] [text "Click"]]] = []
  /\ Check [elem "form" []
              [elem "button" [attr "type" "submit"; attr "hx-post" "/api"] [text "Submit"]]]
     = warning "hx-post"
  /\ Check [elem "form" [] [elem "button" [attr "hx-post" "/api"] [text "Submit"]]]
     = warning "hx-post"
  /\ Check [elem "form" []
              [elem "input" [attr "type" "submit"; attr "hx-post" "/api";
                             attr "value" "Submit"] []]]
     = warning "hx-post"
  /\ Check [elem "div" []
              [elem "form" []
                 [elem "button" [attr "type" "submit"; attr "hx-delete" "/api"]
                    [text "Delete"]]]]
     = warning "hx-delete"
  /\ Check [elem "div" [attr "hx-vals" "not json"] []]
     = [rules.mkResult "htmx-attributes"
          "hx-vals contains invalid JSON: syntax error at position 2" "test.html" 1 1
          rules.Error].
Proof. repeat split; vm_compute; reflexivity. Qed.

Lemma fold_left_ext_in {A B : Type} (f g : A -> B -> A) (l : list B) :
  (forall x, In x l -> forall a, f a x = g a x) ->
  forall a, fold_left f l a = fold_left g l a.
Proof.
  induction l as [|x l IH]; intros H a; cbn [fold_left]; [reflexivity|].
  rewrite (H x (or_introl eq_refl)). apply IH. intros y Hy. apply H. now right.
Qed.

Lemma fold_left_map {A B C : Type} (f : A -> C -> A) (h : B -> C) (l : list B) :
  forall a, fold_left f (List.map h l) a = fold_left (fun a x => f a (h x)) l a.
Proof. induction l as [|x l IH]; intros a; cbn [fold_left List.map]; [reflexivity | apply IH]. Qed.

Lemma isInsideForm_without_form (r : rules.HTMXAttributes) (ps : list parser.Node) :
  (forall p, In p ps -> parser.Type_ p = html.ElementNode ->
             strings.ToLower (parser.Data p) <> "form") ->
  rules.later.isInsideForm r ps = false.
Proof.
  induction ps as [|p ps IH]; intros H; cbn [rules.later.isInsideForm]; [reflexivity|].
  destruct (html.NodeType_eqb (parser.Type_ p) html.ElementNode) eqn:Et.
  - apply NodeType_eqb_eq in Et.
    destruct (String.eqb_spec (strings.ToLower (parser.Data p)) "form") as [E|_].
    + exfalso. exact (H p (or_introl eq_refl) Et E).
    + cbn [andb]. apply IH. intros q Hq. apply H. now right.
  - cbn [andb]. apply IH. intros q Hq. apply H. now right.
Qed.

(** X27.  The two states of the rule agree on a document in which no
    element has an [hx-vals] or [hx-headers] attribute, in any case of
    letters, and no element is a form: there [Check] of the later state
    returns what [Check] of [rules/htmx_attributes.go] returns. *)
Theorem HTMXAttributes_Check_states_agree (RuleHTMXAttributes : string)
    (json_Unmarshal : string -> option json.error) (strconv_FormatInt : Z -> string)
    (r : rules.HTMXAttributes) (doc : parser.Document) :
  (forall n a, In n (docNodes doc) -> parser.Type_ n = html.ElementNode ->
     In a (parser.Attr n) ->
     strings.ToLower (html.Key a) <> "hx-vals"
     /\ strings.ToLower (html.Key a) <> "hx-headers") ->
  (forall n, In n (docNodes doc) -> parser.Type_ n = html.ElementNode ->
     strings.ToLower (parser.Data n) <> "form") ->
  rules.later.HTMXAttributes_Check RuleHTMXAttributes json_Unmarshal strconv_FormatInt r doc
  = rules.HTMXAttributes_Check RuleHTMXAttributes r doc.
Proof.
  intros Hjson Hform. unfold rules.later.HTMXAttributes_Check, rules.HTMXAttributes_Check.
  destruct (negb (rules.htmxEnabled r)); [reflexivity|].
  rewrite WalkWithParents_fold by (intros; apply later_visit_goes_on).
  rewrite Walk_fold by (intros; apply HTMXAttributes_visit_goes_on).
  assert (Hnodes : docNodes doc = List.map snd (docNodesWithParents doc)).
  { unfold docNodes, docNodesWithParents. destruct (parser.Root doc) as [root|];
      [|reflexivity]. symmetry. apply allNodesWithParents_nodes. }
  rewrite Hnodes, fold_left_map. apply fold_left_ext_in.
  intros [ps n] Hn results. cbn [fst snd].
  apply docNodesWithParents_nodes in Hn as [Hn Hps].
  unfold rules.later.HTMXAttributes_visit, rules.HTMXAttributes_visit.
  destruct (html.NodeType_eqb (parser.Type_ n) html.ElementNode) eqn:Et; [|reflexivity].
  apply NodeType_eqb_eq in Et. cbn [negb]. cbv zeta.
  replace (rules.later.checkSubmitButtonInForm RuleHTMXAttributes r (parser.Filename doc)
             ps n) with (@None rules.Result).
  - cbn [snd]. apply fold_left_ext_in. intros a Ha acc.
    destruct (Hjson n a Hn Et Ha) as [Hv Hh].
    apply String.eqb_neq in Hv, Hh. now rewrite Hv, Hh.
  - symmetry. unfold rules.later.checkSubmitButtonInForm. cbv zeta.
    destruct (negb _); [reflexivity|]. destruct (String.eqb _ ""); [reflexivity|].
    rewrite isInsideForm_without_form; [reflexivity|].
    intros p Hp. apply Hform. now apply Hps.
Qed.

Lemma HTMXAttributes_Check_states_agree_witness :
  let doc :=
    fragment "test.html"
      [elem "div" [attr "hx-swap" "innerHTML ignoreTitle:true"]
         [elem "button" [attr "type" "submit"; attr "hx-post" "/api"] [text "Save"]]] in
  rules.later.HTMXAttributes_Check "htmx-attributes" (fun _ => None) (fun _ => "")
    (rules.mkHTMXAttributes true "2") doc
  = rules.HTMXAttributes_Check "htmx-attributes" (rules.mkHTMXAttributes true "2") doc
  /\ rules.HTMXAttributes_Check "htmx-attributes" (rules.mkHTMXAttributes true "2") doc
     = [rules.mkResult "htmx-attributes" "unknown hx-swap modifier 'ignoretitle'"
          "test.html" 1 1 rules.Warning].
Proof.
  intros doc. split; [|vm_compute; reflexivity].
  apply (HTMXAttributes_Check_states_agree "htmx-attributes" (fun _ => None)
           (fun _ => "") (rules.mkHTMXAttributes true "2") doc).
  - intros n a Hn Ht Ha. vm_compute in Hn.
    destruct Hn as [<- | [<- | [<- | [<- | []]]]]; try discriminate Ht;
      vm_compute in Ha;
      repeat (destruct Ha as [<- | Ha]; [split; vm_compute; discriminate|]);
      destruct Ha.
  - intros n Hn Ht. vm_compute in Hn.
    destruct Hn as [<- | [<- | [<- | [<- | []]]]]; try discriminate Ht;
      vm_compute; discriminate.
Defined.

(** ** htmx attributes: the validators *)

(** X13.  [validateTarget] never returns an Error and never more than one
    result: the one Warning it knows is for a value of several words whose
    first word is no keyword.  A value that, once trimmed, holds no space is
    never reported, whatever it is. *)
Theorem validateTarget_only_warns_about_keywords (RuleHTMXAttributes : string)
    (r : rules.HTMXAttributes) (filename : string) (n : parser.Node) (value : string) :
  let results := rules.validateTarget RuleHTMXAttributes r filename n value in
  (length results <= 1)%nat
  /\ Forall (fun res => rules.Severity_ res = rules.Warning) results
  /\ (strings.Contains (strings.TrimSpace value) " " = false -> results = []).
Proof.
  cbv zeta. unfold rules.validateTarget.
  destruct (String.eqb value ""); [repeat split; auto|].
  destruct (_ || _); [repeat split; auto|].
  cbv zeta.
  destruct (strings.Contains (strings.TrimSpace value) " ").
  - cbn [negb]. destruct (_ && _); repeat split; auto; discriminate.
  - cbn [negb].
    repeat match goal with |- context [if ?b then _ else _] => destruct b end;
      repeat split; auto.
Qed.

(** X14.  The [delay] and [throttle] modifiers of a trigger take a time
    value: for a modifier with a colon whose name is one of the two, in any
    case of letters, the loop over the modifiers adds nothing when the text
    after the colon is a time value (digits, one at least, and then [s] or
    [ms]) and one Error when it is not. *)
Theorem hx_trigger_delay_needs_time_value (RuleHTMXAttributes filename : string)
    (n : parser.Node) (results : list rules.Result) (modifier : string) (colonIdx : nat) :
  strings.HasPrefix modifier "[" = false ->
  strings.Index modifier ":" = Some colonIdx ->
  let modName := strings.ToLower (slice modifier 0 colonIdx) in
  let modValue := drop_bytes (colonIdx + 1) modifier in
  modName = "delay" \/ modName = "throttle" ->
  (time_value modValue ->
   rules.validateSingleTrigger_modifier RuleHTMXAttributes filename n results modifier
   = results)
  /\ (~ time_value modValue ->
      rules.validateSingleTrigger_modifier RuleHTMXAttributes filename n results modifier
      = results
        ++ [rules.mkResult RuleHTMXAttributes
              ("hx-trigger " +:+ modName +:+ " requires a time value (e.g., '1s', '500ms')")
              filename (parser.Line n) (parser.Col n) rules.Error]).
Proof.
  intros Hb Hi modName modValue Hn. subst modName modValue.
  unfold rules.validateSingleTrigger_modifier. rewrite Hb, Hi. cbn [andb]. cbv zeta.
  assert (E : rules.has rules.validTriggerModifiers
                (strings.ToLower (slice modifier 0 colonIdx)) = true
              /\ (String.eqb (strings.ToLower (slice modifier 0 colonIdx)) "delay"
                  || String.eqb (strings.ToLower (slice modifier 0 colonIdx)) "throttle")
                 = true)
    by (destruct Hn as [-> | ->]; split; vm_compute; reflexivity).
  destruct E as [-> ->]. cbn [negb].
  split; intros Ht.
  - apply timePattern_spec in Ht. now rewrite Ht.
  - destruct (regexp.MatchString rules.timePattern _) eqn:E; [|reflexivity].
    apply timePattern_spec in E. contradiction.
Qed.

Lemma hx_trigger_delay_witness :
  rules.validateSingleTrigger_modifier "htmx-attributes" "test.html"
    (fragment_child (hx_div "hx-trigger" "keyup Delay:soon")) [] "Delay:soon"
  = [rules.mkResult "htmx-attributes"
       "hx-trigger delay requires a time value (e.g., '1s', '500ms')" "test.html" 1 1
       rules.Error].
Proof.
  destruct (hx_trigger_delay_needs_time_value "htmx-attributes" "test.html"
              (fragment_child (hx_div "hx-trigger" "keyup Delay:soon")) []
              "Delay:soon" 5) as [_ H].
  - reflexivity.
  - reflexivity.
  - left; reflexivity.
  - apply H. intros Ht. apply timePattern_spec in Ht. discriminate Ht.
Defined.

(** X15.  The [swap] and [settle] modifiers of [hx-swap] take a time value
    in the same way: nothing is added for a time value, one Error for any
    other text after the colon. *)
Theorem hx_swap_settle_needs_time_value (RuleHTMXAttributes filename : string)
    (n : parser.Node) (results : list rules.Result) (modifier : string) (colonIdx : nat) :
  strings.Index modifier ":" = Some colonIdx ->
  let modName := strings.ToLower (slice modifier 0 colonIdx) in
  let modValue := drop_bytes (colonIdx + 1) modifier in
  modName = "swap" \/ modName = "settle" ->
  (time_value modValue ->
   rules.validateSwap_modifier RuleHTMXAttributes filename n results modifier = results)
  /\ (~ time_value modValue ->
      rules.validateSwap_modifier RuleHTMXAttributes filename n results modifier
      = results
        ++ [rules.mkResult RuleHTMXAttributes
              ("hx-swap " +:+ modName
               +:+ " modifier requires a time value (e.g., '1s', '500ms')")
              filename (parser.Line n) (parser.Col n) rules.Error]).
Proof.
  intros Hi modName modValue Hn. subst modName modValue.
  unfold rules.validateSwap_modifier. rewrite Hi. cbv zeta.
  assert (E : rules.has rules.validSwapModifiers
                (strings.ToLower (slice modifier 0 colonIdx)) = true
              /\ (String.eqb (strings.ToLower (slice modifier 0 colonIdx)) "swap"
                  || String.eqb (strings.ToLower (slice modifier 0 colonIdx)) "settle")
                 = true)
    by (destruct Hn as [-> | ->]; split; vm_compute; reflexivity).
  destruct E as [-> ->]. cbn [negb].
  split; intros Ht.
  - apply timePattern_spec in Ht. now rewrite Ht.
  - destruct (regexp.MatchString rules.timePattern _) eqn:E; [|reflexivity].
    apply timePattern_spec in E. contradiction.
Qed.

Lemma hx_swap_settle_witness :
  rules.validateSwap_modifier "htmx-attributes" "test.html"
    (fragment_child (hx_div "hx-swap" "innerHTML settle:1.5s")) [] "settle:1.5s"
  = [rules.mkResult "htmx-attributes"
       "hx-swap settle modifier requires a time value (e.g., '1s', '500ms')" "test.html"
       1 1 rules.Error].
Proof.
  destruct (hx_swap_settle_needs_time_value "htmx-attributes" "test.html"
              (fragment_child (hx_div "hx-swap" "innerHTML settle:1.5s")) []
              "settle:1.5s" 6) as [_ H].
  - reflexivity.
  - right; reflexivity.
  - apply H. intros Ht. apply timePattern_spec in Ht. discriminate Ht.
Defined.

(** X16.  The modifier [ignoreTitle] of [hx-swap] is never accepted: the
    table of modifiers spells it with a capital letter and the name looked
    up is in lower case, so a modifier of this name, however it is written,
    gets the Warning of an unknown modifier. *)
Theorem hx_swap_ignoreTitle_is_reported_unknown (RuleHTMXAttributes filename : string)
    (n : parser.Node) (results : list rules.Result) (modifier : string) (colonIdx : nat) :
  strings.Index modifier ":" = Some colonIdx ->
  strings.ToLower (slice modifier 0 colonIdx) = "ignoretitle" ->
  rules.has rules.validSwapModifiers "ignoreTitle" = true
  /\ rules.validateSwap_modifier RuleHTMXAttributes filename n results modifier
     = results
       ++ [rules.mkResult RuleHTMXAttributes "unknown hx-swap modifier 'ignoretitle'"
             filename (parser.Line n) (parser.Col n) rules.Warning].
Proof.
  intros Hi Hn. split; [vm_compute; reflexivity|].
  unfold rules.validateSwap_modifier. rewrite Hi. cbv zeta. rewrite Hn.
  replace (rules.has rules.validSwapModifiers "ignoretitle") with false
    by (vm_compute; reflexivity).
  reflexivity.
Qed.

Lemma hx_swap_ignoreTitle_witness :
  rules.HTMXAttributes_Check "htmx-attributes" (rules.mkHTMXAttributes true "2")
    (fragment "test.html" [hx_div "hx-swap" "innerHTML ignoreTitle:true"])
  = [rules.mkResult "htmx-attributes" "unknown hx-swap modifier 'ignoretitle'"
       "test.html" 1 1 rules.Warning]
  /\ rules.validateSwap_modifier "htmx-attributes" "test.html"
       (fragment_child (hx_div "hx-swap" "innerHTML ignoreTitle:true")) []
       "ignoreTitle:true"
     = [rules.mkResult "htmx-attributes" "unknown hx-swap modifier 'ignoretitle'"
          "test.html" 1 1 rules.Warning].
Proof.
  split; [vm_compute; reflexivity|].
  apply (hx_swap_ignoreTitle_is_reported_unknown "htmx-attributes" "test.html"
           (fragment_child (hx_div "hx-swap" "innerHTML ignoreTitle:true")) []
           "ignoreTitle:true" 11); reflexivity.
Defined.

(** ** Character references: what the raw check reports *)

Lemma allMatches_loop_sound (re : regexp.regex) (s : string) (m : regexp.Match) :
  forall fuel pos prev,
    In m (regexp.allMatches_loop fuel re s pos prev) ->
    exists p, (p <= String.length s)%nat /\ regexp.find re p (drop_bytes p s) = Some m.
Proof.
  induction fuel as [|fuel IH]; intros pos prev H; cbn [regexp.allMatches_loop] in H;
    [destruct H|].
  destruct (String.length s <? pos)%nat eqn:Ep; [destruct H|].
  apply Nat.ltb_ge in Ep.
  destruct (regexp.find re pos (drop_bytes pos s)) as [a|] eqn:F; [|destruct H].
  cbv zeta in H.
  destruct (negb _).
  - destruct H as [<- | H]; [now exists pos | exact (IH _ _ H)].
  - exact (IH _ _ H).
Qed.

Lemma exec_namedCharRefPattern (pos : nat) (s : string) (m : regexp.Match) :
  regexp.exec rules.namedCharRefPattern pos s = Some m ->
  exists c w rest,
    s = "&" +:+ String c w +:+ ";" +:+ rest
    /\ (isLowerASCII c || isUpperASCII c) = true
    /\ all_bytes (fun c => isLowerASCII c || isUpperASCII c || isDigit c) w
    /\ regexp.mstart m = pos
    /\ regexp.mend m = (pos + String.length ("&" +:+ String c w +:+ ";"))%nat
    /\ regexp.group 1 (regexp.mgroups m)
       = Some (S pos, (S pos + String.length (String c w))%nat).
Proof.
  unfold regexp.exec, rules.namedCharRefPattern.
  cbn [regexp.seq foldr regexp.Lit regexp.rmatch]. intros H.
  destruct s as [|a s]; [discriminate|].
  destruct (Ascii.eqb_spec "&" a) as [<-|]; [|discriminate].
  destruct s as [|c s]; [discriminate|].
  destruct (isLowerASCII c || isUpperASCII c) eqn:Ec; [|discriminate].
  apply star_sound in H as (w & s' & -> & Hw & H).
  destruct s' as [|b rest]; [discriminate|].
  destruct (Ascii.eqb_spec ";" b) as [<-|]; [|discriminate].
  injection H as <-. exists c, w, rest. cbn [regexp.mstart regexp.mend regexp.mgroups].
  split; [reflexivity|]. split; [exact Ec|]. split; [exact Hw|].
  split; [reflexivity|]. split.
  - cbn [String.append String.length]. rewrite str_length_app. cbn [String.length]. lia.
  - cbn [regexp.group Nat.eqb String.length]. do 2 f_equal. lia.
Qed.

(** A match of the scan pattern in a line: the reference stands at the
    start of the match, and group 1 is its name. *)
Lemma find_namedCharRefPattern (line : string) (p : nat) (m : regexp.Match) :
  (p <= String.length line)%nat ->
  regexp.find rules.namedCharRefPattern p (drop_bytes p line) = Some m ->
  exists name,
    name <> ""
    /\ all_bytes (fun c => isLowerASCII c || isUpperASCII c || isDigit c) name
    /\ strings.HasPrefix (drop_bytes (regexp.mstart m) line) ("&" +:+ name +:+ ";") = true
    /\ slice line (regexp.mstart m) (regexp.mend m) = "&" +:+ name +:+ ";"
    /\ regexp.submatch line m 1 = name.
Proof.
  intros Hp F. apply find_leftmost in F as (a & t & Hd & E & _).
  apply exec_namedCharRefPattern in E as (c & w & rest & -> & Hc & Hw & E1 & E2 & G).
  exists (String c w). split; [discriminate|]. split.
  { split; [|exact Hw]. cbn beta. now rewrite Hc. }
  rewrite E2, E1. split; [|split].
  - rewrite drop_bytes_add, Hd, drop_bytes_app.
    replace ("&" +:+ String c w +:+ ";" +:+ rest)
      with (("&" +:+ String c w +:+ ";") +:+ rest)
      by (simpl; now rewrite str_app_assoc).
    apply HasPrefix_app.
  - apply slice_of_drop with (t := rest). rewrite Hd. f_equal.
    simpl. now rewrite str_app_assoc.
  - unfold regexp.submatch. rewrite G.
    replace (S (p + String.length a)) with (p + String.length (a +:+ "&"))%nat
      by (rewrite str_length_app; cbn [String.length]; lia).
    apply slice_of_drop with (t := ";" +:+ rest). rewrite Hd.
    now rewrite !str_app_assoc.
Qed.

Lemma Split_LF_length (s : string) :
  length (strings.Split s LF) = (countLF s + 1)%nat.
Proof.
  unfold strings.Split. generalize "".
  induction s as [|c s IH]; intros cur; [reflexivity|].
  cbn [strings.split_from countLF].
  replace (strings.HasPrefix (String c s) LF) with (is_byte 10 c).
  - destruct (is_byte 10 c); cbn [length]; rewrite IH; lia.
  - unfold LF, is_byte. cbn [strings.HasPrefix]. rewrite andb_true_r.
    destruct (Ascii.eqb_spec (ascii_of_N 10) c) as [<- | Hne]; [reflexivity|].
    apply N.eqb_neq. intros E. apply Hne. rewrite <- E. now rewrite ascii_N_embedding.
Qed.


Lemma CheckRaw_match_ok RuleUnrecognizedCharRef entity entity2 filename content
    (lineNum : nat) (line : string) (results : list rules.Result) (m : regexp.Match) :
  nth_error (strings.Split content LF) lineNum = Some line ->
  In m (regexp.FindAllStringSubmatchIndex rules.namedCharRefPattern line) ->
  Forall (reportsUnrecognized RuleUnrecognizedCharRef entity entity2 filename content)
    results ->
  Forall (reportsUnrecognized RuleUnrecognizedCharRef entity entity2 filename content)
    (rules.CheckRaw_match RuleUnrecognizedCharRef entity entity2 filename lineNum line
       results m).
Proof.
  intros Hline Hm Hres.
  apply allMatches_loop_sound in Hm as (p & Hp & F).
  destruct (find_namedCharRefPattern _ _ _ Hp F) as (name & Hne & Hal & Hpre & Hfull & Hsub).
  unfold rules.CheckRaw_match. cbv zeta.
  destruct (rules.isInsideTemplateExpr line (regexp.mstart m)) eqn:Ein; [exact Hres|].
  destruct (String.eqb_spec
              (html.UnescapeString entity entity2
                 (slice line (regexp.mstart m) (regexp.mend m)))
              (slice line (regexp.mstart m) (regexp.mend m))) as [Eu|]; [|exact Hres].
  apply Forall_app_2; [exact Hres|]. constructor; [|constructor].
  rewrite Hfull in Eu. rewrite Hsub.
  repeat (split; [reflexivity|]).
  exists lineNum, (regexp.mstart m), name. cbn.
  repeat (split; [reflexivity || assumption|]).
  exists line. auto.
Qed.

Lemma CheckRaw_lines_ok RuleUnrecognizedCharRef entity entity2 filename content :
  forall (lines : list string) (lineNum : nat) (results : list rules.Result),
    (forall i line, nth_error lines i = Some line ->
                    nth_error (strings.Split content LF) (lineNum + i) = Some line) ->
    Forall (reportsUnrecognized RuleUnrecognizedCharRef entity entity2 filename content)
      results ->
    Forall (reportsUnrecognized RuleUnrecognizedCharRef entity entity2 filename content)
      (rules.CheckRaw_lines RuleUnrecognizedCharRef entity entity2 filename lineNum lines
         results).
Proof.
  induction lines as [|line rest IH]; intros lineNum results Hnth Hres;
    cbn [rules.CheckRaw_lines]; [exact Hres|].
  apply IH.
  - intros i l Hi. replace (S lineNum + i)%nat with (lineNum + S i)%nat by lia.
    now apply Hnth.
  - apply fold_left_Forall; [|exact Hres].
    intros acc m Hm Hacc. apply CheckRaw_match_ok; [|exact Hm|exact Hacc].
    rewrite <- (Nat.add_0_r lineNum). now apply Hnth.
Qed.

(** X17.  Every result of the raw check points at a reference that is in
    the file: it is a Warning of the rule for the file; at its line and
    column, both counted from 1 and the line within the lines of the
    content, stands a named reference, an ampersand, a name of letters and
    digits and a semicolon; the message names this reference; the reference
    is outside template expressions; and unescaping leaves it as it is.
    [Check], the form of the rule on parsed documents, returns nothing. *)
Theorem CheckRaw_reports_references_in_place (RuleUnrecognizedCharRef : string)
    (entity : string -> Z) (entity2 : string -> Z * Z) (filename content : string) :
  Forall (fun res =>
            reportsUnrecognized RuleUnrecognizedCharRef entity entity2 filename content res
            /\ 1 <= rules.Line res <= Z.of_nat (countLF content) + 1
            /\ 1 <= rules.Col res)
    (rules.UnrecognizedCharRef_CheckRaw RuleUnrecognizedCharRef entity entity2
       filename content)
  /\ forall doc, rules.UnrecognizedCharRef_Check doc = [].
Proof.
  split; [|reflexivity].
  eapply Forall_impl.
  - unfold rules.UnrecognizedCharRef_CheckRaw.
    apply (CheckRaw_lines_ok RuleUnrecognizedCharRef entity entity2 filename content);
      [|constructor].
    intros i line Hi. exact Hi.
  - intros res H. split; [exact H|].
    destruct H as (_ & _ & _ & lineNum & start & name & -> & -> & _ & _ & _ & line & Hn & _).
    assert (L : (lineNum < length (strings.Split content LF))%nat)
      by (apply nth_error_Some; congruence).
    rewrite Split_LF_length in L. lia.
Qed.

Lemma Contains_tail (c : ascii) (s sub : string) :
  strings.Contains (String c s) sub = false -> strings.Contains s sub = false.
Proof.
  intros H. destruct (strings.Contains s sub) eqn:E; [|reflexivity].
  apply Contains_inv in E as (a & t & ->).
  change (String c (a +:+ sub +:+ t)) with (String c a +:+ sub +:+ t) in H.
  now rewrite Contains_app in H.
Qed.

Lemma isInsideTemplateExpr_loop_unfold (a b : ascii) (rest : string) (i pos : nat)
    (depth : Z) :
  rules.isInsideTemplateExpr_loop (String a (String b rest)) i pos depth
  = if (i <? pos)%nat then
      if Ascii.eqb a "{" && Ascii.eqb b "{"
      then rules.isInsideTemplateExpr_loop rest (S (S i)) pos (depth + 1)
      else if Ascii.eqb a "}" && Ascii.eqb b "}"
      then rules.isInsideTemplateExpr_loop rest (S (S i)) pos (depth - 1)
      else rules.isInsideTemplateExpr_loop (String b rest) (S i) pos depth
    else depth.
Proof. reflexivity. Qed.

Lemma isInsideTemplateExpr_loop_le (pos : nat) : forall n s i depth,
  (String.length s <= n)%nat -> strings.Contains s "{{" = false ->
  rules.isInsideTemplateExpr_loop s i pos depth <= depth.
Proof.
  induction n as [|n IH]; intros s i depth Hn Hs.
  - destruct s; [simpl; lia | simpl in Hn; lia].
  - destruct s as [|a [|b rest]]; [simpl; lia | simpl; lia |].
    rewrite isInsideTemplateExpr_loop_unfold.
    destruct (i <? pos)%nat; [|lia].
    pose proof (Contains_tail _ _ _ Hs) as Ht.
    pose proof (Contains_tail _ _ _ Ht) as Hr.
    cbn [String.length] in Hn.
    destruct (Ascii.eqb_spec a "{") as [-> | Ha];
      [destruct (Ascii.eqb_spec b "{") as [-> | Hb]|]; cbn [andb].
    + pose proof (Contains_app "{{" "" rest) as Hc. simpl in Hc. congruence.
    + destruct (_ && _).
      * specialize (IH rest (S (S i)) (depth - 1) ltac:(lia) Hr). lia.
      * apply IH; [cbn [String.length]; lia | exact Ht].
    + destruct (_ && _).
      * specialize (IH rest (S (S i)) (depth - 1) ltac:(lia) Hr). lia.
      * apply IH; [cbn [String.length]; lia | exact Ht].
Qed.

(** X18.  A position in a line without an opening double brace is never
    taken to be inside a template expression, so no reference of such a
    line is passed over by the raw check for that reason. *)
Theorem isInsideTemplateExpr_needs_opening_braces (line : string) (pos : nat) :
  strings.Contains line "{{" = false -> rules.isInsideTemplateExpr line pos = false.
Proof.
  intros H. unfold rules.isInsideTemplateExpr.
  pose proof (isInsideTemplateExpr_loop_le pos _ line 0%nat 0 (Nat.le_refl _) H).
  apply Z.ltb_ge. lia.
Qed.

Lemma isInsideTemplateExpr_witness :
  strings.Contains "a } &foo; {x}" "{{" = false
  /\ rules.isInsideTemplateExpr "a } &foo; {x}" 4 = false.
Proof.
  split; [reflexivity|].
  apply (isInsideTemplateExpr_needs_opening_braces "a } &foo; {x}" 4). reflexivity.
Defined.

(** ** The exported tables *)

(** X19.  The rank of a heading agrees with the table of heading tags: it
    lies between 0 and 6 and is not 0 exactly for the tags of the table,
    in any case of letters.  And the table of labelable elements that the
    valid-for rule reads holds the same elements as the exported one. *)
Theorem HeadingRank_agrees_with_HeadingTags (tagName : string) :
  0 <= rules.HeadingRank tagName <= 6
  /\ (rules.HeadingRank tagName <> 0
      <-> rules.has rules.HeadingTags (strings.ToLower tagName) = true)
  /\ rules.labelableElements = rules.LabelableElements.
Proof.
  split; [|split].
  - unfold rules.HeadingRank. cbv zeta.
    repeat match goal with |- context [if ?b then _ else _] => destruct b end; lia.
  - unfold rules.HeadingRank, rules.has, rules.HeadingTags. cbv zeta.
    generalize (strings.ToLower tagName). intros t.
    repeat match goal with
           | |- context [String.eqb t ?k] => destruct (String.eqb_spec t k) as [-> | ?]
           end;
      try (split; [intros _; vm_compute; reflexivity | discriminate]).
    split; [congruence|]. intros H. apply bool_decide_eq_true in H.
    apply elem_of_list_to_set in H.
    repeat (apply elem_of_cons in H as [H|H]; [congruence|]).
    now apply elem_of_nil in H.
  - apply set_eq. intros x. unfold rules.labelableElements, rules.LabelableElements.
    set_solver.
Qed.

(** ** Spellings of the [hx-on] attributes *)

(** X20.  The two spellings of an [hx-on] attribute are validated alike,
    the one with a colon after [hx-on] and the one with a dash, and the
    double colon is read as the prefix of the htmx events. *)
Theorem validateHxOn_spellings (RuleHTMXAttributes : string) (r : rules.HTMXAttributes)
    (filename : string) (n : parser.Node) (eventName : string) :
  rules.validateHxOn RuleHTMXAttributes r filename n ("hx-on-" +:+ eventName)
  = rules.validateHxOn RuleHTMXAttributes r filename n ("hx-on:" +:+ eventName)
  /\ rules.validateHxOn RuleHTMXAttributes r filename n ("hx-on::" +:+ eventName)
     = rules.validateHxOn RuleHTMXAttributes r filename n ("hx-on:htmx:" +:+ eventName).
Proof.
  unfold rules.validateHxOn. split.
  - reflexivity.
  - cbn [strings.HasPrefix strings.TrimPrefix String.append Ascii.eqb Bool.eqb andb
           String.length drop_bytes String.eqb].
    reflexivity.
Qed.

(** ** What the HTML parser is handed *)

(** X21.  [Parse] and [ParseFragment] hand the HTML parser bytes without
    directive syntax only: two parsers that agree on such bytes give the
    same document, or the same failure, on every content. *)
Theorem Parse_hands_the_parser_no_directive
    (html_Parse html_Parse' : string -> option html.Node)
    (html_ParseFragment html_ParseFragment' :
       string -> html.Node -> option (list html.Node))
    (filename content : string) :
  (forall s, hasDirective s = false ->
     html_Parse s = html_Parse' s
     /\ forall context, html_ParseFragment s context = html_ParseFragment' s context) ->
  parser.Parse html_Parse filename content = parser.Parse html_Parse' filename content
  /\ parser.ParseFragment html_ParseFragment filename content
     = parser.ParseFragment html_ParseFragment' filename content.
Proof.
  intros H. unfold parser.Parse, parser.ParseFragment, parser.Process.
  destruct (H _ (ReplaceAllFunc_templatePattern_no_directive
                   (regexp.ReplaceAll_group1 parser.ifEndPattern
                      (regexp.ReplaceAll_group1 parser.ifElseEndPattern content))))
    as [-> HF].
  now rewrite HF.
Qed.

Lemma Parse_hands_the_parser_no_directive_witness :
  let page (s : string) := elem "html" [] [text s] in
  let strict (s : string) := if hasDirective s then None else Some (page s) in
  let content := "<p class={{.Class}}>{{ .Body }}</p>" in
  strict content = None
  /\ parser.Parse (fun s => Some (page s)) "page.html" content
     = parser.Parse strict "page.html" content
  /\ parser.ParseFragment (fun s _ => Some [page s]) "page.html" content
     = parser.ParseFragment (fun s _ => option_map (fun n => [n]) (strict s))
         "page.html" content.
Proof.
  intros page strict content. split; [reflexivity|].
  apply (Parse_hands_the_parser_no_directive (fun s => Some (page s)) strict
           (fun s _ => Some [page s]) (fun s _ => option_map (fun n => [n]) (strict s))
           "page.html" content).
  intros s Hs. unfold strict. rewrite Hs. split; reflexivity.
Defined.

(** ** Expressions are replaced where they stand *)

Lemma starLazy_exact {R : Type} p (k : @regexp.cont R) g (rest : string) (x : R) :
  (forall c, p c = true) ->
  forall body pos,
    (forall b1 c b2, body = b1 +:+ String c b2 ->
       k (pos + String.length b1)%nat (String c b2 +:+ rest) g = None) ->
    k (pos + String.length body)%nat rest g = Some x ->
    regexp.starLazy p pos (body +:+ rest) g k = Some x.
Proof.
  intros Hp. induction body as [|c body IH]; intros pos Hn Hk; rewrite starLazy_unfold.
  - simpl in *. rewrite Nat.add_0_r in Hk. now rewrite Hk.
  - pose proof (Hn "" c body eq_refl) as H0. simpl in H0. rewrite Nat.add_0_r in H0.
    simpl. rewrite H0, Hp. apply IH.
    + intros b1 c' b2 ->. specialize (Hn (String c b1) c' b2 eq_refl).
      simpl in Hn. now rewrite Nat.add_succ_r in Hn.
    + simpl in Hk. now rewrite Nat.add_succ_r in Hk.
Qed.

Lemma exec_templatePattern_exact (pos : nat) (body rest : string) :
  strings.Contains body "}" = false ->
  regexp.exec parser.templatePattern pos ("{{" +:+ body +:+ "}}" +:+ rest)
  = Some (regexp.mkMatch pos (pos + String.length ("{{" +:+ body +:+ "}}")) []).
Proof.
  intros Hb. unfold regexp.exec, parser.templatePattern.
  cbn [regexp.seq foldr regexp.Lit regexp.rmatch String.append]. rewrite !Ascii.eqb_refl.
  apply starLazy_exact.
  - intros x. now destruct (regexp.perl_s x).
  - intros b1 c b2 ->. cbn [String.append].
    destruct (Ascii.eqb_spec "}" c) as [<- |]; [|reflexivity].
    pose proof (Contains_app "}" b1 b2) as Hc. simpl in Hc. congruence.
  - rewrite !Ascii.eqb_refl. do 2 f_equal. cbn [String.length].
    rewrite str_length_app. cbn [String.length]. lia.
Qed.

Lemma find_templatePattern_exact (body rest : string) :
  strings.Contains body "}" = false ->
  forall pre pos,
    strings.Contains pre "{" = false ->
    regexp.find parser.templatePattern pos (pre +:+ "{{" +:+ body +:+ "}}" +:+ rest)
    = Some (regexp.mkMatch (pos + String.length pre)
              (pos + String.length pre + String.length ("{{" +:+ body +:+ "}}")) []).
Proof.
  intros Hb. induction pre as [|x pre IH]; intros pos Hpre; rewrite find_unfold.
  - change ("" +:+ "{{" +:+ body +:+ "}}" +:+ rest) with ("{{" +:+ body +:+ "}}" +:+ rest).
    rewrite (exec_templatePattern_exact pos body rest Hb).
    change (String.length "") with 0%nat. now rewrite Nat.add_0_r.
  - replace (regexp.exec parser.templatePattern pos
               (String x pre +:+ "{{" +:+ body +:+ "}}" +:+ rest)) with (@None regexp.Match).
    + change (String x pre +:+ "{{" +:+ body +:+ "}}" +:+ rest)
        with (String x (pre +:+ "{{" +:+ body +:+ "}}" +:+ rest)).
      cbv iota. rewrite (IH (S pos) (Contains_tail _ _ _ Hpre)).
      change (String.length (String x pre)) with (S (String.length pre)).
      do 2 f_equal; lia.
    + unfold regexp.exec, parser.templatePattern.
      cbn [regexp.seq foldr regexp.Lit regexp.rmatch String.append].
      destruct (Ascii.eqb_spec "{" x) as [<- |]; [|reflexivity].
      pose proof (Contains_app "{" "" pre) as Hc. simpl in Hc. congruence.
Qed.

(** The directive pattern has no anchor: a match is found at the same place
    whatever the offset the search is given. *)
Lemma starLazy_shift {R : Type} p (k k' : @regexp.cont R) g (f : option R -> option R) :
  f None = None -> (forall x, exists y, f (Some x) = Some y) ->
  forall s pos pos',
    (forall i s', k' (pos' + i)%nat s' g = f (k (pos + i)%nat s' g)) ->
    regexp.starLazy p pos' s g k' = f (regexp.starLazy p pos s g k).
Proof.
  intros Hf0 Hf1. induction s as [|c s IH]; intros pos pos' Hk;
    cbn [regexp.starLazy];
    pose proof (Hk 0%nat) as H0; rewrite !Nat.add_0_r in H0; rewrite H0.
  - destruct (k pos "" g) as [x|]; [|now rewrite Hf0].
    now destruct (Hf1 x) as [y ->].
  - destruct (k pos (String c s) g) as [x|].
    + now destruct (Hf1 x) as [y ->].
    + rewrite Hf0. destruct (p c); [|now rewrite Hf0].
      apply IH. intros i s'. specialize (Hk (S i) s').
      now rewrite !Nat.add_succ_r in Hk.
Qed.

Lemma exec_templatePattern_shift (d pos : nat) (s : string) :
  regexp.exec parser.templatePattern (d + pos) s
  = option_map (shiftMatch d) (regexp.exec parser.templatePattern pos s).
Proof.
  unfold regexp.exec, parser.templatePattern.
  cbn [regexp.seq foldr regexp.Lit regexp.rmatch String.append].
  destruct s as [|a s]; [reflexivity|].
  destruct (Ascii.eqb "{" a); [|reflexivity].
  destruct s as [|b s]; [reflexivity|].
  destruct (Ascii.eqb "{" b); [|reflexivity].
  replace (S (S (d + pos))) with (d + S (S pos))%nat by lia.
  apply (starLazy_shift _ _ _ _ (option_map (shiftMatch d))); [reflexivity|eauto|].
  intros i s'. destruct s' as [|x s']; [reflexivity|].
  destruct (Ascii.eqb "}" x); [|reflexivity].
  destruct s' as [|y s']; [reflexivity|].
  destruct (Ascii.eqb "}" y); [|reflexivity].
  cbn. unfold shiftMatch. cbn. do 2 f_equal. lia.
Qed.

Lemma find_templatePattern_shift (d : nat) : forall s pos,
  regexp.find parser.templatePattern (d + pos) s
  = option_map (shiftMatch d) (regexp.find parser.templatePattern pos s).
Proof.
  induction s as [|c s IH]; intros pos;
    rewrite (find_unfold _ (d + pos)), (find_unfold _ pos), exec_templatePattern_shift;
    destruct (regexp.exec parser.templatePattern pos _) as [m|]; try reflexivity.
  cbn [option_map]. replace (S (d + pos)) with (d + S pos)%nat by lia. apply IH.
Qed.

(** The third pass works on what is left of the input, wherever that
    stands. *)
Lemma replaceAll_templatePattern_suffix (f : string -> string) :
  forall fuel fuel' s s' p q,
    drop_bytes p s = drop_bytes q s' ->
    (p <= String.length s)%nat -> (q <= String.length s')%nat ->
    (String.length s - p < fuel)%nat -> (String.length s' - q < fuel')%nat ->
    regexp.replaceAll_loop fuel parser.templatePattern
      (fun a => f (slice s (regexp.mstart a) (regexp.mend a))) s p p
    = regexp.replaceAll_loop fuel' parser.templatePattern
        (fun a => f (slice s' (regexp.mstart a) (regexp.mend a))) s' q q.
Proof.
  induction fuel as [|fuel IH]; intros fuel' s s' p q Hd Hp Hq Hf Hf'; [lia|].
  destruct fuel' as [|fuel']; [lia|].
  pose proof (find_templatePattern_shift p (drop_bytes p s) 0) as Fp.
  pose proof (find_templatePattern_shift q (drop_bytes q s') 0) as Fq.
  rewrite Nat.add_0_r in Fp, Fq. rewrite <- Hd in Fq at 2.
  destruct (regexp.find parser.templatePattern 0 (drop_bytes p s)) as [m0|] eqn:F0;
    cbn [option_map] in Fp, Fq.
  - destruct (find_sound _ _ _ _ F0) as (a & w & t & Ht & L & E1 & E2).
    assert (Hw : w <> "").
    { unfold parser.templatePattern in L.
      apply Lang_braces in L as (u & ->); [discriminate|reflexivity|reflexivity|discriminate]. }
    assert (Ht' : drop_bytes q s' = a +:+ w +:+ t) by congruence.
    destruct (replaceAll_loop_some fuel _
                (fun a => f (slice s (regexp.mstart a) (regexp.mend a)))
                s p (shiftMatch p m0) a w t Hp Fp Ht)
      as (-> & Ht1 & Le1 & Lt1 & Hs1);
      [cbn; lia | cbn; lia | exact Hw |].
    destruct (replaceAll_loop_some fuel' _
                (fun a => f (slice s' (regexp.mstart a) (regexp.mend a)))
                s' q (shiftMatch q m0) a w t Hq Fq Ht')
      as (-> & Ht2 & Le2 & Lt2 & Hs2);
      [cbn; lia | cbn; lia | exact Hw |].
    cbn beta. rewrite Hs1, Hs2. do 2 f_equal.
    apply IH; [congruence|assumption|assumption|lia|lia].
  - rewrite (replaceAll_loop_none _ _ _ _ _ Fp), (replaceAll_loop_none _ _ _ _ _ Fq).
    exact Hd.
Qed.

Lemma ReplaceAllFunc_templatePattern_in_place (f : string -> string)
    (pre body rest : string) :
  strings.Contains pre "{" = false ->
  strings.Contains body "}" = false ->
  regexp.ReplaceAllFunc parser.templatePattern
    (pre +:+ "{{" +:+ body +:+ "}}" +:+ rest) f
  = pre +:+ f ("{{" +:+ body +:+ "}}")
    +:+ regexp.ReplaceAllFunc parser.templatePattern rest f.
Proof.
  intros Hpre Hbody. unfold regexp.ReplaceAllFunc.
  set (s := pre +:+ "{{" +:+ body +:+ "}}" +:+ rest).
  set (w := "{{" +:+ body +:+ "}}").
  assert (Hd : drop_bytes 0 s = pre +:+ w +:+ rest).
  { rewrite drop_bytes_0. subst s w. simpl. now rewrite str_app_assoc. }
  pose proof (find_templatePattern_exact body rest Hbody pre 0 Hpre) as F.
  fold s in F. rewrite <- (drop_bytes_0 s) in F. cbn [Nat.add] in F. fold w in F.
  destruct (replaceAll_loop_some (S (String.length s)) _
              (fun a => f (slice s (regexp.mstart a) (regexp.mend a)))
              s 0 _ pre w rest (Nat.le_0_l _) F Hd)
    as (-> & Ht & Le & Lt & Hs); [reflexivity | reflexivity | discriminate |].
  cbn beta. rewrite Hs. do 2 f_equal.
  apply replaceAll_templatePattern_suffix; [|exact Le|lia|lia|lia].
  now rewrite Ht, drop_bytes_0.
Qed.

(** The two patterns of if blocks only match texts that hold [if]. *)
Lemma Lang_if (r1 r2 r3 : regexp.regex) (rs : list regexp.regex) (w : string) :
  Lang (regexp.seq (r1 :: r2 :: r3 :: regexp.Lit "if" :: rs)) w ->
  strings.Contains w "if" = true.
Proof.
  intros (w1 & x1 & -> & _ & w2 & x2 & -> & _ & w3 & x3 & -> & _ & w4 & x4 & -> & L & _).
  apply Lang_Lit in L as ->.
  rewrite <- !str_app_assoc. rewrite str_app_assoc. apply Contains_app.
Qed.

Lemma find_none_without_if (r1 r2 r3 : regexp.regex) (rs : list regexp.regex)
    (s : string) (pos : nat) :
  strings.Contains s "if" = false ->
  regexp.find (regexp.seq (r1 :: r2 :: r3 :: regexp.Lit "if" :: rs)) pos s = None.
Proof.
  intros Hs. destruct (regexp.find _ pos s) as [m|] eqn:F; [|reflexivity].
  apply find_sound in F as (a & w & t & -> & L & _).
  apply Lang_if in L. apply Contains_inv in L as (x & y & ->).
  replace (a +:+ (x +:+ "if" +:+ y) +:+ t) with ((a +:+ x) +:+ "if" +:+ y +:+ t) in Hs
    by now rewrite !str_app_assoc.
  now rewrite Contains_app in Hs.
Qed.

Lemma Process_without_if (s : string) :
  strings.Contains s "if" = false ->
  parser.processed_bytes s
  = regexp.ReplaceAllFunc parser.templatePattern s parser.replaceTemplate.
Proof.
  intros Hs. unfold parser.processed_bytes, parser.Process. cbn [fst].
  unfold regexp.ReplaceAll_group1.
  rewrite (replaceAll_loop_no_match _ parser.ifElseEndPattern _ s)
    by (apply find_none_without_if; exact Hs).
  now rewrite (replaceAll_loop_no_match _ parser.ifEndPattern _ s)
    by (apply find_none_without_if; exact Hs).
Qed.

(** X22.  On a page that nowhere holds the bytes [if], so that it has no if
    block, [Process] replaces an expression where it stands and goes on
    with what follows: the text before the expression, when it holds no
    opening brace, is kept as it is; the expression, when its body holds no
    closing brace, gives way to what [replaceTemplate] makes of it; and the
    rest is processed as if it stood alone. *)
Theorem Process_replaces_expressions_in_place (pre body rest : string) :
  strings.Contains pre "{" = false ->
  strings.Contains body "}" = false ->
  strings.Contains (pre +:+ "{{" +:+ body +:+ "}}" +:+ rest) "if" = false ->
  parser.processed_bytes (pre +:+ "{{" +:+ body +:+ "}}" +:+ rest)
  = pre +:+ parser.replaceTemplate ("{{" +:+ body +:+ "}}")
    +:+ parser.processed_bytes rest.
Proof.
  intros Hpre Hbody Hif.
  assert (Hrest : strings.Contains rest "if" = false).
  { destruct (strings.Contains rest "if") eqn:E; [|reflexivity].
    apply Contains_inv in E as (x & y & ->).
    replace (pre +:+ "{{" +:+ body +:+ "}}" +:+ x +:+ "if" +:+ y)
      with ((pre +:+ "{{" +:+ body +:+ "}}" +:+ x) +:+ "if" +:+ y) in Hif
      by (repeat (rewrite str_app_assoc; simpl); reflexivity).
    now rewrite Contains_app in Hif. }
  rewrite (Process_without_if _ Hif), (Process_without_if _ Hrest).
  now apply ReplaceAllFunc_templatePattern_in_place.
Qed.

Lemma Process_replaces_expressions_witness :
  parser.processed_bytes ("<h1 class='t'>" +:+ "{{" +:+ " .Title | upper " +:+ "}}"
                          +:+ "</h1>{{/* end of head */}}<hr>")
  = "<h1 class='t'>" +:+ parser.replaceTemplate ("{{" +:+ " .Title | upper " +:+ "}}")
    +:+ parser.processed_bytes "</h1>{{/* end of head */}}<hr>"
  /\ parser.processed_bytes "<h1 class='t'>{{ .Title | upper }}</h1>{{/* end of head */}}<hr>"
     = "<h1 class='t'>TMPL</h1><hr>".
Proof.
  split; [|vm_compute; reflexivity].
  apply (Process_replaces_expressions_in_place "<h1 class='t'>" " .Title | upper "
           "</h1>{{/* end of head */}}<hr>"); vm_compute; reflexivity.
Defined.

(** ** If blocks *)

(** The matcher, one item of a sequence after the other. *)
Section MatcherSteps.
Context {R : Type}.
Implicit Types (k : @regexp.cont R) (g : regexp.groups) (rs : list regexp.regex).

Lemma rmatch_seq_Lit (l : string) rs : forall pos s g k,
  regexp.rmatch (regexp.seq (regexp.Lit l :: rs)) pos (l +:+ s) g k
  = regexp.rmatch (regexp.seq rs) (pos + String.length l) s g k.
Proof.
  induction l as [|c l IH]; intros pos s g k.
  - cbn. now rewrite Nat.add_0_r.
  - specialize (IH (S pos) s g k).
    cbn [regexp.seq foldr regexp.Lit regexp.rmatch String.append String.length] in *.
    rewrite Ascii.eqb_refl, Nat.add_succ_r. exact IH.
Qed.

Lemma rmatch_seq_Lit_miss (c d : ascii) (l s : string) rs pos g k :
  Ascii.eqb c d = false ->
  regexp.rmatch (regexp.seq (regexp.Lit (String c l) :: rs)) pos (String d s) g k = None.
Proof.
  intros H. cbn [regexp.seq foldr regexp.Lit regexp.rmatch]. now rewrite H.
Qed.

Lemma rmatch_seq_Opt_miss (c d : ascii) (l s : string) rs pos g k :
  Ascii.eqb c d = false ->
  regexp.rmatch (regexp.seq (regexp.Opt (regexp.Lit (String c l)) :: rs)) pos (String d s) g k
  = regexp.rmatch (regexp.seq rs) pos (String d s) g k.
Proof.
  intros H. cbn [regexp.seq foldr regexp.Lit regexp.rmatch]. now rewrite H.
Qed.

Lemma rmatch_seq_Star_none p (d : ascii) (s : string) rs pos g k :
  p d = false ->
  regexp.rmatch (regexp.seq (regexp.Star p :: rs)) pos (String d s) g k
  = regexp.rmatch (regexp.seq rs) pos (String d s) g k.
Proof.
  intros H. cbn [regexp.seq foldr regexp.rmatch regexp.star]. now rewrite H.
Qed.

Lemma rmatch_seq_Chr p (c : ascii) (s : string) rs pos g k :
  p c = true ->
  regexp.rmatch (regexp.seq (regexp.Chr p :: rs)) pos (String c s) g k
  = regexp.rmatch (regexp.seq rs) (S pos) s g k.
Proof.
  intros H. cbn [regexp.seq foldr regexp.rmatch]. now rewrite H.
Qed.

Lemma rmatch_seq_Star_all p (w : string) (d : ascii) (s : string) rs pos g k (x : R) :
  all_bytes p w -> p d = false ->
  regexp.rmatch (regexp.seq rs) (pos + String.length w) (String d s) g k = Some x ->
  regexp.rmatch (regexp.seq (regexp.Star p :: rs)) pos (w +:+ String d s) g k = Some x.
Proof.
  intros Hw Hd Hk. cbn [regexp.seq foldr regexp.rmatch].
  now apply star_takes_all.
Qed.

Lemma rmatch_seq_StarLazy p (body rest : string) rs pos g k (x : R) :
  (forall c, p c = true) ->
  (forall b1 c b2, body = b1 +:+ String c b2 ->
     regexp.rmatch (regexp.seq rs) (pos + String.length b1) (String c b2 +:+ rest) g k
     = None) ->
  regexp.rmatch (regexp.seq rs) (pos + String.length body) rest g k = Some x ->
  regexp.rmatch (regexp.seq (regexp.StarLazy p :: rs)) pos (body +:+ rest) g k = Some x.
Proof.
  intros Hp Hn Hk. cbn [regexp.seq foldr regexp.rmatch].
  now apply starLazy_exact.
Qed.

Lemma rmatch_seq_Group_StarLazy (i : nat) p (body rest : string) rs pos g k (x : R) :
  (forall c, p c = true) ->
  (forall b1 c b2, body = b1 +:+ String c b2 ->
     regexp.rmatch (regexp.seq rs) (pos + String.length b1) (String c b2 +:+ rest)
       ((i, (pos, (pos + String.length b1)%nat)) :: g) k
     = None) ->
  regexp.rmatch (regexp.seq rs) (pos + String.length body) rest
    ((i, (pos, (pos + String.length body)%nat)) :: g) k = Some x ->
  regexp.rmatch (regexp.seq (regexp.Group i (regexp.StarLazy p) :: rs)) pos
    (body +:+ rest) g k = Some x.
Proof.
  intros Hp Hn Hk. cbn [regexp.seq foldr regexp.rmatch].
  apply (starLazy_exact p
           (fun pos' s' g' =>
              regexp.rmatch (foldr regexp.Seq regexp.Eps rs) pos' s'
                ((i, (pos, pos')) :: g') k)); assumption.
Qed.
End MatcherSteps.

Lemma all_bytes_of_not_Contains (c : ascii) : forall s,
  strings.Contains s (String c "") = false ->
  all_bytes (fun x => negb (Ascii.eqb x c)) s.
Proof.
  induction s as [|x s IH]; intros H; [exact I|].
  split; [|exact (IH (Contains_tail _ _ _ H))].
  destruct (Ascii.eqb_spec x c) as [-> |]; [|reflexivity].
  pose proof (Contains_app (String c "") "" s) as Hc. simpl in Hc. congruence.
Qed.

Lemma not_Contains_split (c : ascii) (s b1 b2 : string) (d : ascii) :
  strings.Contains s (String c "") = false -> s = b1 +:+ String d b2 ->
  Ascii.eqb c d = false.
Proof.
  intros H ->. destruct (Ascii.eqb_spec c d) as [<- |]; [|reflexivity].
  pose proof (Contains_app (String c "") b1 b2) as Hc. simpl in Hc. congruence.
Qed.

Tactic Notation "rstep" uconstr(lem) := etransitivity; [eapply lem; try reflexivity|].

Lemma exec_ifEndPattern_exact (pos : nat) (cond inner post : string) :
  strings.Contains cond "}" = false ->
  strings.Contains inner "{" = false ->
  regexp.exec parser.ifEndPattern pos
    ("{{if " +:+ cond +:+ "}}" +:+ inner +:+ "{{end}}" +:+ post)
  = Some (regexp.mkMatch pos
            (pos + String.length ("{{if " +:+ cond +:+ "}}" +:+ inner +:+ "{{end}}"))
            [(1%nat, ((pos + String.length ("{{if " +:+ cond +:+ "}}"))%nat,
                      (pos + String.length ("{{if " +:+ cond +:+ "}}")
                       + String.length inner)%nat))]).
Proof.
  intros Hc Hi. unfold regexp.exec, parser.ifEndPattern.
  set (T4 := "{{end}}" +:+ post).
  set (T3 := inner +:+ T4).
  set (T1 := cond +:+ "}}" +:+ T3).
  rstep (@rmatch_seq_Lit regexp.Match "{{" _ _ ("if " +:+ T1)).
  rstep (@rmatch_seq_Opt_miss regexp.Match "-" "i").
  rstep (@rmatch_seq_Star_none regexp.Match regexp.perl_s "i").
  rstep (@rmatch_seq_Lit regexp.Match "if" _ _ (" " +:+ T1)).
  rstep (@rmatch_seq_Chr regexp.Match regexp.perl_s " ").
  apply (@rmatch_seq_Star_all regexp.Match _ cond "}" (String "}" T3));
    [now apply all_bytes_of_not_Contains | reflexivity |].
  rstep (@rmatch_seq_Lit regexp.Match "}}" _ _ T3).
  apply rmatch_seq_Group_StarLazy; [reflexivity | |].
  - intros b1 c b2 E. apply rmatch_seq_Lit_miss.
    exact (not_Contains_split _ _ _ _ _ Hi E).
  - subst T4.
    rstep (@rmatch_seq_Lit regexp.Match "{{" _ _ ("end}}" +:+ post)).
    rstep (@rmatch_seq_Opt_miss regexp.Match "-" "e").
    rstep (@rmatch_seq_Star_none regexp.Match regexp.perl_s "e").
    rstep (@rmatch_seq_Lit regexp.Match "end" _ _ ("}}" +:+ post)).
    rstep (@rmatch_seq_Star_none regexp.Match regexp.perl_s "}").
    rstep (@rmatch_seq_Opt_miss regexp.Match "-" "}").
    rstep (@rmatch_seq_Lit regexp.Match "}}" _ _ post).
    cbn [regexp.seq foldr regexp.rmatch].
    cbn [String.append String.length]. rewrite !str_length_app.
    cbn [String.length]. rewrite !str_length_app. cbn [String.length].
    f_equal. f_equal; [lia|]. do 3 f_equal; lia.
Qed.

Lemma exec_ifElseEndPattern_exact (pos : nat) (cond kept dropped post : string) :
  strings.Contains cond "}" = false ->
  strings.Contains kept "{" = false ->
  strings.Contains dropped "{" = false ->
  regexp.exec parser.ifElseEndPattern pos
    ("{{if " +:+ cond +:+ "}}" +:+ kept +:+ "{{else}}" +:+ dropped +:+ "{{end}}" +:+ post)
  = Some (regexp.mkMatch pos
            (pos + String.length ("{{if " +:+ cond +:+ "}}" +:+ kept +:+ "{{else}}"
                                  +:+ dropped +:+ "{{end}}"))
            [(1%nat, ((pos + String.length ("{{if " +:+ cond +:+ "}}"))%nat,
                      (pos + String.length ("{{if " +:+ cond +:+ "}}")
                       + String.length kept)%nat))]).
Proof.
  intros Hc Hk Hd. unfold regexp.exec, parser.ifElseEndPattern.
  set (T6 := "{{end}}" +:+ post).
  set (T5 := dropped +:+ T6).
  set (T4 := "{{else}}" +:+ T5).
  set (T3 := kept +:+ T4).
  set (T1 := cond +:+ "}}" +:+ T3).
  rstep (@rmatch_seq_Lit regexp.Match "{{" _ _ ("if " +:+ T1)).
  rstep (@rmatch_seq_Opt_miss regexp.Match "-" "i").
  rstep (@rmatch_seq_Star_none regexp.Match regexp.perl_s "i").
  rstep (@rmatch_seq_Lit regexp.Match "if" _ _ (" " +:+ T1)).
  rstep (@rmatch_seq_Chr regexp.Match regexp.perl_s " ").
  apply (@rmatch_seq_Star_all regexp.Match _ cond "}" (String "}" T3));
    [now apply all_bytes_of_not_Contains | reflexivity |].
  rstep (@rmatch_seq_Lit regexp.Match "}}" _ _ T3).
  apply rmatch_seq_Group_StarLazy; [reflexivity | |].
  { intros b1 c b2 E. apply rmatch_seq_Lit_miss.
    exact (not_Contains_split _ _ _ _ _ Hk E). }
  subst T4.
  rstep (@rmatch_seq_Lit regexp.Match "{{" _ _ ("else}}" +:+ T5)).
  rstep (@rmatch_seq_Opt_miss regexp.Match "-" "e").
  rstep (@rmatch_seq_Star_none regexp.Match regexp.perl_s "e").
  rstep (@rmatch_seq_Lit regexp.Match "else" _ _ ("}}" +:+ T5)).
  rstep (@rmatch_seq_Star_none regexp.Match regexp.perl_s "}").
  rstep (@rmatch_seq_Opt_miss regexp.Match "-" "}").
  rstep (@rmatch_seq_Lit regexp.Match "}}" _ _ T5).
  apply rmatch_seq_StarLazy; [reflexivity | |].
  { intros b1 c b2 E. apply rmatch_seq_Lit_miss.
    exact (not_Contains_split _ _ _ _ _ Hd E). }
  subst T6.
  rstep (@rmatch_seq_Lit regexp.Match "{{" _ _ ("end}}" +:+ post)).
  rstep (@rmatch_seq_Opt_miss regexp.Match "-" "e").
  rstep (@rmatch_seq_Star_none regexp.Match regexp.perl_s "e").
  rstep (@rmatch_seq_Lit regexp.Match "end" _ _ ("}}" +:+ post)).
  rstep (@rmatch_seq_Star_none regexp.Match regexp.perl_s "}").
  rstep (@rmatch_seq_Opt_miss regexp.Match "-" "}").
  rstep (@rmatch_seq_Lit regexp.Match "}}" _ _ post).
  cbn [regexp.seq foldr regexp.rmatch].
  cbn [String.append String.length]. rewrite !str_length_app.
  cbn [String.length]. rewrite !str_length_app. cbn [String.length].
  rewrite !str_length_app. cbn [String.length].
  f_equal. f_equal; [lia|]. do 3 f_equal; lia.
Qed.

(** A pattern that begins with a literal byte is found after a text without
    this byte where it matches right after that text. *)
Lemma find_after_plain_text (c0 : ascii) (l : string) (rs : list regexp.regex)
    (s : string) (m : regexp.Match) : forall pre pos,
  strings.Contains pre (String c0 "") = false ->
  regexp.exec (regexp.seq (regexp.Lit (String c0 l) :: rs)) (pos + String.length pre) s
  = Some m ->
  regexp.find (regexp.seq (regexp.Lit (String c0 l) :: rs)) pos (pre +:+ s) = Some m.
Proof.
  induction pre as [|x pre IH]; intros pos Hpre He; rewrite find_unfold.
  - cbn [String.append String.length] in *. rewrite Nat.add_0_r in He. now rewrite He.
  - change (String x pre +:+ s) with (String x (pre +:+ s)).
    unfold regexp.exec at 1. rewrite rmatch_seq_Lit_miss.
    + apply IH; [exact (Contains_tail _ _ _ Hpre)|].
      cbn [String.length] in He. now rewrite Nat.add_succ_r in He.
    + destruct (Ascii.eqb_spec c0 x) as [<- |]; [|reflexivity].
      pose proof (Contains_app (String c0 "") "" pre) as Hc. simpl in Hc. congruence.
Qed.

Lemma Contains_brace_of_directive (a t : string) :
  strings.Contains (a +:+ "{{" +:+ t) "{" = true.
Proof. exact (Contains_app "{" a ("{" +:+ t)). Qed.

Lemma find_none_plain_text (rs : list regexp.regex) (s : string) (pos : nat) :
  hd regexp.Eps rs = regexp.Lit "{{" ->
  List.last (tl rs) regexp.Eps = regexp.Lit "}}" ->
  tl rs <> [] ->
  strings.Contains s "{" = false ->
  regexp.find (regexp.seq rs) pos s = None.
Proof.
  intros H1 H2 H3 Hs. destruct (regexp.find (regexp.seq rs) pos s) as [m|] eqn:F;
    [|reflexivity].
  apply (find_braces _ _ _ _ H1 H2 H3) in F.
  apply hasDirective_inv in F as (a & u & c & ->).
  now rewrite Contains_brace_of_directive in Hs.
Qed.

Lemma Contains_byte_app (c : ascii) (a b : string) :
  strings.Contains a (String c "") = false ->
  strings.Contains b (String c "") = false ->
  strings.Contains (a +:+ b) (String c "") = false.
Proof.
  intros Ha Hb. induction a as [|x a IH]; [exact Hb|].
  specialize (IH (Contains_tail _ _ _ Ha)).
  destruct (strings.Contains (String x a +:+ b) (String c "")) eqn:E; [|reflexivity].
  apply Contains_inv in E as ([|y pre] & t & E); simpl in E; injection E as -> E.
  - pose proof (Contains_app (String c "") "" a) as Hc. simpl in Hc. congruence.
  - rewrite E in IH. pose proof (Contains_app (String c "") pre t) as Hc. simpl in Hc.
    congruence.
Qed.

Lemma countByte_app (c : ascii) (a b : string) :
  countByte c (a +:+ b) = (countByte c a + countByte c b)%nat.
Proof. induction a as [|x a IH]; simpl; [reflexivity | rewrite IH; lia]. Qed.

Lemma countByte_plain (c : ascii) : forall s,
  strings.Contains s (String c "") = false -> countByte c s = 0%nat.
Proof.
  induction s as [|x s IH]; intros H; [reflexivity|].
  cbn [countByte]. rewrite (IH (Contains_tail _ _ _ H)).
  destruct (Ascii.eqb_spec x c) as [-> |]; [|reflexivity].
  pose proof (Contains_app (String c "") "" s) as Hc. simpl in Hc. congruence.
Qed.

(** A text that the pattern of blocks with an else branch matches holds
    three directives. *)
Lemma Lang_ifElseEndPattern_braces (w : string) :
  Lang parser.ifElseEndPattern w -> (6 <= countByte "{" w)%nat.
Proof.
  unfold parser.ifElseEndPattern.
  intros (w1 & x1 & -> & L1 & w2 & x2 & -> & _ & w3 & x3 & -> & _ & w4 & x4 & -> & _ & w5 & x5 & -> & _ & w6 & x6 & -> & _ & w7 & x7 & -> & _ & w8 & x8 & -> & _ & w9 & x9 & -> & L9 & w10 & x10 & -> & _ & w11 & x11 & -> & _ & w12 & x12 & -> & _ & w13 & x13 & -> & _ & w14 & x14 & -> & _ & w15 & x15 & -> & _ & w16 & x16 & -> & _ & w17 & x17 & -> & L17 & _).
  apply Lang_Lit in L1 as ->. apply Lang_Lit in L9 as ->. apply Lang_Lit in L17 as ->.
  rewrite !countByte_app.
  change (countByte "{" "{{") with 2%nat. lia.
Qed.

Lemma ReplaceAll_group1_one_block (rs : list regexp.regex)
    (pre opening kept closing post : string) :
  List.last rs regexp.Eps = regexp.Lit "}}" -> rs <> [] ->
  strings.Contains pre "{" = false ->
  strings.Contains post "{" = false ->
  opening <> "" ->
  regexp.exec (regexp.seq (regexp.Lit "{{" :: rs))
    (String.length pre) ((opening +:+ kept +:+ closing) +:+ post)
  = Some (regexp.mkMatch (String.length pre)
            (String.length pre + String.length (opening +:+ kept +:+ closing))
            [(1%nat, ((String.length pre + String.length opening)%nat,
                      (String.length pre + String.length opening
                       + String.length kept)%nat))]) ->
  regexp.ReplaceAll_group1 (regexp.seq (regexp.Lit "{{" :: rs))
    (pre +:+ (opening +:+ kept +:+ closing) +:+ post)
  = pre +:+ kept +:+ post.
Proof.
  intros Hlast Hrs Hpre Hpost Ho He. unfold regexp.ReplaceAll_group1.
  set (re := regexp.seq (regexp.Lit "{{" :: rs)) in *.
  set (block := opening +:+ kept +:+ closing) in *.
  set (s := pre +:+ block +:+ post).
  assert (F : regexp.find re 0 (drop_bytes 0 s)
              = Some (regexp.mkMatch (String.length pre)
                        (String.length pre + String.length block)
                        [(1%nat, ((String.length pre + String.length opening)%nat,
                                  (String.length pre + String.length opening
                                   + String.length kept)%nat))])).
  { rewrite drop_bytes_0. subst s re.
    apply (find_after_plain_text "{" "{"); [exact Hpre | exact He]. }
  destruct (replaceAll_loop_some (S (String.length s)) re
              (fun a => regexp.submatch s a 1) s 0 _ pre block post
              (Nat.le_0_l _) F (drop_bytes_0 s))
    as (-> & Ht & Le & Lt & Hs); [reflexivity | reflexivity | |].
  { subst block. destruct opening; [congruence | discriminate]. }
  cbn [regexp.mend] in *.
  rewrite replaceAll_loop_none.
  - rewrite Ht. f_equal. f_equal.
    unfold regexp.submatch. cbn [regexp.mgroups regexp.group Nat.eqb].
    replace (String.length pre + String.length opening)%nat
      with (0 + String.length (pre +:+ opening))%nat
      by (rewrite str_length_app; lia).
    apply slice_of_drop with (t := closing +:+ post).
    rewrite drop_bytes_0. subst s block. now rewrite !str_app_assoc.
  - rewrite Ht. subst re.
    apply find_none_plain_text; [reflexivity | exact Hlast | exact Hrs | exact Hpost].
Qed.

(** X23.  An if block without else branch, in a page of plain text, makes
    way for its content: the two directives go, and the text before the
    block, the text inside it and the text after it are kept as they are.
    The texts hold no opening brace and the condition no brace at all. *)
Theorem Process_keeps_content_of_if_block (pre cond inner post : string) :
  strings.Contains pre "{" = false ->
  strings.Contains cond "{" = false ->
  strings.Contains cond "}" = false ->
  strings.Contains inner "{" = false ->
  strings.Contains post "{" = false ->
  parser.processed_bytes
    (pre +:+ "{{if " +:+ cond +:+ "}}" +:+ inner +:+ "{{end}}" +:+ post)
  = pre +:+ inner +:+ post.
Proof.
  intros Hpre Hco Hcc Hin Hpost.
  unfold parser.processed_bytes, parser.Process. cbn [fst].
  set (whole := pre +:+ "{{if " +:+ cond +:+ "}}" +:+ inner +:+ "{{end}}" +:+ post).
  assert (P1 : regexp.ReplaceAll_group1 parser.ifElseEndPattern whole = whole).
  { apply replaceAll_loop_no_match.
    destruct (regexp.find parser.ifElseEndPattern 0 whole) as [m|] eqn:F; [|reflexivity].
    apply find_sound in F as (a & w & t & E & L & _).
    apply Lang_ifElseEndPattern_braces in L.
    apply (f_equal (countByte "{")) in E. subst whole.
    rewrite !countByte_app in E.
    rewrite (countByte_plain _ _ Hpre), (countByte_plain _ _ Hco),
      (countByte_plain _ _ Hin), (countByte_plain _ _ Hpost) in E.
    change (countByte "{" "{{if ") with 2%nat in E.
    change (countByte "{" "}}") with 0%nat in E.
    change (countByte "{" "{{end}}") with 2%nat in E. lia. }
  rewrite P1.
  assert (P2 : regexp.ReplaceAll_group1 parser.ifEndPattern whole
               = pre +:+ inner +:+ post).
  { subst whole. unfold parser.ifEndPattern.
    replace (pre +:+ "{{if " +:+ cond +:+ "}}" +:+ inner +:+ "{{end}}" +:+ post)
      with (pre +:+ (("{{if " +:+ cond +:+ "}}") +:+ inner +:+ "{{end}}") +:+ post)
      by now rewrite !str_app_assoc.
    apply ReplaceAll_group1_one_block;
      [reflexivity | discriminate | exact Hpre | exact Hpost | discriminate |].
    rewrite !str_app_assoc.
    exact (exec_ifEndPattern_exact (String.length pre) cond inner post Hcc Hin). }
  rewrite P2. unfold regexp.ReplaceAllFunc. apply replaceAll_loop_no_match.
  apply find_none_plain_text; [reflexivity | reflexivity | discriminate |].
  now repeat apply Contains_byte_app.
Qed.

Lemma Process_keeps_content_of_if_block_witness :
  parser.processed_bytes
    ("<ul>" +:+ "{{if " +:+ ".Items" +:+ "}}" +:+ "<li>first</li>" +:+ "{{end}}" +:+ "</ul>")
  = "<ul><li>first</li></ul>".
Proof.
  apply (Process_keeps_content_of_if_block "<ul>" ".Items" "<li>first</li>" "</ul>");
    reflexivity.
Defined.

(** X24.  An if block with an else branch, in a page of plain text, makes
    way for its first branch: the three directives and the whole else
    branch go, line feeds and all, and the text before the block, the first
    branch and the text after the block are kept as they are. *)
Theorem Process_keeps_first_branch_of_if_else_block
    (pre cond kept dropped post : string) :
  strings.Contains pre "{" = false ->
  strings.Contains cond "}" = false ->
  strings.Contains kept "{" = false ->
  strings.Contains dropped "{" = false ->
  strings.Contains post "{" = false ->
  parser.processed_bytes
    (pre +:+ "{{if " +:+ cond +:+ "}}" +:+ kept +:+ "{{else}}" +:+ dropped
     +:+ "{{end}}" +:+ post)
  = pre +:+ kept +:+ post.
Proof.
  intros Hpre Hcc Hk Hd Hpost.
  assert (Hout : strings.Contains (pre +:+ kept +:+ post) "{" = false)
    by now repeat apply Contains_byte_app.
  unfold parser.processed_bytes, parser.Process. cbn [fst].
  assert (P1 : regexp.ReplaceAll_group1 parser.ifElseEndPattern
                 (pre +:+ "{{if " +:+ cond +:+ "}}" +:+ kept +:+ "{{else}}" +:+ dropped
                  +:+ "{{end}}" +:+ post)
               = pre +:+ kept +:+ post).
  { unfold parser.ifElseEndPattern.
    replace (pre +:+ "{{if " +:+ cond +:+ "}}" +:+ kept +:+ "{{else}}" +:+ dropped
             +:+ "{{end}}" +:+ post)
      with (pre +:+ (("{{if " +:+ cond +:+ "}}") +:+ kept
                     +:+ ("{{else}}" +:+ dropped +:+ "{{end}}")) +:+ post)
      by now rewrite !str_app_assoc.
    apply ReplaceAll_group1_one_block;
      [reflexivity | discriminate | exact Hpre | exact Hpost | discriminate |].
    rewrite !str_app_assoc.
    exact (exec_ifElseEndPattern_exact (String.length pre) cond kept dropped post
             Hcc Hk Hd). }
  rewrite P1.
  assert (P2 : regexp.ReplaceAll_group1 parser.ifEndPattern (pre +:+ kept +:+ post)
               = pre +:+ kept +:+ post)
    by (apply replaceAll_loop_no_match, find_none_plain_text;
        [reflexivity | reflexivity | discriminate | exact Hout]).
  rewrite P2. unfold regexp.ReplaceAllFunc.
  apply replaceAll_loop_no_match, find_none_plain_text;
    [reflexivity | reflexivity | discriminate | exact Hout].
Qed.

Lemma Process_keeps_first_branch_witness :
  parser.processed_bytes
    ("<p>" +:+ "{{if " +:+ ".User" +:+ "}}" +:+ ("Hello" +:+ LF) +:+ "{{else}}"
     +:+ ("Sign in" +:+ LF +:+ "or register" +:+ LF) +:+ "{{end}}" +:+ "</p>")
  = "<p>" +:+ ("Hello" +:+ LF) +:+ "</p>".
Proof.
  apply (Process_keeps_first_branch_of_if_else_block "<p>" ".User" ("Hello" +:+ LF)
           ("Sign in" +:+ LF +:+ "or register" +:+ LF) "</p>"); reflexivity.
Defined.

(** ** Character references: a line with one reference *)

Lemma exec_namedCharRefPattern_exact (pos : nat) (c : ascii) (name post : string) :
  (isLowerASCII c || isUpperASCII c) = true ->
  all_bytes (fun c => isLowerASCII c || isUpperASCII c || isDigit c) name ->
  regexp.exec rules.namedCharRefPattern pos ("&" +:+ String c name +:+ ";" +:+ post)
  = Some (regexp.mkMatch pos (pos + String.length ("&" +:+ String c name +:+ ";"))
            [(1%nat, (S pos, (S pos + String.length (String c name))%nat))]).
Proof.
  intros Hc Hn. unfold regexp.exec, rules.namedCharRefPattern.
  cbn [regexp.seq foldr regexp.Lit regexp.rmatch String.append].
  rewrite Ascii.eqb_refl, Hc.
  apply star_takes_all; [reflexivity | exact Hn |].
  rewrite Ascii.eqb_refl. cbn [String.length]. rewrite str_length_app.
  cbn [String.length]. f_equal. f_equal; [lia|]. do 3 f_equal. lia.
Qed.

Lemma find_namedCharRefPattern_none (s : string) (pos : nat) :
  strings.Contains s "&" = false -> regexp.find rules.namedCharRefPattern pos s = None.
Proof.
  intros Hs. destruct (regexp.find rules.namedCharRefPattern pos s) as [m|] eqn:F;
    [|reflexivity].
  apply find_sound in F as (a & w & t & -> & L & _).
  apply namedCharRefPattern_shape in L as (c & name & -> & _).
  pose proof (Contains_app "&" a ((String c name +:+ ";") +:+ t)) as Hc.
  simpl in Hc, Hs. congruence.
Qed.

Lemma Split_without_LF : forall s cur,
  strings.Contains s LF = false -> strings.split_from s LF 0 cur = [cur +:+ s].
Proof.
  induction s as [|x s IH]; intros cur H; cbn [strings.split_from].
  - now rewrite str_app_nil_r.
  - replace (strings.HasPrefix (String x s) LF) with false.
    + rewrite (IH _ (Contains_tail _ _ _ H)). now rewrite str_app_assoc.
    + unfold LF. cbn [strings.HasPrefix]. rewrite andb_true_r.
      destruct (Ascii.eqb_spec (ascii_of_N 10) x) as [<- |]; [|reflexivity].
      pose proof (Contains_app LF "" s) as Hc. unfold LF in *. simpl in Hc, H.
      congruence.
Qed.

(** X25.  A content of one line that holds one reference, with no other
    ampersand before or after it: the raw check returns exactly one
    Warning, at line 1 and at the column after the bytes before the
    reference, when the reference is outside template expressions and
    unescaping leaves it as it is, and nothing otherwise. *)
Theorem CheckRaw_line_with_one_reference (RuleUnrecognizedCharRef : string)
    (entity : string -> Z) (entity2 : string -> Z * Z) (filename : string)
    (pre : string) (c : ascii) (name post : string) :
  let ref := "&" +:+ String c name +:+ ";" in
  let line := pre +:+ ref +:+ post in
  strings.Contains pre "&" = false ->
  strings.Contains post "&" = false ->
  strings.Contains line LF = false ->
  (isLowerASCII c || isUpperASCII c) = true ->
  all_bytes (fun c => isLowerASCII c || isUpperASCII c || isDigit c) name ->
  rules.UnrecognizedCharRef_CheckRaw RuleUnrecognizedCharRef entity entity2 filename line
  = if rules.isInsideTemplateExpr line (String.length pre) then []
    else if String.eqb (html.UnescapeString entity entity2 ref) ref
         then [rules.mkResult RuleUnrecognizedCharRef
                 ("unrecognized character reference " +:+ ref) filename 1
                 (Z.of_nat (String.length pre) + 1) rules.Warning]
         else [].
Proof.
  intros ref line Hpre Hpost HLF Hc Hn.
  set (m := regexp.mkMatch (String.length pre)
              (String.length pre + String.length ref)
              [(1%nat, (S (String.length pre),
                        (S (String.length pre) + String.length (String c name))%nat))]).
  assert (F : regexp.find rules.namedCharRefPattern 0 (drop_bytes 0 line) = Some m).
  { rewrite drop_bytes_0. subst line. unfold rules.namedCharRefPattern.
    apply (find_after_plain_text "&" ""); [exact Hpre|].
    subst ref m. rewrite !str_app_assoc.
    exact (exec_namedCharRefPattern_exact (String.length pre) c name post Hc Hn). }
  assert (Hd : drop_bytes 0 line = pre +:+ ref +:+ post) by apply drop_bytes_0.
  assert (Hm : drop_bytes (regexp.mend m) line = post).
  { subst m. cbn [regexp.mend]. rewrite drop_bytes_add. subst line.
    now rewrite !drop_bytes_app. }
  assert (HM : regexp.FindAllStringSubmatchIndex rules.namedCharRefPattern line = [m]).
  { unfold regexp.FindAllStringSubmatchIndex. cbn [regexp.allMatches_loop].
    rewrite F. cbv zeta.
    replace (regexp.mend m =? 0)%nat with false
      by (symmetry; apply Nat.eqb_neq; subst m ref; cbn; lia).
    cbn [andb negb]. f_equal.
    rewrite Hm, (find_namedCharRefPattern_none _ _ Hpost).
    now destruct (String.length line <? regexp.mend m)%nat. }
  unfold rules.UnrecognizedCharRef_CheckRaw, strings.Split.
  rewrite (Split_without_LF _ _ HLF). cbn [String.append rules.CheckRaw_lines].
  rewrite HM. cbn [fold_left]. unfold rules.CheckRaw_match. cbv zeta.
  replace (slice line (regexp.mstart m) (regexp.mend m)) with ref
    by (symmetry; exact (slice_of_drop line 0 pre ref post Hd)).
  replace (regexp.submatch line m 1) with (String c name).
  - cbn [regexp.mstart app]. reflexivity.
  - unfold regexp.submatch. subst m. cbn [regexp.mgroups regexp.group Nat.eqb].
    symmetry.
    replace (S (String.length pre)) with (0 + String.length (pre +:+ "&"))%nat
      by (rewrite str_length_app; cbn [String.length]; lia).
    apply slice_of_drop with (t := ";" +:+ post).
    rewrite Hd. subst ref. now rewrite !str_app_assoc.
Qed.

Lemma CheckRaw_line_with_one_reference_witness :
  rules.UnrecognizedCharRef_CheckRaw "unrecognized-character-reference"
    entity_excerpt entity2_excerpt "test.html"
    ("<p>Tom " +:+ ("&" +:+ String "n" "bps" +:+ ";") +:+ " Jerry</p>")
  = [rules.mkResult "unrecognized-character-reference"
       "unrecognized character reference &nbps;" "test.html" 1 8 rules.Warning].
Proof.
  rewrite (CheckRaw_line_with_one_reference "unrecognized-character-reference"
             entity_excerpt entity2_excerpt "test.html" "<p>Tom " "n" "bps" " Jerry</p>");
    [vm_compute; reflexivity | reflexivity | reflexivity | vm_compute; reflexivity
    | reflexivity | vm_compute; auto].
Defined.

(** ** Character references: the rule of the raw check *)
















(** ** Events of the htmx namespace *)

Lemma Index_from_ge (sub : string) : forall s j i,
  strings.Index_from j s sub = Some i -> (j <= i)%nat.
Proof.
  induction s as [|c s IH]; intros j i; rewrite Index_from_unfold;
    destruct (strings.HasPrefix _ sub); intros H; try discriminate;
    try (injection H as <-; lia).
  apply IH in H. lia.
Qed.

(** The text before the first colon is empty exactly for the empty string
    and for a string that begins with a colon. *)
Lemma SplitN2_head_empty (s : string) :
  nth 0 (strings.SplitN2 s ":") "" = "" <-> s = "" \/ strings.HasPrefix s ":" = true.
Proof.
  unfold strings.SplitN2, strings.Index. rewrite Index_from_unfold.
  destruct (strings.HasPrefix s ":") eqn:E.
  - cbn [nth]. split; [auto|]. intros _. now destruct s.
  - destruct s as [|c s]; [cbn; split; auto|].
    destruct (strings.Index_from 1 s ":") as [i|] eqn:F; cbn [nth].
    + apply Index_from_ge in F. destruct i as [|i]; [lia|].
      split; [discriminate | intros [H|H]; discriminate].
    + split; [discriminate | intros [H|H]; discriminate].
Qed.

Lemma warnings_hold_no_error (l : list rules.Result) :
  Forall (fun res => rules.Severity_ res = rules.Warning) l ->
  ~ Exists (fun res => rules.Severity_ res = rules.Error) l.
Proof.
  induction 1 as [|x l Hx _ IH]; intros Hex; inversion Hex; subst;
    [congruence | contradiction].
Qed.

(** X26.  The validator of htmx events returns one result at most, and an
    Error only under version 4 and only for a name that, the htmx prefix
    taken off, is empty or begins with a colon: it then returns that one
    Error.  Every other name it does not know gets a Warning. *)
Theorem validateHTMXEvent_errs_only_on_empty_phase (RuleHTMXAttributes : string)
    (r : rules.HTMXAttributes) (filename : string) (n : parser.Node)
    (eventName : string) :
  let results := rules.validateHTMXEvent RuleHTMXAttributes r filename n eventName in
  let remainder := strings.TrimPrefix eventName "htmx:" in
  (length results <= 1)%nat
  /\ (Exists (fun res => rules.Severity_ res = rules.Error) results
      <-> rules.htmxVersion r = "4"
          /\ (remainder = "" \/ strings.HasPrefix remainder ":" = true)).
Proof.
  cbv zeta. unfold rules.validateHTMXEvent.
  pose proof (SplitN2_head_empty (strings.TrimPrefix eventName "htmx:")) as Hh.
  assert (No : forall l : list rules.Result,
            Forall (fun res => rules.Severity_ res = rules.Warning) l ->
            (length l <= 1)%nat ->
            ~ (rules.htmxVersion r = "4"
               /\ (strings.TrimPrefix eventName "htmx:" = ""
                   \/ strings.HasPrefix (strings.TrimPrefix eventName "htmx:") ":" = true)) ->
            (length l <= 1)%nat
            /\ (Exists (fun res => rules.Severity_ res = rules.Error) l
                <-> rules.htmxVersion r = "4"
                    /\ (strings.TrimPrefix eventName "htmx:" = ""
                        \/ strings.HasPrefix (strings.TrimPrefix eventName "htmx:") ":"
                           = true))).
  { intros l Hl Hlen Hn. split; [exact Hlen|]. split; [|contradiction].
    intros Hex. now apply warnings_hold_no_error in Hex. }
  destruct (String.eqb_spec (rules.htmxVersion r) "4") as [Ev|Ev].
  - unfold rules.validateHTMXv4Event. cbv zeta.
    set (parts := strings.SplitN2 (strings.TrimPrefix eventName "htmx:") ":") in *.
    replace (length parts =? 0)%nat with false
      by (subst parts; unfold strings.SplitN2; now destruct (strings.Index _ _)).
    cbn [orb]. destruct (String.eqb_spec (nth 0 parts "") "") as [E|E].
    + split; [cbn; lia|]. split; [intros _; split; [exact Ev | now apply Hh]|].
      intros _. now constructor.
    + repeat match goal with |- context [if ?b then _ else _] => destruct b end;
        (apply No; [repeat constructor | cbn; lia | intros [_ H]; now apply Hh in H]).
  - destruct (existsb _ _);
      (apply No; [repeat constructor | cbn; lia | intros [H _]; contradiction]).
Qed.
